(** * Paperbot: the merge / dedup / rank / enrich pipeline

    A shallow embedding of the literature-alert scripts
    [MultiKeywords_test_v1.py] and [MultiAPI_test_v1.py], and the
    properties their specification states about them.

    Modelling conventions.
    - A Python [str] is a [string]; the model covers ASCII text, on which
      [str.lower], [str.split], [str.strip] and [int] behave as the
      functions of [PyStr] below.
    - A Python [int] is a [Z].
    - A field that may hold [None] is an [option]; Python truthiness of
      such a value is written out ([truthy], [or_list], [or_str]).
    - The insertion-ordered [dict] that [merge_and_score] builds is an
      association list in insertion order ([ODict.t]); the [info_map] that
      the enrichment step only looks keys up in is a [gmap].
    - The scripts copy a record with [dict(p)] before they change it and
      never change a tag list in place, so records and lists are values.
    - Network calls are a parameter: the answer of the EFetch service to a
      request. Logging is left out. *)

From Stdlib Require Import ZArith Ascii DecimalString DecimalPos.
From stdpp Require Import base option list sorting strings gmap.

Local Open Scope Z_scope.
Set Warnings "-clear-no-such-hyp".

(** ** Python string primitives *)

Module PyStr.

(** [c.isspace()] on ASCII: TAB, LF, VT, FF, CR, FS, GS, RS, US, SPACE. *)
Definition is_space (c : ascii) : bool :=
  let n := Ascii.nat_of_ascii c in
  (Nat.leb 9 n && Nat.leb n 13) || (Nat.leb 28 n && Nat.leb n 32).

Definition lower_char (c : ascii) : ascii :=
  let n := Ascii.nat_of_ascii c in
  if Nat.leb 65 n && Nat.leb n 90 then Ascii.ascii_of_nat (n + 32) else c.

(** [s.lower()] *)
Fixpoint lower (s : string) : string :=
  match s with
  | EmptyString => EmptyString
  | String c s' => String (lower_char c) (lower s')
  end.

(** [bool(s)] for a [str]: the empty string is falsy. *)
Definition nonempty (s : string) : bool :=
  match s with
  | EmptyString => false
  | String _ _ => true
  end.

(** [sub in s]: [sub] occurs in [s] as a contiguous run of characters. *)
Fixpoint str_in (sub s : string) : bool :=
  String.prefix sub s
  || match s with
     | EmptyString => false
     | String _ s' => str_in sub s'
     end.

(** [s.split()]: the maximal runs of non-whitespace characters, in order.
    [cur] is the run being read. *)
Fixpoint split_from (cur s : string) : list string :=
  match s with
  | EmptyString => if nonempty cur then [cur] else []
  | String c s' =>
      if is_space c
      then (if nonempty cur then cur :: split_from EmptyString s'
            else split_from EmptyString s')
      else split_from (cur +:+ String c EmptyString) s'
  end.

Definition split (s : string) : list string := split_from EmptyString s.

(** Leading and trailing characters of the class [sp] removed. *)
Fixpoint lstrip_by (sp : ascii -> bool) (s : string) : string :=
  match s with
  | EmptyString => EmptyString
  | String c s' => if sp c then lstrip_by sp s' else s
  end.

Fixpoint rstrip_by (sp : ascii -> bool) (s : string) : string :=
  match s with
  | EmptyString => EmptyString
  | String c s' =>
      let r := rstrip_by sp s' in
      if sp c && negb (nonempty r) then EmptyString else String c r
  end.

(** [s.strip()] *)
Definition strip (s : string) : string :=
  rstrip_by is_space (lstrip_by is_space s).

(** [sep.join(l)] *)
Fixpoint join (sep : string) (l : list string) : string :=
  match l with
  | [] => EmptyString
  | [x] => x
  | x :: l' => x +:+ sep +:+ join sep l'
  end.

Definition digit_val (c : ascii) : option Z :=
  let n := Ascii.nat_of_ascii c in
  if Nat.leb 48 n && Nat.leb n 57 then Some (Z.of_nat (n - 48)) else None.

(** The digits of a decimal literal; a single underscore may stand between
    two digits. [after_digit] tells whether the previous character was a
    digit. *)
Fixpoint parse_digits (acc : Z) (after_digit : bool) (s : string) : option Z :=
  match s with
  | EmptyString => if after_digit then Some acc else None
  | String c s' =>
      match digit_val c with
      | Some d => parse_digits (10 * acc + d) true s'
      | None =>
          if Ascii.eqb c "_"%char && after_digit
          then parse_digits acc false s'
          else None
      end
  end.

(** The whitespace [int] skips: TAB, LF, VT, FF, CR and SPACE. *)
Definition is_c_space (c : ascii) : bool :=
  let n := Ascii.nat_of_ascii c in
  (Nat.leb 9 n && Nat.leb n 13) || Nat.eqb n 32.

(** [int(s)] for a [str] in base 10: surrounding whitespace is dropped, one
    sign is allowed; [None] stands for [ValueError]. The interpreter's cap
    on the number of digits is not modelled. *)
Definition py_int (s : string) : option Z :=
  match rstrip_by is_c_space (lstrip_by is_c_space s) with
  | String "+"%char r => parse_digits 0 false r
  | String "-"%char r => Z.opp <$> parse_digits 0 false r
  | r => parse_digits 0 false r
  end.

(** No whitespace character occurs in [s]. *)
Fixpoint no_space (s : string) : bool :=
  match s with
  | EmptyString => true
  | String c s' => negb (is_space c) && no_space s'
  end.

End PyStr.

(** ** Relevance scorer *)

(** [x or d] on an optional string: [None] and the empty string are falsy. *)
Definition or_str (x : option string) (d : string) : string :=
  match x with
  | Some s => if PyStr.nonempty s then s else d
  | None => d
  end.

(** [score_title(title, query)]; a [None] title is Python's [None].
    Phrase hit: +2; each token of the query found in the title: +1. *)
Definition score_title (title : option string) (query : string) : Z :=
  let t := PyStr.lower (or_str title EmptyString) in
  let q := PyStr.lower query in
  let score := 0 in
  let score := if PyStr.str_in q t then score + 2 else score in
  fold_left
    (fun score w =>
       let w := PyStr.strip w in
       if PyStr.nonempty w && PyStr.str_in w t then score + 1 else score)
    (PyStr.split q) score.

(** [safe_year_to_int(year_str)]: the year as an integer, 0 when [int]
    raises. *)
Definition safe_year_to_int (year_str : string) : Z :=
  match PyStr.py_int year_str with
  | Some n => n
  | None => 0
  end.

(** ** Data model *)

(** A normalized record, as [fetch_papers_crossref] and [fetch_papers_pubmed]
    build it. Both always store a [str] under [title], [url], [authors],
    [year], [journal], [query] and [source]; [doi] is read with [p.get] and
    tested for truthiness, [pmid], [abstract], [abstract_ja] and [pub_types]
    may hold [None]. *)
Record paper : Type := Paper {
  title : string;
  doi : option string;
  url : string;
  authors : string;
  year : string;
  journal : string;
  query : string;
  source : string;
  pmid : option string;
  abstract : option string;
  abstract_ja : option string;
  pub_types : option (list string)
}.

(** [p["source"] = v] and its siblings, on an immutable record. *)
Definition set_source (v : string) (p : paper) : paper :=
  Paper (title p) (doi p) (url p) (authors p) (year p) (journal p) (query p)
        v (pmid p) (abstract p) (abstract_ja p) (pub_types p).

Definition set_pmid (v : option string) (p : paper) : paper :=
  Paper (title p) (doi p) (url p) (authors p) (year p) (journal p) (query p)
        (source p) v (abstract p) (abstract_ja p) (pub_types p).

Definition set_abstract (v : option string) (p : paper) : paper :=
  Paper (title p) (doi p) (url p) (authors p) (year p) (journal p) (query p)
        (source p) (pmid p) v (abstract_ja p) (pub_types p).

Definition set_pub_types (v : option (list string)) (p : paper) : paper :=
  Paper (title p) (doi p) (url p) (authors p) (year p) (journal p) (query p)
        (source p) (pmid p) (abstract p) (abstract_ja p) v.

(** [bool(x)] for an optional string. *)
Definition truthy (x : option string) : bool :=
  match x with
  | Some s => PyStr.nonempty s
  | None => false
  end.

(** [x or []] for an optional list. *)
Definition or_list (x : option (list string)) : list string :=
  match x with
  | Some (y :: l) => y :: l
  | Some [] => []
  | None => []
  end.

(** [bool(l)] for a list. *)
Definition list_truthy {A} (l : list A) : bool :=
  match l with
  | [] => false
  | _ :: _ => true
  end.

(** ** Insertion-ordered dictionaries *)

Module ODict.

(** A [dict] with [str] keys: the items in insertion order, keys unique. *)
Definition t (V : Type) : Type := list (string * V).

(** [d.get(k)] *)
Fixpoint get {V} (k : string) (d : t V) : option V :=
  match d with
  | [] => None
  | (k', v) :: d' => if String.eqb k' k then Some v else get k d'
  end.

(** [d[k] = v]: an existing key keeps its place, a new one goes last. *)
Fixpoint set {V} (k : string) (v : V) (d : t V) : t V :=
  match d with
  | [] => [(k, v)]
  | (k', v') :: d' =>
      if String.eqb k' k then (k, v) :: d' else (k', v') :: set k v d'
  end.

Definition keys {V} (d : t V) : list string := map fst d.
Definition values {V} (d : t V) : list V := map snd d.

(** [dict.fromkeys(l)] *)
Definition fromkeys (l : list string) : t unit :=
  fold_left (fun d k => set k () d) l [].

End ODict.

(** [list(dict.fromkeys(l))]: [l] without repeats, in first-seen order. *)
Definition unique_in_order (l : list string) : list string :=
  ODict.keys (ODict.fromkeys l).

(** The union of two tag lists, written out twice in the source
    ([merge_and_score], lines 550-556 and [add_abstracts_to_papers],
    lines 444-450): [old_types] and [new_types] are already [x or []]. *)
Definition merged_types (old_types new_types : list string)
  : option (list string) :=
  if list_truthy old_types || list_truthy new_types
  then Some (unique_in_order (old_types ++ new_types))
  else None.

(** ** Identity resolver and merger *)

(** The key under which the dedup loop files [p]. *)
Definition dedup_key (p : paper) : string :=
  let by_title := PyStr.lower (title p) +:+ "_" +:+ year p in
  match doi p with
  | Some d =>
      if PyStr.nonempty d && negb (String.eqb d "(no DOI)")
      then PyStr.lower d
      else by_title
  | None => by_title
  end.

(** The body of [if key in merged:] in [MultiKeywords_test_v1.py]. *)
Definition merge_existing (existing p : paper) : paper :=
  let existing :=
    if negb (PyStr.str_in (source p) (source existing))
    then set_source (source existing +:+ "+" +:+ source p) existing
    else existing in
  let existing :=
    if negb (truthy (pmid existing)) && truthy (pmid p)
    then set_pmid (pmid p) existing
    else existing in
  let existing :=
    if negb (truthy (abstract existing)) && truthy (abstract p)
    then set_abstract (abstract p) existing
    else existing in
  let old_types := or_list (pub_types existing) in
  let new_types := or_list (pub_types p) in
  set_pub_types (merged_types old_types new_types) existing.

(** The same body in [MultiAPI_test_v1.py]: only [source] is reconciled. *)
Definition merge_existing_v1 (existing p : paper) : paper :=
  if negb (PyStr.str_in (source p) (source existing))
  then set_source (source existing +:+ "+" +:+ source p) existing
  else existing.

Section Dedup.

(** What the loop does to a record already filed under the key. *)
Variable on_collision : paper -> paper -> paper.

(** One iteration of [for p in all_papers]. *)
Definition dedup_step (merged : ODict.t paper) (p : paper) : ODict.t paper :=
  let key := dedup_key p in
  match ODict.get key merged with
  | Some existing => ODict.set key (on_collision existing p) merged
  | None => ODict.set key p merged
  end.

Definition dedup_loop (all_papers : list paper) : ODict.t paper :=
  fold_left dedup_step all_papers [].

End Dedup.

(** [merged] after the dedup loop, for provider lists [a] then [b]. *)
Definition merge (papers_crossref papers_pubmed : list paper)
  : ODict.t paper :=
  dedup_loop merge_existing (papers_crossref ++ papers_pubmed).

Definition merge_v1 (papers_crossref papers_pubmed : list paper)
  : ODict.t paper :=
  dedup_loop merge_existing_v1 (papers_crossref ++ papers_pubmed).

(** ** Ranker *)

Module PyList.

Section Sort.
Context {A : Type} (le : A -> A -> bool).

Fixpoint insert (x : A) (l : list A) : list A :=
  match l with
  | [] => [x]
  | y :: l' => if le x y then x :: y :: l' else y :: insert x l'
  end.

(** [l.sort()] is stable; so is insertion from the right, where an item
    stops in front of the first one that is not smaller. *)
Definition sort (l : list A) : list A := foldr insert [] l.
End Sort.

(** [l[:n]] for any integer [n]: a negative [n] counts from the end. *)
Definition slice_to {A} (n : Z) (l : list A) : list A :=
  if 0 <=? n then take (Z.to_nat n) l
  else take (Z.to_nat (Z.of_nat (length l) + n)) l.

End PyList.

(** [a <= b] on pairs of integers, as Python compares tuples. *)
Definition tuple_le (a b : Z * Z) : bool :=
  (a.1 <? b.1) || ((a.1 =? b.1) && (a.2 <=? b.2)).

Definition scored : Type := Z * Z * paper.

(** [lambda x: (-x[0], -x[1])] *)
Definition sort_key (x : scored) : Z * Z := (- x.1.1, - x.1.2).

(** [scored_list] after [scored_list.sort(key=...)]. *)
Definition scored_list (merged : ODict.t paper) (q : string) : list scored :=
  let scored_list :=
    map (fun p => (score_title (Some (title p)) q, safe_year_to_int (year p), p))
        (ODict.values merged) in
  PyList.sort (fun x y => tuple_le (sort_key x) (sort_key y)) scored_list.

(** Lines 562-591: score, sort, cut. *)
Definition rank (merged : ODict.t paper) (q : string) (top_n : Z)
  : list paper :=
  map (fun t => t.2) (PyList.slice_to top_n (scored_list merged q)).

Definition merge_and_score (papers_crossref papers_pubmed : list paper)
    (q : string) (top_n : Z) : list paper :=
  match papers_crossref ++ papers_pubmed with
  | [] => []
  | _ => rank (merge papers_crossref papers_pubmed) q top_n
  end.

Definition merge_and_score_v1 (papers_crossref papers_pubmed : list paper)
    (q : string) (top_n : Z) : list paper :=
  match papers_crossref ++ papers_pubmed with
  | [] => []
  | _ => rank (merge_v1 papers_crossref papers_pubmed) q top_n
  end.

(** ** Enrichment *)

(** One [PubmedArticle] element of an EFetch answer, as the loop of
    [fetch_pubmed_abstracts] reads it. *)
Record pubmed_article : Type := PubmedArticle {
  art_pmid : option string;            (* text of the PMID element, if any *)
  art_abstract_texts : list string;    (* one per AbstractText element *)
  art_pub_types : list (option string) (* text of each PublicationType *)
}.

(** What [requests.get] and [ET.fromstring] come back with. *)
Inductive efetch_response : Type :=
| RequestFailed
| XmlParseError
| Articles (l : list pubmed_article).

(** An entry of [info_map]; both fields are read with [info.get]. *)
Record pubmed_info : Type := PubmedInfo {
  info_abstract : option string;
  info_pub_types : option (list string)
}.

Definition info_of_article (a : pubmed_article) : pubmed_info :=
  let abstract :=
    match art_abstract_texts a with
    | [] => EmptyString
    | texts => PyStr.strip (PyStr.join (String "010"%char EmptyString) texts)
    end in
  let pub_types :=
    omap (fun t => if truthy t then PyStr.strip <$> t else None)
         (art_pub_types a) in
  PubmedInfo (Some (if PyStr.nonempty abstract then abstract
                    else "(no abstract)"))
             (Some pub_types).

Section Enrich.

(** The EFetch service: the answer to a request for a list of ids. *)
Variable efetch : list string -> efetch_response.

Definition fetch_pubmed_abstracts (pmids : list string)
  : gmap string pubmed_info :=
  match pmids with
  | [] => ∅
  | _ =>
      match efetch pmids with
      | RequestFailed => ∅
      | XmlParseError => ∅
      | Articles arts =>
          fold_left
            (fun info_map a =>
               if truthy (art_pmid a)
               then <[PyStr.strip (default EmptyString (art_pmid a))
                      := info_of_article a]> info_map
               else info_map)
            arts ∅
      end
  end.

(** The ids [add_abstracts_to_papers] asks for: [sorted({...})]. *)
Definition requested_pmids (papers : list paper) : list string :=
  PyList.sort String.leb
    (unique_in_order
       (omap (fun p => if truthy (pmid p) && PyStr.str_in "PubMed" (source p)
                       then pmid p else None)
             papers)).

(** The body of the [for p in papers] loop. *)
Definition enrich_paper (info_map : gmap string pubmed_info) (p : paper)
  : paper :=
  match pmid p with
  | Some id =>
      if PyStr.nonempty id then
        match info_map !! id with
        | Some info =>
            let q := p in
            let q := if truthy (info_abstract info)
                     then set_abstract (info_abstract info) q else q in
            let new_types := or_list (info_pub_types info) in
            let old_types := or_list (pub_types q) in
            set_pub_types (merged_types old_types new_types) q
        | None => p
        end
      else p
  | None => p
  end.

(** [add_abstracts_to_papers(papers)], with the calls it makes to
    [fetch_pubmed_abstracts] (the argument of each). *)
Definition add_abstracts_to_papers (papers : list paper)
  : list paper * list (list string) :=
  let pmids := requested_pmids papers in
  match pmids with
  | [] => (papers, [])
  | _ =>
      let info_map := fetch_pubmed_abstracts pmids in
      (map (enrich_paper info_map) papers, [pmids])
  end.

End Enrich.

(** ** Article-type classifier *)

Definition guess_article_type (p : paper) : string :=
  let pub_types := or_list (pub_types p) in
  let pts_lower := map PyStr.lower pub_types in
  let any (sub : string) := existsb (PyStr.str_in sub) pts_lower in
  if any "meta-analysis" then "Meta-analysis"
  else if any "systematic review" then "Systematic review"
  else if any "review" then "Review"
  else if any "randomized controlled trial" then "Randomized controlled trial"
  else if any "clinical trial" then "Clinical trial"
  else if any "case reports" || any "case report" then "Case report"
  else if any "editorial" then "Editorial"
  else if any "letter" then "Letter"
  else if any "comment" then "Comment"
  else match pub_types with
       | first :: _ => first
       | [] => "(unknown)"
       end.

(** ** Normalizers *)

Module PyRe.

(** [\d] and [\w] on ASCII. *)
Definition is_digit (c : ascii) : bool :=
  let n := Ascii.nat_of_ascii c in Nat.leb 48 n && Nat.leb n 57.

Definition is_word (c : ascii) : bool :=
  let n := Ascii.nat_of_ascii c in
  is_digit c || (Nat.leb 65 n && Nat.leb n 90)
  || (Nat.leb 97 n && Nat.leb n 122) || Nat.eqb n 95.

(** [(\d{4})\b] matched at the head of [s]: the four digits. *)
Definition year_at (s : string) : option string :=
  match s with
  | String a (String b (String c (String d rest))) =>
      let at_end :=
        match rest with
        | EmptyString => true
        | String e _ => negb (is_word e)
        end in
      if is_digit a && is_digit b && is_digit c && is_digit d && at_end
      then Some (String a (String b (String c (String d EmptyString))))
      else None
  | _ => None
  end.

(** [re.search(r"\b(\d{4})\b", s)]: group 1 of the leftmost match.
    [prev_word] tells whether the character before [s] is a word
    character. *)
Fixpoint search_year (prev_word : bool) (s : string) : option string :=
  match s with
  | EmptyString => None
  | String c s' =>
      match (if prev_word then None else year_at s) with
      | Some y => Some y
      | None => search_year (is_word c) s'
      end
  end.

(** [re.sub(r"<[^>]+>", "", s)]. [tag] is [None] outside a candidate tag,
    and inside one it holds the text read since its "<", which is given
    back when the candidate turns out not to be a tag. *)
Fixpoint sub_tags (tag : option string) (s : string) : string :=
  match s with
  | EmptyString => default EmptyString tag
  | String c s' =>
      match tag with
      | None =>
          if Ascii.eqb c "<"%char then sub_tags (Some (String c EmptyString)) s'
          else String c (sub_tags None s')
      | Some seen =>
          if Ascii.eqb c ">"%char then
            match seen with
            | String _ (String _ _) => sub_tags None s'
            | _ => seen +:+ String c (sub_tags None s')
            end
          else sub_tags (Some (seen +:+ String c EmptyString)) s'
      end
  end.

End PyRe.

(** [str(n)] for an integer. *)
Definition str_of_int (n : Z) : string := NilZero.string_of_int (Z.to_int n).

(** [extract_year_from_pubdate(pubdate)] *)
Definition extract_year_from_pubdate (pubdate : string) : string :=
  if negb (PyStr.nonempty pubdate) then "(n.d.)"
  else match PyRe.search_year false pubdate with
       | Some y => y
       | None => "(n.d.)"
       end.

(** What a request that is decoded as JSON comes back with: the text of the
    exception, or the part of the document that is read. *)
Inductive http_result (A : Type) : Type :=
| RequestError (e : string)
| JsonError (e : string)
| Json (a : A).
Arguments RequestError {A} e.
Arguments JsonError {A} e.
Arguments Json {A} a.

(** An entry of ["author"]; a missing name part is [None]. A name part
    that is present is a string: on [null] the source raises [TypeError] at
    line 162, and an answer with such a part is outside this type. *)
Record crossref_author : Type := CrossrefAuthor {
  given : option string;
  family : option string
}.

(** A work of the Crossref answer, by the keys that are read. List-valued
    keys that are missing read as the empty list; a date key holds its
    ["date-parts"], where a part is an integer or [null]. *)
Record crossref_item : Type := CrossrefItem {
  it_title : list string;
  it_DOI : option string;
  it_URL : option string;
  it_author : list crossref_author;
  it_published_print : option (list (list (option Z)));
  it_published_online : option (list (list (option Z)));
  it_issued : option (list (list (option Z)));
  it_container_title : list string;
  it_type : option string;
  it_abstract : option string
}.

(** The inner loop over authors. *)
Definition crossref_author_name (a : crossref_author) : string :=
  let given := default EmptyString (given a) in
  let family := default EmptyString (family a) in
  let name := PyStr.strip (given +:+ " " +:+ family) in
  if negb (PyStr.nonempty name) then "(no name)" else name.

(** [str(x)] for a date part. *)
Definition str_of_part (x : option Z) : string :=
  match x with
  | Some n => str_of_int n
  | None => "None"
  end.

(** The loop over the three date keys, in their order. *)
Fixpoint crossref_year (dates : list (option (list (list (option Z)))))
  : string :=
  match dates with
  | [] => "(n.d.)"
  | Some ((x :: _) :: _) :: _ => str_of_part x
  | _ :: rest => crossref_year rest
  end.

(** The body of [for it in items] in [MultiKeywords_test_v1.py]. *)
Definition crossref_paper (q : string) (it : crossref_item) : paper :=
  let title :=
    match it_title it with
    | t :: _ => t
    | [] => "(no title)"
    end in
  let doi := default "(no DOI)" (it_DOI it) in
  let url :=
    default (if negb (String.eqb doi "(no DOI)")
             then "https://doi.org/" +:+ doi else "(no URL)")
            (it_URL it) in
  let authors := map crossref_author_name (it_author it) in
  let authors_str :=
    if list_truthy authors then PyStr.join ", " authors
    else "(no authors)" in
  let year :=
    crossref_year [it_published_print it; it_published_online it;
                   it_issued it] in
  let journal :=
    match it_container_title it with
    | j :: _ => j
    | [] => "(no journal)"
    end in
  let crossref_type :=
    if truthy (it_type it) then default EmptyString (it_type it)
    else "(no type)" in
  let abs_text :=
    if truthy (it_abstract it)
    then Some (PyStr.strip
                 (PyRe.sub_tags None (default EmptyString (it_abstract it))))
    else None in
  Paper title (Some doi) url authors_str year journal q "Crossref"
        None abs_text None (Some [crossref_type]).

(** [fetch_papers_crossref(query, rows)], given the answer of the service. *)
Definition fetch_papers_crossref (resp : http_result (list crossref_item))
    (q : string) : list paper * option string :=
  match resp with
  | RequestError e => ([], Some ("Crossref request error: " +:+ e))
  | JsonError e => ([], Some ("Crossref JSON parse error: " +:+ e))
  | Json items =>
      if negb (list_truthy items) then ([], Some "Crossref: No items found.")
      else (map (crossref_paper q) items, None)
  end.

(** The same in [MultiAPI_test_v1.py], where a record has neither an
    abstract nor tags. *)
Definition crossref_paper_v1 (q : string) (it : crossref_item) : paper :=
  set_pub_types None (set_abstract None (crossref_paper q it)).

Definition fetch_papers_crossref_v1 (resp : http_result (list crossref_item))
    (q : string) : list paper * option string :=
  match resp with
  | RequestError e => ([], Some ("Crossref request error: " +:+ e))
  | JsonError e => ([], Some ("Crossref JSON parse error: " +:+ e))
  | Json items =>
      if negb (list_truthy items) then ([], Some "Crossref: No items found.")
      else (map (crossref_paper_v1 q) items, None)
  end.

(** A document summary of ESummary, by the keys that are read; an author is
    its ["name"], an article id its ["idtype"] and ["value"]. *)
Record pubmed_doc : Type := PubmedDoc {
  doc_title : option string;
  doc_authors : list (option string);
  doc_fulljournalname : option string;
  doc_source : option string;
  doc_pubdate : option string;
  doc_epubdate : option string;
  doc_articleids : list (option string * option string)
}.

(** The ["result"] of ESummary: the ["uids"] and the summaries by id. A
    missing summary and an empty one are both [None]. *)
Record esummary_result : Type := EsummaryResult {
  uids : list string;
  docs : gmap string pubmed_doc
}.

(** The loop over ["articleids"]: the first DOI that is not empty. *)
Fixpoint pubmed_doi (articleids : list (option string * option string))
  : string :=
  match articleids with
  | [] => "(no DOI)"
  | (idtype, value) :: rest =>
      if bool_decide (idtype = Some "doi") && truthy value
      then default EmptyString value
      else pubmed_doi rest
  end.

(** The body of [for pmid in uids], for a summary that is there. *)
Definition pubmed_paper (q pmid : string) (doc : pubmed_doc) : paper :=
  let title := or_str (doc_title doc) "(no title)" in
  let authors := omap (fun name => if truthy name then name else None)
                      (doc_authors doc) in
  let authors_str :=
    if list_truthy authors then PyStr.join ", " authors
    else "(no authors)" in
  let journal :=
    or_str (doc_fulljournalname doc) (or_str (doc_source doc) "(no journal)") in
  let pubdate :=
    or_str (doc_pubdate doc) (or_str (doc_epubdate doc) EmptyString) in
  let year := extract_year_from_pubdate pubdate in
  let doi := pubmed_doi (doc_articleids doc) in
  let url :=
    if negb (String.eqb doi "(no DOI)") then "https://doi.org/" +:+ doi
    else "https://pubmed.ncbi.nlm.nih.gov/" +:+ pmid +:+ "/" in
  Paper title (Some doi) url authors_str year journal q "PubMed"
        (Some pmid) None None None.

(** [fetch_papers_pubmed(query, retmax)], given the answers of ESearch (the
    id list) and of ESummary. Both scripts build the same record; the keys
    the older one leaves out read as [None]. *)
Definition fetch_papers_pubmed (esearch : http_result (list string))
    (esummary : list string -> http_result esummary_result) (q : string)
  : list paper * option string :=
  match esearch with
  | RequestError e => ([], Some ("PubMed ESearch error: " +:+ e))
  | JsonError e => ([], Some ("PubMed ESearch JSON parse error: " +:+ e))
  | Json idlist =>
      if negb (list_truthy idlist) then ([], Some "PubMed: No PMIDs found.")
      else
        match esummary idlist with
        | RequestError e => ([], Some ("PubMed ESummary error: " +:+ e))
        | JsonError e =>
            ([], Some ("PubMed ESummary JSON parse error: " +:+ e))
        | Json result =>
            if negb (list_truthy (uids result))
            then ([], Some "PubMed: No summaries returned.")
            else (omap (fun pmid => pubmed_paper q pmid <$> docs result !! pmid)
                       (uids result),
                  None)
        end
  end.

(** ** Translation and annotation *)

Definition set_abstract_ja (v : option string) (p : paper) : paper :=
  Paper (title p) (doi p) (url p) (authors p) (year p) (journal p) (query p)
        (source p) (pmid p) (abstract p) v (pub_types p).

(** An entry of ["translations"]. Only a JSON object has [get]: on any
    other entry ([null], a string, a number, a list) [translations[i].get]
    raises [AttributeError]. Of an object the ["text"] is read: [None] when
    the key is missing or [null], else the string. A text of another JSON
    type does not make the source raise; it is outside this type. *)
Inductive deepl_translation : Type :=
| NotAnObject
| Translation (text : option string).

(** What the DeepL request comes back with, by the cases the code tells
    apart: the request fails; the body is not JSON; the document is not a
    JSON object, so that [data.get] raises [AttributeError]; it is an object
    whose ["translations"] is not a list; it is an object with that list,
    the empty one when the key is missing. *)
Inductive deepl_response : Type :=
| DeeplRequestFailed
| DeeplJsonError
| DeeplNotAnObject
| DeeplNotAList
| DeeplTranslations (translations : list deepl_translation).

(** The first loop of [translate_abstracts_ja]: index and text of the
    records that have an abstract, from index [idx] on. *)
Fixpoint abstracts_from (idx : nat) (papers : list paper)
  : list (nat * string) :=
  match papers with
  | [] => []
  | p :: rest =>
      if truthy (abstract p)
      then (idx, default EmptyString (abstract p))
             :: abstracts_from (S idx) rest
      else abstracts_from (S idx) rest
  end.

(** The last loop, from position [i] of [idxs] on. [None] is an exception:
    the [AttributeError] of [translations[i].get] on an entry that is no
    object, or the [IndexError] of [updated[idx]]. *)
Fixpoint apply_translations (i : nat) (idxs : list nat)
    (translations : list deepl_translation) (updated : list paper)
  : option (list paper) :=
  match idxs with
  | [] => Some updated
  | idx :: rest =>
      match translations !! i with
      | None => Some updated
      | Some NotAnObject => None
      | Some (Translation ja_text) =>
          if truthy ja_text then
            match updated !! idx with
            | Some p =>
                apply_translations (S i) rest translations
                  (<[idx := set_abstract_ja ja_text p]> updated)
            | None => None
            end
          else apply_translations (S i) rest translations updated
      end
  end.

(** [translate_abstracts_ja(papers)], given [TRANSLATION_ENABLED] and the
    answer of the service to a list of texts; [None] when it raises. The
    request and the decoding are inside [try], lines 645 to 665 are not. *)
Definition translate_abstracts_ja (enabled : bool)
    (deepl : list string -> deepl_response) (papers : list paper)
  : option (list paper) :=
  if negb enabled then Some papers
  else
    let found := abstracts_from 0 papers in
    let texts := map snd found in
    let idxs := map fst found in
    if negb (list_truthy texts) then Some papers
    else match deepl texts with
         | DeeplRequestFailed => Some papers
         | DeeplJsonError => Some papers
         | DeeplNotAnObject => None
         | DeeplNotAList => Some papers
         | DeeplTranslations translations =>
             apply_translations 0 idxs translations papers
         end.

(** A record with its ["article_type"]. *)
Record annotated_paper : Type := Annotated {
  base : paper;
  article_type : string
}.

Definition annotate_article_types (papers : list paper)
  : list annotated_paper :=
  map (fun p => Annotated p (guess_article_type p)) papers.

(** ** One query, from the requests to the annotated ranking *)

(** The services a run talks to. *)
Record services : Type := Services {
  crossref_works : string -> http_result (list crossref_item);
  pubmed_esearch : string -> http_result (list string);
  pubmed_esummary : list string -> http_result esummary_result;
  pubmed_efetch : list string -> efetch_response;
  deepl_translate : list string -> deepl_response;
  translation_enabled : bool
}.

(** The body of [for query in SEARCH_QUERIES] in [main], lines 684-702: the
    ranking with its types, and the error of either provider; [None] when
    the translation stage raises. The answers are those of the shapes the
    types above describe, every value that is present being of the JSON
    type the code reads it as; on other answers the normalizers raise. *)
Definition run_query (w : services) (top_n : Z) (q : string)
  : option (list annotated_paper * option string * option string) :=
  let (crossref_papers, crossref_err) :=
    fetch_papers_crossref (crossref_works w q) q in
  let (pubmed_papers, pubmed_err) :=
    fetch_papers_pubmed (pubmed_esearch w q) (pubmed_esummary w) q in
  let ranked := merge_and_score crossref_papers pubmed_papers q top_n in
  let ranked := (add_abstracts_to_papers (pubmed_efetch w) ranked).1 in
  ranked ← translate_abstracts_ja (translation_enabled w) (deepl_translate w)
             ranked;
  Some (annotate_article_types ranked, crossref_err, pubmed_err).

(** ** The Crossref-only script [send_mail_test_v3.py] *)

(** [score_item(item, query)]: the scorer on the first title of a work. *)
Definition score_item (item : crossref_item) (query : string) : Z :=
  let title :=
    match it_title item with
    | t :: _ => t
    | [] => EmptyString
    end in
  let t := PyStr.lower title in
  let q := PyStr.lower query in
  let score := 0 in
  let score := if PyStr.str_in q t then score + 2 else score in
  fold_left
    (fun score w =>
       let w := PyStr.strip w in
       if PyStr.nonempty w && PyStr.str_in w t then score + 1 else score)
    (PyStr.split q) score.

(** An entry of [scored]: the score, the index and the item, which is
    [None] for Python's [None]. *)
Definition scored_item : Type := Z * Z * option crossref_item.

(** The first loop of [choose_top_items], from index [idx] on. On an item
    that is [None], [score_item] raises [AttributeError]: [None] here. *)
Fixpoint score_items (idx : Z) (items : list (option crossref_item))
    (q : string) : option (list scored_item) :=
  match items with
  | [] => Some []
  | None :: _ => None
  | Some it :: rest =>
      scored ← score_items (idx + 1) rest q;
      Some ((score_item it q, idx, Some it) :: scored)
  end.

(** [lambda x: (-x[0], x[1])] *)
Definition item_key (x : scored_item) : Z * Z := (- x.1.1, x.1.2).

(** [choose_top_items(items, query, n)]; the last line keeps the items that
    are not [None]. *)
Definition choose_top_items (items : list (option crossref_item))
    (q : string) (n : Z) : option (list crossref_item) :=
  scored ← score_items 0 items q;
  let scored :=
    PyList.sort (fun x y => tuple_le (item_key x) (item_key y)) scored in
  Some (omap (fun t => t.2) (PyList.slice_to n scored)).

Module SendMailV3.

(** A record of the script: seven keys, each a [str]. *)
Record paper_info : Type := PaperInfo {
  title : string;
  doi : string;
  url : string;
  authors : string;
  year : string;
  journal : string;
  query : string
}.

End SendMailV3.

(** The body of [for it in selected_items] in [search_top_papers]. *)
Definition paper_info_of (q : string) (it : crossref_item)
  : SendMailV3.paper_info :=
  let title :=
    match it_title it with
    | t :: _ => t
    | [] => "(no title)"
    end in
  let doi := default "(no DOI)" (it_DOI it) in
  let url :=
    default (if negb (String.eqb doi "(no DOI)")
             then "https://doi.org/" +:+ doi else "(no URL)")
            (it_URL it) in
  let authors := map crossref_author_name (it_author it) in
  let authors_str :=
    if list_truthy authors then PyStr.join ", " authors
    else "(no authors)" in
  let year :=
    crossref_year [it_published_print it; it_published_online it;
                   it_issued it] in
  let journal :=
    match it_container_title it with
    | j :: _ => j
    | [] => "(no journal)"
    end in
  SendMailV3.PaperInfo title doi url authors_str year journal q.

(** [search_top_papers(query, top_n)], given the answer of the service: the
    pair the function returns, or [None] when it raises. *)
Definition search_top_papers (resp : http_result (list (option crossref_item)))
    (q : string) (top_n : Z)
  : option (option (list SendMailV3.paper_info) * option string) :=
  match resp with
  | RequestError e => Some (None, Some ("Request error: " +:+ e))
  | JsonError e => Some (None, Some ("JSON parse error: " +:+ e))
  | Json items =>
      if negb (list_truthy items) then Some (None, Some "No items found.")
      else
        selected_items ← choose_top_items items q top_n;
        if negb (list_truthy selected_items)
        then Some (None, Some "No suitable items selected.")
        else Some (Some (map (paper_info_of q) selected_items), None)
  end.

(** * Notions used by the properties *)

(** ** The scorer, as the specification words it *)

(** 2 for the phrase, plus the number of non-empty tokens of the query that
    occur in the title, both strings case-folded. *)
Definition score_by_spec (title query : string) : Z :=
  let t := PyStr.lower title in
  let q := PyStr.lower query in
  (if PyStr.str_in q t then 2 else 0)
  + Z.of_nat (length (List.filter
                        (fun w => PyStr.nonempty w && PyStr.str_in w t)
                        (PyStr.split q))).

(** ** The scorer, with attribute errors

    [score_title] again, on Python values, where calling a [str] method on
    [None] raises. It shows what the guard [title or ""] is for. *)

Inductive py_value : Type :=
| PyNone
| PyString (s : string).

Inductive py_error : Type :=
| AttributeError (attr : string).

Module Checked.

Definition result (A : Type) : Type := py_error + A.

Definition bind {A B} (x : result A) (k : A -> result B) : result B :=
  match x with
  | inl e => inl e
  | inr a => k a
  end.

(** [x or d] *)
Definition py_or (x d : py_value) : py_value :=
  match x with
  | PyNone => d
  | PyString s => if PyStr.nonempty s then x else d
  end.

(** [x.lower()] *)
Definition lower (x : py_value) : result string :=
  match x with
  | PyNone => inl (AttributeError "lower")
  | PyString s => inr (PyStr.lower s)
  end.

Definition score_title (title : py_value) (query : string) : result Z :=
  bind (lower (py_or title (PyString EmptyString))) (fun t =>
  bind (lower (PyString query)) (fun q =>
  let score := 0 in
  let score := if PyStr.str_in q t then score + 2 else score in
  inr (fold_left
         (fun score w =>
            let w := PyStr.strip w in
            if PyStr.nonempty w && PyStr.str_in w t then score + 1
            else score)
         (PyStr.split q) score))).

End Checked.

Definition to_option (x : py_value) : option string :=
  match x with
  | PyNone => None
  | PyString s => Some s
  end.

(** ** First-seen order *)

(** [l] without the items of [seen] and without repeats: an item is kept the
    first time it is met. *)
Fixpoint first_seen_from (seen l : list string) : list string :=
  match l with
  | [] => []
  | x :: l' =>
      if bool_decide (x ∈ seen) then first_seen_from seen l'
      else x :: first_seen_from (x :: seen) l'
  end.

Definition first_seen (l : list string) : list string := first_seen_from [] l.

(** [result] is the union of the tag lists [old] and [new]: [None] when both
    are empty; otherwise a list without repeats that holds the tags of [old]
    in their order, then the tags of [new] that [old] lacks, in theirs. *)
Definition is_tag_union (old new : list string) (result : option (list string))
  : Prop :=
  match result with
  | None => old = [] /\ new = []
  | Some l =>
      (old <> [] \/ new <> [])
      /\ NoDup l
      /\ l = first_seen old ++ first_seen_from old new
      /\ (forall x, x ∈ l <-> x ∈ old \/ x ∈ new)
      /\ sublist l (old ++ new)
      /\ (NoDup old -> l = old ++ first_seen_from old new)
  end.

(** ** Entries of the merged mapping *)

(** The items of [d] filed under [k]. *)
Definition entries_for {V} (k : string) (d : ODict.t V) : list (string * V) :=
  List.filter (fun kv => String.eqb kv.1 k) d.

(** [p] is filed under [k]. *)
Definition has_key (k : string) (p : paper) : bool :=
  bool_decide (dedup_key p = k).

(** What the dedup loop does to the entry of one key, seen from the records
    that carry this key. *)
Definition collide (on_collision : paper -> paper -> paper)
    (entry : option paper) (p : paper) : option paper :=
  match entry with
  | Some existing => Some (on_collision existing p)
  | None => Some p
  end.

(** ** Order of the ranking *)

(** The sort key of a record under a query. *)
Definition key_of (q : string) (p : paper) : Z * Z :=
  (score_title (Some (title p)) q, safe_year_to_int (year p)).

Definition same_key (q : string) (k : Z * Z) (p : paper) : bool :=
  bool_decide (key_of q p = k).

(** [p1] may stand before [p2]: higher score, or equal score and a year
    that is not smaller. *)
Definition ranks_before (q : string) (p1 p2 : paper) : Prop :=
  (key_of q p1).1 > (key_of q p2).1
  \/ ((key_of q p1).1 = (key_of q p2).1
      /\ (key_of q p1).2 >= (key_of q p2).2).

(** The order [scored_list.sort] compares two records in. *)
Definition rank_le (q : string) (p1 p2 : paper) : bool :=
  tuple_le (- (key_of q p1).1, - (key_of q p1).2)
           (- (key_of q p2).1, - (key_of q p2).2).

(** Newer first. *)
Definition year_desc (p1 p2 : paper) : bool :=
  safe_year_to_int (year p2) <=? safe_year_to_int (year p1).

(** ** Provenance of provider ids *)

(** A record as [fetch_papers_crossref] builds it. *)
Definition from_crossref (p : paper) : Prop :=
  source p = "Crossref" /\ pmid p = None.

(** A record as [fetch_papers_pubmed] builds it. *)
Definition from_pubmed (p : paper) : Prop :=
  source p = "PubMed".

(** A record that carries a PubMed id names PubMed among its sources. *)
Definition pmid_from_pubmed (p : paper) : Prop :=
  truthy (pmid p) = true -> PyStr.str_in "PubMed" (source p) = true.

(** ** The classifier, as a rule table *)

(** Pattern and label, highest priority first. *)
Definition type_rules : list (string * string) :=
  [ ("meta-analysis", "Meta-analysis");
    ("systematic review", "Systematic review");
    ("review", "Review");
    ("randomized controlled trial", "Randomized controlled trial");
    ("clinical trial", "Clinical trial");
    ("case report", "Case report");
    ("editorial", "Editorial");
    ("letter", "Letter");
    ("comment", "Comment") ].

(** Some tag contains the pattern, letter case aside. *)
Definition rule_matches (tags : list string) (rule : string * string) : bool :=
  existsb (fun tag => PyStr.str_in rule.1 (PyStr.lower tag)) tags.

Definition classify_by_rules (tags : list string) : string :=
  match List.find (rule_matches tags) type_rules with
  | Some rule => rule.2
  | None =>
      match tags with
      | first :: _ => first
      | [] => "(unknown)"
      end
  end.

(** ** Notions for the normalizers and the later stages *)

(** Exactly four decimal digits. *)
Definition four_digits (y : string) : bool :=
  match y with
  | String a (String b (String c (String d EmptyString))) =>
      PyRe.is_digit a && PyRe.is_digit b && PyRe.is_digit c && PyRe.is_digit d
  | _ => false
  end.

(** The year of a record as the specification has it: a 4-digit string or
    the sentinel "(n.d.)". *)
Definition spec_year (y : string) : Prop :=
  four_digits y = true \/ y = "(n.d.)".

(** The place of [c] in [s], counted from 0. *)
Fixpoint index_of (c : ascii) (s : string) : option nat :=
  match s with
  | EmptyString => None
  | String c' s' => if Ascii.eqb c c' then Some 0%nat else S <$> index_of c s'
  end.

(** The value of a decimal digit: its place among the ten digits. *)
Definition decimal_digit (c : ascii) : option Z :=
  Z.of_nat <$> index_of c "0123456789".

(** The specification's [year_as_integer]: the number the four digits of a
    year write; a non-numeric or sentinel year maps to 0. *)
Definition year_as_integer (y : string) : Z :=
  match y with
  | String a (String b (String c (String d EmptyString))) =>
      match decimal_digit a, decimal_digit b, decimal_digit c,
            decimal_digit d with
      | Some va, Some vb, Some vc, Some vd =>
          1000 * va + 100 * vb + 10 * vc + vd
      | _, _, _, _ => 0
      end
  | _ => 0
  end.

(** Newest first, by the specification's year. *)
Definition newer_first (p1 p2 : paper) : bool :=
  year_as_integer (year p2) <=? year_as_integer (year p1).

(** Every character of [s] passes [f]. *)
Fixpoint all_chars (f : ascii -> bool) (s : string) : bool :=
  match s with
  | EmptyString => true
  | String c s' => f c && all_chars f s'
  end.

(** [s] is empty or starts with a character that is not a word character;
    [s] is empty or ends with one. *)
Definition starts_nonword (s : string) : bool :=
  match s with
  | EmptyString => true
  | String c _ => negb (PyRe.is_word c)
  end.

Fixpoint ends_nonword (s : string) : bool :=
  match s with
  | EmptyString => true
  | String c EmptyString => negb (PyRe.is_word c)
  | String _ s' => ends_nonword s'
  end.

(** The number the digits of [d] write after the digits read so far, which
    write [acc]. *)
Fixpoint uint_value (acc : Z) (d : Decimal.uint) : Z :=
  match d with
  | Decimal.Nil => acc
  | Decimal.D0 d' => uint_value (10 * acc + 0) d'
  | Decimal.D1 d' => uint_value (10 * acc + 1) d'
  | Decimal.D2 d' => uint_value (10 * acc + 2) d'
  | Decimal.D3 d' => uint_value (10 * acc + 3) d'
  | Decimal.D4 d' => uint_value (10 * acc + 4) d'
  | Decimal.D5 d' => uint_value (10 * acc + 5) d'
  | Decimal.D6 d' => uint_value (10 * acc + 6) d'
  | Decimal.D7 d' => uint_value (10 * acc + 7) d'
  | Decimal.D8 d' => uint_value (10 * acc + 8) d'
  | Decimal.D9 d' => uint_value (10 * acc + 9) d'
  end.

(** The fields no stage after the normalizers writes to. *)
Definition same_identity (p1 p2 : paper) : Prop :=
  title p1 = title p2 /\ doi p1 = doi p2 /\ url p1 = url p2
  /\ authors p1 = authors p2 /\ year p1 = year p2
  /\ journal p1 = journal p2 /\ query p1 = query p2.

(** The same work under the same provider label. *)
Definition same_listing (p1 p2 : paper) : Prop :=
  same_identity p1 p2 /\ source p1 = source p2.

(** Entries under the same key that list the same work alike. *)
Definition alike (x y : string * paper) : Prop :=
  x.1 = y.1 /\ same_listing x.2 y.2.

(** What a record of the final ranking keeps of the record that was
    ranked. *)
Definition ranked_as (p : paper) (r : annotated_paper) : Prop :=
  same_listing (base r) p /\ pmid (base r) = pmid p
  /\ dedup_key (base r) = dedup_key p
  /\ article_type r = guess_article_type (base r).

(** [p2] is [p1] but for its abstract and tags. *)
Definition enriched_from (p1 p2 : paper) : Prop :=
  same_listing p2 p1 /\ pmid p2 = pmid p1 /\ abstract_ja p2 = abstract_ja p1.

(** [p2] is [p1] but for its translated abstract. *)
Definition translated_from (p1 p2 : paper) : Prop :=
  p2 = set_abstract_ja (abstract_ja p2) p1.

(** An answer to [n] texts on which the translation stage raises: the
    document is not an object, or one of the first [n] entries of its
    translations is not an object. *)
Definition bad_shape (n : nat) (r : deepl_response) : Prop :=
  r = DeeplNotAnObject
  \/ exists translations k,
       r = DeeplTranslations translations /\ (k < n)%nat
       /\ translations !! k = Some NotAnObject.

(** The date part [crossref_year] prints: the first part of the first date
    key that is present with a non-empty first date. *)
Fixpoint first_date_part (dates : list (option (list (list (option Z)))))
  : option (option Z) :=
  match dates with
  | [] => None
  | Some ((x :: _) :: _) :: _ => Some x
  | _ :: rest => first_date_part rest
  end.

(** The first record of [l] with a truthy value of the field [f], if any. *)
Definition first_truthy (f : paper -> option string) (l : list paper)
  : option paper :=
  List.find (fun p => truthy (f p)) l.

(** Best first: the order [choose_top_items] sorts works by. *)
Definition score_desc (q : string) (a b : crossref_item) : bool :=
  score_item b q <=? score_item a q.

(** The same order on items that may be [None]. *)
Definition opt_score_desc (q : string) (a b : option crossref_item) : bool :=
  match a, b with
  | Some a, Some b => score_desc q a b
  | _, _ => true
  end.

(** A record of the Crossref-only script and one of the merging script that
    list a work alike. *)
Definition same_fields (i : SendMailV3.paper_info) (p : paper) : Prop :=
  SendMailV3.title i = title p /\ Some (SendMailV3.doi i) = doi p
  /\ SendMailV3.url i = url p /\ SendMailV3.authors i = authors p
  /\ SendMailV3.year i = year p /\ SendMailV3.journal i = journal p
  /\ SendMailV3.query i = query p.

(** ** Sample records *)

Module Sample.

(** The two reports of one work in the merge scenario: the same DOI, in
    different letter case, from either provider. *)
Definition from_a : paper :=
  Paper "Organic electrochemical transistors for sensing" (Some "10.1/x")
        "https://doi.org/10.1/x" "A. Author" "2021" "Journal A"
        "organic electrochemical transistors" "Crossref"
        None None None (Some ["journal-article"]).

Definition from_b : paper :=
  Paper "organic electrochemical transistors" (Some "10.1/X")
        "https://doi.org/10.1/X" "Author A" "2021" "Journal A"
        "organic electrochemical transistors" "PubMed"
        (Some "31000001") None None None.

(** Another work, known by title and year only. *)
Definition other : paper :=
  Paper "Mixed conductors" (Some "(no DOI)") "(no URL)" "(no authors)"
        "(n.d.)" "(no journal)" "organic electrochemical transistors"
        "Crossref" None None None (Some ["journal-article"]).

(** Three candidates for the query below, of scores 5, 5 and 3. *)
Definition the_query : string := "organic electrochemical transistors".

Definition cand (t y d : string) : paper :=
  Paper t (Some d) "(no URL)" "(no authors)" y "(no journal)" the_query
        "Crossref" None None None None.

Definition cand_2020 : paper :=
  cand "Organic electrochemical transistors" "2020" "10.1/a".
Definition cand_2019 : paper :=
  cand "Organic electrochemical transistors in 2019" "2019" "10.1/b".
Definition cand_2023 : paper :=
  cand "Transistors: organic and electrochemical" "2023" "10.1/c".

(** The ranked sequence of the merge scenario; it carries a PubMed id. *)
Definition ranked : list paper :=
  merge_and_score [from_a] [from_b] the_query 3.

End Sample.

(** ** Sample answers of the services *)

Module SampleRun.

(** One work, reported by Crossref and by PubMed with the DOI in different
    letter case. *)
Definition item : crossref_item :=
  CrossrefItem ["Organic electrochemical transistors for sensing"]
               (Some "10.1/X") None
               [CrossrefAuthor (Some "A.") (Some "Author")]
               None (Some [[Some 2021; Some 3]]) None
               ["Journal A"] (Some "journal-article")
               (Some "<jats:p>Sensing with transistors.</jats:p>").

Definition doc : pubmed_doc :=
  PubmedDoc (Some "Organic electrochemical transistors for sensing.")
            [Some "Author A"] (Some "Journal A") None (Some "2021 Mar 5") None
            [(Some "pii", Some "S1"); (Some "doi", Some "10.1/x")].

Definition summaries : esummary_result :=
  EsummaryResult ["31000001"] {["31000001" := doc]}.

Definition world : services :=
  Services (fun _ => Json [item])
           (fun _ => Json ["31000001"])
           (fun _ => Json summaries)
           (fun _ => Articles [PubmedArticle (Some "31000001")
                                 ["Sensing, in short."] [Some "Review"]])
           (fun _ => DeeplTranslations
                       [Translation (Some "Kanchi, tanteki ni.")])
           true.

(** A work whose title shares no word with the query of the samples. *)
Definition item_other : crossref_item :=
  CrossrefItem ["Mixed conductors"] None None [] None None None [] None None.

(** Both providers down. *)
Definition offline : services :=
  Services (fun _ => RequestError "timeout")
           (fun _ => RequestError "timeout")
           (fun _ => RequestError "timeout")
           (fun _ => RequestFailed)
           (fun _ => DeeplRequestFailed)
           false.

End SampleRun.

(** * Properties *)

(** ** Facts about the string primitives *)

Module PyStrFacts.
Import PyStr.

Local Arguments String.append !_ _ / : simpl nomatch.

Lemma append_nil_r (s : string) : s +:+ EmptyString = s.
Proof. induction s as [|c s IH]; simpl; [done | by rewrite IH]. Qed.

Lemma append_assoc (a b c : string) : (a +:+ b) +:+ c = a +:+ b +:+ c.
Proof. induction a as [|x a IH]; simpl; [done | by rewrite IH]. Qed.

Lemma prefix_spec (a s : string) :
  String.prefix a s = true <-> exists b, s = a +:+ b.
Proof.
  revert s. induction a as [|x a IH]; intros s; simpl.
  - split; [intros _; by exists s | by destruct s].
  - destruct s as [|y s]; simpl.
    + split; [done | intros [b Hb]; discriminate].
    + destruct (ascii_dec x y) as [->|Hne].
      * rewrite IH. split; intros [b Hb]; exists b; [by rewrite Hb | congruence].
      * split; [done | intros [b Hb]; congruence].
Qed.

Lemma prefix_refl (s : string) : String.prefix s s = true.
Proof. apply prefix_spec. exists EmptyString. by rewrite append_nil_r. Qed.

Lemma str_in_nil (sub : string) :
  str_in sub EmptyString = String.prefix sub EmptyString.
Proof. unfold str_in. apply orb_false_r. Qed.

Lemma str_in_cons (sub : string) (c : ascii) (s : string) :
  str_in sub (String c s) = String.prefix sub (String c s) || str_in sub s.
Proof. done. Qed.

(** [sub in s] holds exactly when [s] is some text, then [sub], then some
    text. *)
Lemma str_in_spec (sub s : string) :
  str_in sub s = true <-> exists a b, s = a +:+ sub +:+ b.
Proof.
  induction s as [|c s IH].
  - rewrite str_in_nil, prefix_spec. split.
    + intros [b Hb]. by exists EmptyString, b.
    + intros [a [b Hab]]. destruct a; [by exists b | discriminate].
  - rewrite str_in_cons, orb_true_iff, prefix_spec, IH. split.
    + intros [[b Hb] | [a [b Hab]]].
      * by exists EmptyString, b.
      * exists (String c a), b. simpl. by rewrite Hab.
    + intros [a [b Hab]]. destruct a as [|x a]; simpl in Hab.
      * left. by exists b.
      * right. exists a, b. congruence.
Qed.

Lemma str_in_refl (s : string) : str_in s s = true.
Proof.
  apply str_in_spec. exists EmptyString, EmptyString.
  simpl. by rewrite append_nil_r.
Qed.

Lemma str_in_empty (s : string) : str_in EmptyString s = true.
Proof. by destruct s. Qed.

Lemma str_in_of_empty (sub : string) :
  str_in sub EmptyString = true -> sub = EmptyString.
Proof. destruct sub; simpl; [done | discriminate]. Qed.

Lemma str_in_trans (a b c : string) :
  str_in a b = true -> str_in b c = true -> str_in a c = true.
Proof.
  rewrite !str_in_spec. intros [x [y ->]] [u [v ->]].
  exists (u +:+ x), (y +:+ v). by rewrite !append_assoc.
Qed.

Lemma str_in_app_l (sub s x : string) :
  str_in sub s = true -> str_in sub (s +:+ x) = true.
Proof.
  rewrite !str_in_spec. intros [a [b ->]].
  exists a, (b +:+ x). by rewrite !append_assoc.
Qed.

Lemma str_in_app_r (sub x : string) : str_in sub (x +:+ sub) = true.
Proof.
  apply str_in_spec. exists x, EmptyString. by rewrite append_nil_r.
Qed.

Lemma nonempty_true (s : string) : nonempty s = true <-> s <> EmptyString.
Proof. destruct s; simpl; split; congruence. Qed.

Lemma no_space_app (a b : string) :
  no_space (a +:+ b) = no_space a && no_space b.
Proof.
  induction a as [|c a IH]; simpl; [done|].
  rewrite IH. by rewrite andb_assoc.
Qed.

(** Every token of [split] is a non-empty run without whitespace that
    occurs in the text. *)
Lemma split_from_token (cur s w : string) :
  no_space cur = true ->
  w ∈ split_from cur s ->
  nonempty w = true /\ no_space w = true /\ str_in w (cur +:+ s) = true.
Proof.
  revert cur. induction s as [|c s IH]; intros cur Hcur; simpl.
  - destruct (nonempty cur) eqn:Hne; [|by intros ?%elem_of_nil].
    intros ->%list_elem_of_singleton.
    rewrite append_nil_r. split_and!; [done..|apply str_in_refl].
  - destruct (is_space c) eqn:Hc.
    + assert (w ∈ split_from EmptyString s ->
                nonempty w = true /\ no_space w = true
                /\ str_in w (cur +:+ String c s) = true) as Hrest.
      { intros Hw'. destruct (IH EmptyString eq_refl Hw') as (?&?&Hin).
        split_and!; [done..|]. simpl in Hin.
        apply str_in_spec in Hin as [a [b ->]]. apply str_in_spec.
        exists (cur +:+ String c a), b. by rewrite append_assoc. }
      destruct (nonempty cur) eqn:Hne; [|by apply Hrest].
      intros [->|Hw]%elem_of_cons; [|by apply Hrest].
      split_and!; [done..|]. apply str_in_spec.
      exists EmptyString, (String c s). done.
    + intros Hw. apply IH in Hw.
      * by rewrite append_assoc in Hw.
      * rewrite no_space_app, Hcur. simpl. by rewrite Hc.
Qed.

Lemma split_token (s w : string) :
  w ∈ split s ->
  nonempty w = true /\ no_space w = true /\ str_in w s = true.
Proof. intros Hw. by apply (split_from_token EmptyString s w). Qed.

Lemma lstrip_no_space (s : string) :
  no_space s = true -> lstrip_by is_space s = s.
Proof. destruct s as [|c s]; simpl; [done|]. by destruct (is_space c). Qed.

Lemma rstrip_no_space (s : string) :
  no_space s = true -> rstrip_by is_space s = s.
Proof.
  induction s as [|c s IH]; simpl; [done|].
  destruct (is_space c); simpl; [done|]. intros Hs. by rewrite IH.
Qed.

(** [w.strip()] leaves a token of [split] as it is. *)
Lemma strip_no_space (s : string) : no_space s = true -> strip s = s.
Proof.
  intros Hs. unfold strip. rewrite lstrip_no_space by done.
  by apply rstrip_no_space.
Qed.

Create HintDb pystr discriminated.
#[export] Hint Resolve str_in_refl str_in_empty str_in_app_l str_in_app_r
  : pystr.

(** The primitives on small inputs. *)
Example split_runs :
  split "  organic   mixed conductors " = ["organic"; "mixed"; "conductors"].
Proof. reflexivity. Qed.

Example strip_both_ends : strip "  a b  " = "a b".
Proof. reflexivity. Qed.

Example lower_doi : lower "10.1/X" = "10.1/x".
Proof. reflexivity. Qed.

Example py_int_samples :
  map py_int ["2020"; " 2021 "; "-5"; "+7"; "1_000"; "007"]
  = [Some 2020; Some 2021; Some (-5); Some 7; Some 1000; Some 7]
  /\ map py_int ["(n.d.)"; ""; "+"; "+ 7"; "1__0"; "_1"; "1_"; "20a"]
     = [None; None; None; None; None; None; None; None].
Proof. split; reflexivity. Qed.

End PyStrFacts.

(** ** The scorer *)

Section Scorer.
Import PyStr PyStrFacts.

Lemma or_str_some (s : string) : or_str (Some s) EmptyString = s.
Proof. by destruct s. Qed.

Lemma or_str_none : or_str None EmptyString = EmptyString.
Proof. done. Qed.

(** The token loop adds one per token that passes the test. *)
Lemma count_loop (f : string -> bool) (l : list string) (init : Z) :
  fold_left (fun score w => if f w then score + 1 else score) l init
  = init + Z.of_nat (length (List.filter f l)).
Proof.
  revert init. induction l as [|w l IH]; intros init; simpl; [lia|].
  rewrite IH. destruct (f w); simpl; lia.
Qed.

Lemma count_loop_ext (f g : string -> bool) (l : list string) (init : Z) :
  (forall w, w ∈ l -> f w = g w) ->
  fold_left (fun score w => if f w then score + 1 else score) l init
  = fold_left (fun score w => if g w then score + 1 else score) l init.
Proof.
  revert init. induction l as [|w l IH]; intros init Hfg; simpl; [done|].
  rewrite (Hfg w) by left. apply IH. intros w' Hw'. apply Hfg. by right.
Qed.

Lemma filter_all {A} (f : A -> bool) (l : list A) :
  (forall x, x ∈ l -> f x = true) -> List.filter f l = l.
Proof.
  induction l as [|x l IH]; intros Hf; simpl; [done|].
  rewrite (Hf x) by left. f_equal. apply IH. intros y Hy. apply Hf. by right.
Qed.

(** The score, in closed form, for a present or missing title. *)
Lemma score_title_closed (title : option string) (query : string) :
  let t := lower (or_str title EmptyString) in
  let q := lower query in
  score_title title query
  = (if str_in q t then 2 else 0)
    + Z.of_nat (length (List.filter (fun w => nonempty w && str_in w t)
                                    (split q))).
Proof.
  intros t q. unfold score_title. fold t q.
  rewrite (count_loop_ext _ (fun w => nonempty w && str_in w t)).
  - rewrite count_loop. by destruct (str_in q t).
  - intros w Hw. apply split_token in Hw as (_ & Hns & _).
    cbv zeta. by rewrite strip_no_space.
Qed.

Lemma score_title_nonneg (title : option string) (query : string) :
  0 <= score_title title query.
Proof.
  rewrite score_title_closed.
  destruct (str_in _ _); lia.
Qed.

(** A title equal to the query earns the phrase bonus and every token. *)
Lemma score_title_self (query : string) :
  score_title (Some query) query
  = 2 + Z.of_nat (length (split (lower query))).
Proof.
  rewrite score_title_closed, or_str_some, str_in_refl.
  do 3 f_equal. apply filter_all.
  intros w Hw. apply split_token in Hw as (-> & _ & ->). done.
Qed.

Lemma lower_eq_empty (s : string) : lower s = EmptyString -> s = EmptyString.
Proof. by destruct s. Qed.

Lemma filter_none {A} (f : A -> bool) (l : list A) :
  (forall x, x ∈ l -> f x = false) -> List.filter f l = [].
Proof.
  induction l as [|x l IH]; intros Hf; simpl; [done|].
  rewrite (Hf x) by left. apply IH. intros y Hy. apply Hf. by right.
Qed.

(** Against an empty title only the phrase test can succeed. *)
Lemma score_title_empty_title (title : option string) (query : string) :
  or_str title EmptyString = EmptyString ->
  score_title title query = if nonempty query then 0 else 2.
Proof.
  intros Ht. rewrite score_title_closed, Ht.
  change (lower EmptyString) with EmptyString.
  assert (forall w, nonempty w = true -> str_in w EmptyString = false) as Hno.
  { intros w Hw. destruct (str_in w EmptyString) eqn:Hin; [|done].
    apply str_in_of_empty in Hin. by subst. }
  rewrite filter_none.
  - destruct query as [|c query]; [done|].
    rewrite (Hno (lower (String c query))); done.
  - intros w _. destruct (nonempty w) eqn:Hw; [|done]. by rewrite Hno.
Qed.

(** C2. For every title and query, [score_title] is 2 when the case-folded
    query occurs in the case-folded title (else 0), plus the number of
    non-empty whitespace-separated tokens of the case-folded query that
    occur in the case-folded title, where to occur is to be a contiguous
    run of the text. A title equal to a query of three tokens (letter case
    aside) scores 2 + 3 = 5. *)
Theorem score_title_refines_spec (title query : string) :
  score_title (Some title) query = score_by_spec title query
  /\ (forall sub s, str_in sub s = true <-> exists a b, s = a +:+ sub +:+ b)
  /\ (length (split (lower query)) = 3%nat ->
      lower title = lower query ->
      score_title (Some title) query = 5).
Proof.
  split_and!.
  - rewrite score_title_closed, or_str_some. done.
  - apply str_in_spec.
  - intros Hlen Heq.
    pose proof (score_title_self query) as Hself.
    rewrite Hlen in Hself.
    rewrite score_title_closed, or_str_some in Hself |- *.
    by rewrite Heq.
Qed.

Lemma score_title_refines_spec_witness :
  score_title (Some "organic electrochemical transistors")
              "organic electrochemical transistors" = 5.
Proof.
  apply (proj2 (proj2 (score_title_refines_spec
                         "organic electrochemical transistors"
                         "organic electrochemical transistors")));
    reflexivity.
Defined.

(** C9. [score_title] never raises: run with attribute errors, on a title
    that is a string or [None], it returns the score, which is never
    negative. A missing title counts as the empty string; the score is
    then 0 for every non-empty query, and is not 0 only for the empty
    query. *)
Theorem score_title_never_raises (title : py_value) (query : string) :
  Checked.score_title title query
  = inr (score_title (to_option title) query)
  /\ 0 <= score_title (to_option title) query
  /\ score_title None query = score_title (Some EmptyString) query
  /\ (query <> EmptyString -> score_title None query = 0)
  /\ (score_title None query <> 0 -> query = EmptyString).
Proof.
  split_and!.
  - destruct title as [|[|c s]]; done.
  - apply score_title_nonneg.
  - done.
  - intros Hq. rewrite score_title_empty_title by done.
    by destruct query.
  - rewrite score_title_empty_title by done.
    by destruct query.
Qed.

Lemma score_title_never_raises_witness :
  score_title None "organic" = 0.
Proof.
  apply (score_title_never_raises PyNone "organic"). discriminate.
Defined.

Lemma score_title_empty_query (title : option string) :
  score_title title EmptyString = 2.
Proof. rewrite score_title_closed. simpl. by rewrite str_in_empty. Qed.

End Scorer.

(** ** Insertion-ordered dictionaries and first-seen order *)

Module ODictFacts.
Import ODict.

Section Facts.
Context {V : Type}.
Implicit Types (d : ODict.t V) (k : string) (v : V).

Lemma get_set_eq k v d : get k (set k v d) = Some v.
Proof.
  induction d as [|[k' v'] d IH]; simpl.
  - by rewrite String.eqb_refl.
  - destruct (String.eqb_spec k' k) as [->|Hne]; simpl.
    + by rewrite String.eqb_refl.
    + by destruct (String.eqb_spec k' k).
Qed.

Lemma get_set_ne k k' v d : k <> k' -> get k (set k' v d) = get k d.
Proof.
  intros Hne. induction d as [|[k0 v0] d IH]; simpl.
  - by destruct (String.eqb_spec k' k); [subst|].
  - destruct (String.eqb_spec k0 k') as [->|Hne0]; simpl.
    + destruct (String.eqb_spec k' k); [by subst|done].
    + by rewrite IH.
Qed.

Lemma get_None k d : get k d = None <-> k ∉ keys d.
Proof.
  induction d as [|[k' v'] d IH]; simpl.
  - split; [intros _; apply not_elem_of_nil | done].
  - rewrite not_elem_of_cons.
    destruct (String.eqb_spec k' k) as [->|Hne]; [naive_solver|].
    rewrite IH. naive_solver.
Qed.

Lemma get_Some_elem k v d : get k d = Some v -> (k, v) ∈ d.
Proof.
  induction d as [|[k' v'] d IH]; simpl; [done|].
  destruct (String.eqb_spec k' k) as [->|Hne].
  - intros [= ->]. left.
  - intros Hg. right. by apply IH.
Qed.

(** Writing to a present key leaves the order of the keys alone; a new
    key goes last. *)
Lemma keys_set k v d :
  keys (set k v d) = if bool_decide (k ∈ keys d) then keys d
                     else keys d ++ [k].
Proof.
  induction d as [|[k' v'] d IH]; simpl; [done|].
  destruct (String.eqb_spec k' k) as [->|Hne]; simpl.
  - rewrite bool_decide_eq_true_2; [done | left].
  - rewrite IH. case_bool_decide as Hin.
    + rewrite bool_decide_eq_true_2; [done | by right].
    + rewrite bool_decide_eq_false_2; [done|].
      apply not_elem_of_cons. naive_solver.
Qed.

Lemma keys_set_NoDup k v d : NoDup (keys d) -> NoDup (keys (set k v d)).
Proof.
  intros Hnd. rewrite keys_set. case_bool_decide as Hin; [done|].
  apply NoDup_app. split_and!; [done| |apply NoDup_singleton].
  intros x Hx ->%list_elem_of_singleton. done.
Qed.

(** With unique keys, a key owns exactly the entry [get] returns. *)
Lemma entries_for_get k v d :
  NoDup (keys d) -> get k d = Some v -> entries_for k d = [(k, v)].
Proof.
  induction d as [|[k' v'] d IH]; simpl; [done|].
  intros [Hk' Hnd]%NoDup_cons.
  destruct (String.eqb_spec k' k) as [->|Hne].
  - intros [= ->]. f_equal.
    apply (proj2 (get_None k d)) in Hk'.
    clear IH Hnd. induction d as [|[k0 v0] d IH]; simpl in *; [done|].
    destruct (String.eqb_spec k0 k); [done|]. by apply IH.
  - by apply IH.
Qed.

Lemma values_elem v d : v ∈ values d <-> exists k, (k, v) ∈ d.
Proof.
  unfold values. rewrite list_elem_of_fmap. split.
  - intros [[k v'] [-> Hin]]. by exists k.
  - intros [k Hin]. by exists (k, v).
Qed.

End Facts.

(** *** First-seen order *)

Lemma first_seen_from_ext (s1 s2 l : list string) :
  (forall y, y ∈ s1 <-> y ∈ s2) ->
  first_seen_from s1 l = first_seen_from s2 l.
Proof.
  revert s1 s2. induction l as [|x l IH]; intros s1 s2 Hs; simpl; [done|].
  rewrite (bool_decide_ext _ _ (Hs x)). case_bool_decide.
  - by apply IH.
  - f_equal. apply IH. intros y. rewrite !elem_of_cons. naive_solver.
Qed.

Lemma first_seen_from_elem (seen l : list string) (x : string) :
  x ∈ first_seen_from seen l <-> x ∈ l /\ x ∉ seen.
Proof.
  revert seen. induction l as [|y l IH]; intros seen; simpl.
  - rewrite elem_of_nil. naive_solver.
  - case_bool_decide as Hy.
    + rewrite IH, elem_of_cons. naive_solver.
    + rewrite !elem_of_cons, IH, not_elem_of_cons.
      destruct (decide (x = y)); naive_solver.
Qed.

Lemma first_seen_from_NoDup (seen l : list string) :
  NoDup (first_seen_from seen l).
Proof.
  revert seen. induction l as [|y l IH]; intros seen; simpl.
  - apply NoDup_nil_2.
  - case_bool_decide; [done|]. apply NoDup_cons. split; [|done].
    rewrite first_seen_from_elem, not_elem_of_cons. naive_solver.
Qed.

Lemma first_seen_from_sublist (seen l : list string) :
  sublist (first_seen_from seen l) l.
Proof.
  revert seen. induction l as [|y l IH]; intros seen; simpl; [done|].
  case_bool_decide; [by apply sublist_cons | by apply sublist_skip].
Qed.

Lemma first_seen_from_app (seen a b : list string) :
  first_seen_from seen (a ++ b)
  = first_seen_from seen a ++ first_seen_from (a ++ seen) b.
Proof.
  revert seen. induction a as [|x a IH]; intros seen; simpl; [done|].
  case_bool_decide as Hx.
  - rewrite IH. f_equal. apply first_seen_from_ext.
    intros y. rewrite !elem_of_app, !elem_of_cons, !elem_of_app.
    naive_solver.
  - simpl. rewrite IH. do 2 f_equal. apply first_seen_from_ext.
    intros y. rewrite !elem_of_app, !elem_of_cons, !elem_of_app.
    naive_solver.
Qed.

Lemma first_seen_from_id (seen l : list string) :
  NoDup l -> (forall x, x ∈ l -> x ∉ seen) -> first_seen_from seen l = l.
Proof.
  revert seen. induction l as [|x l IH]; intros seen Hnd Hdis; simpl; [done|].
  apply NoDup_cons in Hnd as [Hx Hnd].
  rewrite bool_decide_eq_false_2 by (apply Hdis; left).
  f_equal. apply IH; [done|]. intros y Hy. rewrite not_elem_of_cons.
  split; [by intros -> | apply Hdis; by right].
Qed.

(** [dict.fromkeys], from any dictionary to start with. *)
Lemma keys_fromkeys_from {V} (v : V) (l : list string) (d : ODict.t V) :
  keys (fold_left (fun d k => set k v d) l d)
  = keys d ++ first_seen_from (keys d) l.
Proof.
  revert d. induction l as [|x l IH]; intros d; simpl.
  - by rewrite app_nil_r.
  - rewrite IH, keys_set. case_bool_decide as Hx; [done|].
    rewrite <- app_assoc. simpl. do 2 f_equal.
    apply first_seen_from_ext. intros y. set_solver.
Qed.

(** [list(dict.fromkeys(l))] is [l] in first-seen order. *)
Lemma unique_in_order_first_seen (l : list string) :
  unique_in_order l = first_seen l.
Proof. apply (keys_fromkeys_from () l []). Qed.

End ODictFacts.

(** The eight ways through the three tests of [merge_existing]. *)
Ltac merge_existing_cases e p :=
  unfold merge_existing; cbv zeta;
  destruct (PyStr.str_in (source p) (source e)); simpl;
  destruct (negb (truthy (pmid e)) && truthy (pmid p)); simpl;
  destruct (negb (truthy (abstract e)) && truthy (abstract p)); simpl.

(** ** The union of tag lists *)

Section TagUnion.
Import ODictFacts.

Lemma merged_types_is_union (old new : list string) :
  is_tag_union old new (merged_types old new).
Proof.
  unfold merged_types.
  destruct (list_truthy old || list_truthy new) eqn:Hne; simpl.
  - rewrite unique_in_order_first_seen. unfold first_seen.
    assert (first_seen_from [] (old ++ new)
            = first_seen_from [] old ++ first_seen_from old new) as Heq.
    { rewrite first_seen_from_app. f_equal.
      apply first_seen_from_ext. intros y. by rewrite app_nil_r. }
    split_and!.
    + destruct old, new; simpl in Hne; auto; discriminate.
    + apply first_seen_from_NoDup.
    + done.
    + intros x. rewrite first_seen_from_elem, elem_of_app.
      pose proof (not_elem_of_nil x). naive_solver.
    + apply first_seen_from_sublist.
    + intros Hnd. rewrite Heq. f_equal.
      apply first_seen_from_id; [done|]. intros x _. apply not_elem_of_nil.
  - by destruct old, new.
Qed.

Lemma pub_types_merge_existing (existing p : paper) :
  pub_types (merge_existing existing p)
  = merged_types (or_list (pub_types existing)) (or_list (pub_types p)).
Proof. by merge_existing_cases existing p. Qed.

Lemma pub_types_enrich_paper info_map (p : paper) id info :
  pmid p = Some id -> PyStr.nonempty id = true ->
  info_map !! id = Some info ->
  pub_types (enrich_paper info_map p)
  = merged_types (or_list (pub_types p)) (or_list (info_pub_types info)).
Proof.
  intros Hid Hne Hinfo. unfold enrich_paper.
  rewrite Hid, Hne, Hinfo. by destruct (truthy (info_abstract info)).
Qed.

(** C8. After a merge of two duplicate records, and after an enrichment
    union, [pub_types] has no repeated tag and keeps first-seen order: the
    tags of the earlier record, then the later tags not yet present.
    A [None] operand counts as the empty list, and the result is [None]
    when both operands are empty. *)
Theorem pub_types_union_first_seen :
  (forall existing p : paper,
      is_tag_union (or_list (pub_types existing)) (or_list (pub_types p))
                   (pub_types (merge_existing existing p)))
  /\ (forall (info_map : gmap string pubmed_info) (p : paper) id info,
        pmid p = Some id -> PyStr.nonempty id = true ->
        info_map !! id = Some info ->
        is_tag_union (or_list (pub_types p)) (or_list (info_pub_types info))
                     (pub_types (enrich_paper info_map p)))
  /\ or_list None = [].
Proof.
  split_and!.
  - intros existing p. rewrite pub_types_merge_existing.
    apply merged_types_is_union.
  - intros info_map p id info Hid Hne Hinfo.
    rewrite (pub_types_enrich_paper _ _ _ _ Hid Hne Hinfo).
    apply merged_types_is_union.
  - done.
Qed.

End TagUnion.

(** ** The dedup loop *)

Section DedupFacts.
Import PyStr PyStrFacts ODict ODictFacts.

Variable on_collision : paper -> paper -> paper.

(** One iteration touches the entry of one key only. *)
Lemma get_dedup_step (k : string) (merged : ODict.t paper) (p : paper) :
  get k (dedup_step on_collision merged p)
  = if has_key k p then collide on_collision (get k merged) p
    else get k merged.
Proof.
  unfold dedup_step, has_key. case_bool_decide as Hk.
  - subst k. destruct (get (dedup_key p) merged); simpl;
      by rewrite get_set_eq.
  - destruct (get (dedup_key p) merged); by rewrite get_set_ne.
Qed.

(** The entry of a key is made by the records that carry this key, in
    the order they come. *)
Lemma get_dedup_fold (k : string) (l : list paper) (merged : ODict.t paper) :
  get k (fold_left (dedup_step on_collision) l merged)
  = fold_left (collide on_collision) (List.filter (has_key k) l)
              (get k merged).
Proof.
  revert merged. induction l as [|p l IH]; intros merged; simpl; [done|].
  rewrite IH, get_dedup_step. by destruct (has_key k p).
Qed.

Lemma keys_dedup_step (merged : ODict.t paper) (p : paper) :
  keys (dedup_step on_collision merged p)
  = if bool_decide (dedup_key p ∈ keys merged) then keys merged
    else keys merged ++ [dedup_key p].
Proof.
  unfold dedup_step. destruct (get _ merged); apply keys_set.
Qed.

Lemma keys_dedup_fold (l : list paper) (merged : ODict.t paper) :
  keys (fold_left (dedup_step on_collision) l merged)
  = keys merged ++ first_seen_from (keys merged) (map dedup_key l).
Proof.
  revert merged. induction l as [|p l IH]; intros merged; simpl.
  - by rewrite app_nil_r.
  - rewrite IH, keys_dedup_step. case_bool_decide as Hp; [done|].
    rewrite <- app_assoc. simpl. do 2 f_equal.
    apply first_seen_from_ext. intros y. set_solver.
Qed.

(** The keys of the mapping are the dedup keys of the records, each once,
    in the order of first appearance. *)
Lemma keys_dedup_loop (l : list paper) :
  keys (dedup_loop on_collision l) = first_seen (map dedup_key l).
Proof. apply (keys_dedup_fold l []). Qed.

Lemma keys_dedup_loop_NoDup (l : list paper) :
  NoDup (keys (dedup_loop on_collision l)).
Proof. rewrite keys_dedup_loop. apply first_seen_from_NoDup. Qed.

(** A property of the stored records that new records have and that a
    collision keeps. *)
Lemma dedup_loop_Forall (P Q : paper -> Prop) (l : list paper) :
  Forall Q l ->
  (forall p, Q p -> P p) ->
  (forall e p, P e -> Q p -> P (on_collision e p)) ->
  forall k e, (k, e) ∈ dedup_loop on_collision l -> P e.
Proof.
  intros HQ HQP Hupd. unfold dedup_loop.
  assert (forall k e, (k, e) ∈ ([] : ODict.t paper) -> P e) as Hinit
    by (by intros k e ?%elem_of_nil).
  revert Hinit. generalize ([] : ODict.t paper) as merged.
  induction HQ as [|p l Hp HQ IH]; intros merged Hinv; simpl; [done|].
  apply IH. intros k e Hin.
  assert (forall v, P v -> (k, e) ∈ set (dedup_key p) v merged -> P e) as Hset.
  { clear Hin. intros v Hv. generalize (dedup_key p) as k'. intros k'.
    induction merged as [|[k0 v0] merged IHm]; simpl.
    - by intros [= -> ->]%list_elem_of_singleton.
    - destruct (String.eqb k0 k').
      + intros [[= -> ->]|Hin]%elem_of_cons; [done|].
        apply (Hinv k e). by right.
      + intros [[= -> ->]|Hin]%elem_of_cons.
        * apply (Hinv k0 v0). left.
        * apply IHm; [|done]. intros k1 e1 Hin1. apply (Hinv k1 e1).
          by right. }
  unfold dedup_step in Hin.
  destruct (get (dedup_key p) merged) as [existing|] eqn:Hget.
  - apply (Hset (on_collision existing p)); [|done].
    apply Hupd; [|done]. apply (Hinv (dedup_key p)).
    by apply get_Some_elem.
  - apply (Hset p); [by apply HQP | done].
Qed.

(** What is known of the collision: it adds the provider name unless the
    name already occurs in [source], and it leaves the identity alone. *)
Hypothesis on_collision_source : forall e p,
  source (on_collision e p)
  = if str_in (source p) (source e) then source e
    else source e +:+ "+" +:+ source p.

Hypothesis on_collision_key : forall e p,
  dedup_key (on_collision e p) = dedup_key e.

Lemma dedup_loop_key (l : list paper) (k : string) (e : paper) :
  (k, e) ∈ dedup_loop on_collision l -> dedup_key e = k.
Proof.
  revert k e. unfold dedup_loop.
  assert (forall k e, (k, e) ∈ ([] : ODict.t paper) -> dedup_key e = k)
    as Hinit by (by intros k e ?%elem_of_nil).
  revert Hinit. generalize ([] : ODict.t paper) as merged.
  induction l as [|p l IH]; intros merged Hinv; simpl; [done|].
  apply IH. intros k e Hin.
  assert (forall v, dedup_key v = dedup_key p ->
            (k, e) ∈ set (dedup_key p) v merged -> dedup_key e = k) as Hset.
  { clear Hin. intros v Hv.
    induction merged as [|[k0 v0] merged IHm]; simpl.
    - by intros [= -> ->]%list_elem_of_singleton.
    - destruct (String.eqb k0 (dedup_key p)).
      + intros [[= -> ->]|Hin]%elem_of_cons; [done|].
        apply (Hinv k e). by right.
      + intros [[= -> ->]|Hin]%elem_of_cons.
        * apply (Hinv k0 v0). left.
        * apply IHm; [|done]. intros k1 e1 Hin1. apply (Hinv k1 e1).
          by right. }
  unfold dedup_step in Hin.
  destruct (get (dedup_key p) merged) as [existing|] eqn:Hget.
  - apply (Hset (on_collision existing p)); [|done].
    rewrite on_collision_key. apply (Hinv (dedup_key p)).
    by apply get_Some_elem.
  - by apply (Hset p).
Qed.

(** Records whose provider name already occurs in [source] leave it as
    it is. *)
Lemma collide_known_source (name : string) (l : list paper) (e0 : paper) :
  Forall (fun p => str_in (source p) name = true) l ->
  source e0 = name ->
  exists e, fold_left (collide on_collision) l (Some e0) = Some e
            /\ source e = name.
Proof.
  intros Hl. revert e0. induction Hl as [|p l Hp Hl IH]; intros e0 He0; simpl.
  - by exists e0.
  - apply IH. by rewrite on_collision_source, He0, Hp.
Qed.

(** A first record of another provider adds that provider's name. *)
Lemma collide_new_source (nA nB : string) (l : list paper) (e0 : paper) :
  str_in nB nA = false ->
  l <> [] ->
  Forall (fun p => source p = nB) l ->
  source e0 = nA ->
  exists e, fold_left (collide on_collision) l (Some e0) = Some e
            /\ source e = nA +:+ "+" +:+ nB.
Proof.
  intros HnB Hne Hl He0. destruct l as [|p l]; [done|].
  apply Forall_cons in Hl as [Hp Hl]. simpl.
  apply collide_known_source.
  - eapply Forall_impl; [exact Hl|]. intros q ->. simpl.
    rewrite <- append_assoc. apply str_in_app_r.
  - by rewrite on_collision_source, He0, Hp, HnB.
Qed.

(** A key that some record of [l] carries owns exactly one entry. *)
Lemma dedup_loop_one_entry (l : list paper) (k : string) (e : paper) :
  get k (dedup_loop on_collision l) = Some e ->
  entries_for k (dedup_loop on_collision l) = [(k, e)].
Proof. apply entries_for_get, keys_dedup_loop_NoDup. Qed.

(** Same key, same provider: one entry, [source] as it was. *)
Lemma dedup_loop_same_source (r : paper) (l : list paper) :
  r ∈ l ->
  (forall p, p ∈ l -> dedup_key p = dedup_key r -> source p = source r) ->
  exists e, entries_for (dedup_key r) (dedup_loop on_collision l)
            = [(dedup_key r, e)]
            /\ source e = source r.
Proof.
  intros Hr Hsame.
  assert (exists e, get (dedup_key r) (dedup_loop on_collision l) = Some e
                    /\ source e = source r) as (e & Hget & He).
  { unfold dedup_loop. rewrite get_dedup_fold. simpl.
    assert (Forall (fun p => source p = source r)
                   (List.filter (has_key (dedup_key r)) l)) as Hall.
    { apply Forall_forall. intros p [Hin Hk]%list_elem_of_In%filter_In.
      apply Hsame; [by apply list_elem_of_In|].
      by apply bool_decide_eq_true_1 in Hk. }
    assert (List.filter (has_key (dedup_key r)) l <> []) as Hne.
    { intros Hnil. assert (In r (List.filter (has_key (dedup_key r)) l)) as Hin.
      { apply filter_In. split; [by apply list_elem_of_In|].
        by apply bool_decide_eq_true_2. }
      by rewrite Hnil in Hin. }
    destruct (List.filter (has_key (dedup_key r)) l) as [|p f]; [done|].
    apply Forall_cons in Hall as [Hp Hall]. simpl.
    apply collide_known_source; [|done].
    eapply Forall_impl; [exact Hall|]. intros q ->. auto with pystr. }
  exists e. split; [|done]. by apply dedup_loop_one_entry.
Qed.

(** A key carried by a record of each provider: one entry, named after
    both providers, first provider first. *)
Lemma dedup_loop_both_sources (nA nB : string) (a b : list paper)
    (k : string) :
  str_in nB nA = false ->
  Forall (fun p => source p = nA) a ->
  Forall (fun p => source p = nB) b ->
  (exists rA, rA ∈ a /\ dedup_key rA = k) ->
  (exists rB, rB ∈ b /\ dedup_key rB = k) ->
  exists e, entries_for k (dedup_loop on_collision (a ++ b)) = [(k, e)]
            /\ source e = nA +:+ "+" +:+ nB.
Proof.
  intros HnB Ha Hb (rA & HrA & HkA) (rB & HrB & HkB).
  assert (forall (l : list paper) (n : string) r,
            Forall (fun p => source p = n) l -> r ∈ l -> dedup_key r = k ->
            List.filter (has_key k) l <> []
            /\ Forall (fun p => source p = n) (List.filter (has_key k) l))
    as Hfilter.
  { intros l n r Hl Hr Hk. split.
    - intros Hnil. assert (In r (List.filter (has_key k) l)) as Hin.
      { apply filter_In. split; [by apply list_elem_of_In|].
        by apply bool_decide_eq_true_2. }
      by rewrite Hnil in Hin.
    - apply Forall_forall. intros p [Hin _]%list_elem_of_In%filter_In.
      rewrite Forall_forall in Hl. by apply Hl, list_elem_of_In. }
  destruct (Hfilter a nA rA Ha HrA HkA) as [HneA HallA].
  destruct (Hfilter b nB rB Hb HrB HkB) as [HneB HallB].
  assert (exists e, get k (dedup_loop on_collision (a ++ b)) = Some e
                    /\ source e = nA +:+ "+" +:+ nB) as (e & Hget & He).
  { unfold dedup_loop. rewrite get_dedup_fold, List.filter_app, fold_left_app.
    simpl.
    destruct (List.filter (has_key k) a) as [|p fa]; [done|].
    apply Forall_cons in HallA as [Hp HallA]. simpl.
    destruct (collide_known_source nA fa p) as (eA & -> & HeA); [|done|].
    { eapply Forall_impl; [exact HallA|]. intros q ->. auto with pystr. }
    by apply collide_new_source. }
  exists e. split; [|done]. by apply dedup_loop_one_entry.
Qed.

End DedupFacts.

(** ** The merger *)

Section Merger.
Import PyStr PyStrFacts ODict ODictFacts.

Lemma merge_existing_source (e p : paper) :
  source (merge_existing e p)
  = if str_in (source p) (source e) then source e
    else source e +:+ "+" +:+ source p.
Proof. by merge_existing_cases e p. Qed.

Lemma merge_existing_v1_source (e p : paper) :
  source (merge_existing_v1 e p)
  = if str_in (source p) (source e) then source e
    else source e +:+ "+" +:+ source p.
Proof.
  unfold merge_existing_v1. by destruct (str_in (source p) (source e)).
Qed.

Lemma merge_existing_key (e p : paper) :
  dedup_key (merge_existing e p) = dedup_key e.
Proof. by merge_existing_cases e p. Qed.

Lemma merge_existing_v1_key (e p : paper) :
  dedup_key (merge_existing_v1 e p) = dedup_key e.
Proof.
  unfold merge_existing_v1. by destruct (negb (str_in _ _)).
Qed.

Lemma dedup_key_doi (p : paper) (d : string) :
  doi p = Some d -> d <> EmptyString -> d <> "(no DOI)" ->
  dedup_key p = lower d.
Proof.
  intros Hd Hne Hsent. unfold dedup_key. rewrite Hd.
  rewrite (proj2 (nonempty_true d) Hne).
  by rewrite (proj2 (String.eqb_neq d "(no DOI)") Hsent).
Qed.

Lemma dedup_key_title_year (p : paper) :
  doi p = None \/ doi p = Some EmptyString \/ doi p = Some "(no DOI)" ->
  dedup_key p = lower (title p) +:+ "_" +:+ year p.
Proof. unfold dedup_key. by intros [-> | [-> | ->]]. Qed.

(** C1. The merge files each record under [doi.lower()] when its DOI is
    present and not the sentinel "(no DOI)", and under
    "{title.lower()}_{year}" otherwise: the keys of the mapping are these
    keys in first-seen order, and every entry still has the key it is
    filed under. Two records whose DOIs differ in letter case only, one
    from each provider, end up as exactly one entry, whose [source] is the
    first provider's name, "+", and the second provider's name. *)
Theorem merge_keys_and_joins_sources :
  (forall (p : paper) (d : string),
      doi p = Some d -> d <> EmptyString -> d <> "(no DOI)" ->
      dedup_key p = lower d)
  /\ (forall p : paper,
        doi p = None \/ doi p = Some EmptyString \/ doi p = Some "(no DOI)" ->
        dedup_key p = lower (title p) +:+ "_" +:+ year p)
  /\ (forall merge_fn, merge_fn = merge \/ merge_fn = merge_v1 ->
      forall a b : list paper,
        keys (merge_fn a b) = first_seen (map dedup_key (a ++ b))
        /\ (forall k e, (k, e) ∈ merge_fn a b -> dedup_key e = k)
        /\ (forall (nA nB : string) (rA rB : paper) (dA dB : string),
              str_in nB nA = false ->
              Forall (fun p => source p = nA) a ->
              Forall (fun p => source p = nB) b ->
              rA ∈ a -> rB ∈ b ->
              doi rA = Some dA -> dA <> EmptyString -> dA <> "(no DOI)" ->
              doi rB = Some dB -> dB <> EmptyString -> dB <> "(no DOI)" ->
              lower dA = lower dB ->
              exists e,
                entries_for (lower dA) (merge_fn a b) = [(lower dA, e)]
                /\ source e = nA +:+ "+" +:+ nB)).
Proof.
  split_and!; [apply dedup_key_doi | apply dedup_key_title_year |].
  assert (forall f,
    (forall e p, source (f e p)
                 = if str_in (source p) (source e) then source e
                   else source e +:+ "+" +:+ source p) ->
    (forall e p, dedup_key (f e p) = dedup_key e) ->
    forall a b : list paper,
      keys (dedup_loop f (a ++ b)) = first_seen (map dedup_key (a ++ b))
      /\ (forall k e, (k, e) ∈ dedup_loop f (a ++ b) -> dedup_key e = k)
      /\ (forall (nA nB : string) (rA rB : paper) (dA dB : string),
            str_in nB nA = false ->
            Forall (fun p => source p = nA) a ->
            Forall (fun p => source p = nB) b ->
            rA ∈ a -> rB ∈ b ->
            doi rA = Some dA -> dA <> EmptyString -> dA <> "(no DOI)" ->
            doi rB = Some dB -> dB <> EmptyString -> dB <> "(no DOI)" ->
            lower dA = lower dB ->
            exists e,
              entries_for (lower dA) (dedup_loop f (a ++ b))
              = [(lower dA, e)]
              /\ source e = nA +:+ "+" +:+ nB)) as Hgen.
  { intros f Hsrc Hkey a b. split_and!.
    - apply keys_dedup_loop.
    - intros k e. by apply dedup_loop_key.
    - intros nA nB rA rB dA dB HnB Ha Hb HrA HrB HdA ? ? HdB ? ? Hlow.
      apply (dedup_loop_both_sources f Hsrc nA nB); [done..| |].
      + exists rA. split; [done|]. by apply dedup_key_doi.
      + exists rB. split; [done|]. rewrite Hlow. by apply dedup_key_doi. }
  intros merge_fn [-> | ->] a b.
  - apply (Hgen merge_existing merge_existing_source merge_existing_key).
  - apply (Hgen merge_existing_v1 merge_existing_v1_source
                merge_existing_v1_key).
Qed.

Lemma merge_keys_and_joins_sources_witness :
  exists e, entries_for "10.1/x" (merge [Sample.from_a] [Sample.from_b])
            = [("10.1/x", e)]
            /\ source e = "Crossref+PubMed".
Proof.
  apply (proj2 (proj2 (proj2 (proj2 merge_keys_and_joins_sources) merge
                               (or_introl eq_refl)
                               [Sample.from_a] [Sample.from_b]))
           "Crossref" "PubMed" Sample.from_a Sample.from_b "10.1/x" "10.1/X");
    try reflexivity; try discriminate;
    try (repeat constructor).
Defined.

(** C5. Merging is idempotent on the dedup key: when the records filed
    under the key of [r] all have the provider source of [r] (as when [r]
    itself occurs twice), the key owns exactly one entry and its [source]
    is that of [r]. No "+provider" is appended when the provider name
    already occurs in [source]. *)
Theorem merge_idempotent_on_key :
  (forall merge_fn, merge_fn = merge \/ merge_fn = merge_v1 ->
   forall (r : paper) (a b : list paper),
     r ∈ a ++ b ->
     Forall (fun p => dedup_key p = dedup_key r -> source p = source r)
            (a ++ b) ->
     exists e,
       entries_for (dedup_key r) (merge_fn a b) = [(dedup_key r, e)]
       /\ source e = source r)
  /\ (forall e p : paper,
        str_in (source p) (source e) = true ->
        source (merge_existing e p) = source e
        /\ source (merge_existing_v1 e p) = source e).
Proof.
  split.
  - intros merge_fn Hfn r a b Hr Hsame.
    rewrite Forall_forall in Hsame.
    destruct Hfn as [-> | ->].
    + by apply (dedup_loop_same_source merge_existing merge_existing_source).
    + by apply (dedup_loop_same_source merge_existing_v1
                  merge_existing_v1_source).
  - intros e p Hin.
    by rewrite merge_existing_source, merge_existing_v1_source, Hin.
Qed.

Lemma merge_idempotent_on_key_witness :
  exists e,
    entries_for "10.1/x" (merge [Sample.from_a; Sample.other] [Sample.from_a])
    = [("10.1/x", e)]
    /\ source e = "Crossref".
Proof.
  apply (proj1 merge_idempotent_on_key merge (or_introl eq_refl)
           Sample.from_a [Sample.from_a; Sample.other] [Sample.from_a]).
  - left.
  - repeat constructor.
Defined.

End Merger.

(** ** Sorting and slicing *)

Module PyListFacts.
Import PyList.

Section SortFacts.
Context {A : Type} (le : A -> A -> bool).

Lemma insert_perm (x : A) (l : list A) : insert le x l ≡ₚ x :: l.
Proof.
  induction l as [|y l IH]; simpl; [done|].
  destruct (le x y); [done|]. rewrite IH. apply Permutation_swap.
Qed.

Lemma sort_perm (l : list A) : sort le l ≡ₚ l.
Proof.
  induction l as [|x l IH]; simpl; [done|].
  by rewrite insert_perm, IH.
Qed.

Lemma sort_length (l : list A) : length (sort le l) = length l.
Proof. apply Permutation_length, sort_perm. Qed.

(** An item goes in front of the first one it is [le] to, so it does
    not overtake an item it ties with. *)
Lemma filter_insert (P : A -> bool) (x : A) (l : list A) :
  (forall y, P x = true -> P y = true -> le x y = true) ->
  List.filter P (insert le x l)
  = if P x then x :: List.filter P l else List.filter P l.
Proof.
  intros Htie. induction l as [|y l IH]; simpl; [done|].
  destruct (le x y) eqn:Hxy; simpl; [done|].
  rewrite IH. destruct (P y) eqn:Hy; [|done].
  destruct (P x) eqn:Hx; [|done].
  rewrite Htie in Hxy; done.
Qed.

(** Stability: the items of a class whose members tie pairwise keep
    their order. *)
Lemma sort_stable (P : A -> bool) (l : list A) :
  (forall x y, P x = true -> P y = true -> le x y = true) ->
  List.filter P (sort le l) = List.filter P l.
Proof.
  intros Htie. induction l as [|x l IH]; simpl; [done|].
  rewrite filter_insert by (intros y; apply Htie).
  by rewrite IH.
Qed.

Hypothesis le_total : forall x y, le x y = true \/ le y x = true.
Hypothesis le_trans : forall x y z,
  le x y = true -> le y z = true -> le x z = true.

Lemma insert_sorted (x : A) (l : list A) :
  StronglySorted (fun a b => le a b = true) l ->
  StronglySorted (fun a b => le a b = true) (insert le x l).
Proof.
  induction 1 as [|y l Hl IH Hy]; simpl.
  - repeat constructor.
  - destruct (le x y) eqn:Hxy.
    + constructor; [by constructor|].
      constructor; [done|].
      eapply Forall_impl; [exact Hy|]. intros z Hz. by eapply le_trans.
    + constructor; [done|].
      rewrite insert_perm. constructor; [|done].
      destruct (le_total x y); congruence.
Qed.

Lemma sort_sorted (l : list A) :
  StronglySorted (fun a b => le a b = true) (sort le l).
Proof.
  induction l as [|x l IH]; simpl; [constructor | by apply insert_sorted].
Qed.

End SortFacts.

Lemma StronglySorted_weaken {A} (R1 R2 : A -> A -> Prop) (l : list A) :
  (forall x y, R1 x y -> R2 x y) ->
  StronglySorted R1 l -> StronglySorted R2 l.
Proof.
  intros HR. induction 1 as [|x l Hl IH Hx]; constructor; [done|].
  eapply Forall_impl; [exact Hx | auto].
Qed.

(** Sorting commutes with a map that respects the order. *)
Lemma sort_map {A B} (leA : A -> A -> bool) (leB : B -> B -> bool)
    (f : A -> B) (l : list A) :
  (forall a b, leB (f a) (f b) = leA a b) ->
  map f (sort leA l) = sort leB (map f l).
Proof.
  intros Hf. induction l as [|x l IH]; simpl; [done|].
  rewrite <- IH. generalize (sort leA l) as s. intros s.
  induction s as [|y s IHs]; simpl; [done|].
  rewrite Hf. destruct (leA x y); simpl; [done | by rewrite IHs].
Qed.

Lemma sort_ext {A} (le1 le2 : A -> A -> bool) (l : list A) :
  (forall a b, le1 a b = le2 a b) -> sort le1 l = sort le2 l.
Proof.
  intros Hle. induction l as [|x l IH]; simpl; [done|].
  rewrite IH. generalize (sort le2 l) as s. intros s.
  induction s as [|y s IHs]; simpl; [done|].
  rewrite Hle. destruct (le2 x y); [done | by rewrite IHs].
Qed.

(** A stable sort has one possible result: two sorted lists that agree on
    every class of tying items are equal. So [sort] returns what
    [list.sort] returns, whatever algorithm the latter runs. *)
Lemma stable_sorted_unique {A K} `{EqDecision K} (key : A -> K)
    (kle : K -> K -> Prop) (l1 l2 : list A) :
  (forall a b, kle a b -> kle b a -> a = b) ->
  StronglySorted (fun x y => kle (key x) (key y)) l1 ->
  StronglySorted (fun x y => kle (key x) (key y)) l2 ->
  (forall k, List.filter (fun x => bool_decide (key x = k)) l1
             = List.filter (fun x => bool_decide (key x = k)) l2) ->
  l1 = l2.
Proof.
  intros Hanti Hs1. revert l2.
  induction Hs1 as [|x l1 Hs1 IH Hx]; intros l2 Hs2 Hcls.
  - destruct l2 as [|y l2]; [done|].
    specialize (Hcls (key y)). simpl in Hcls.
    by rewrite bool_decide_eq_true_2 in Hcls.
  - destruct Hs2 as [|y l2 Hs2 Hy].
    + specialize (Hcls (key x)). simpl in Hcls.
      by rewrite bool_decide_eq_true_2 in Hcls.
    + assert (key x = key y) as Hk.
      { destruct (decide (key x = key y)) as [|Hne]; [done|]. apply Hanti.
        - pose proof (Hcls (key y)) as Hc. simpl in Hc.
          rewrite (bool_decide_eq_true_2 (key y = key y)) in Hc by done.
          rewrite (bool_decide_eq_false_2 (key x = key y)) in Hc by done.
          assert (In y (List.filter
                          (fun x => bool_decide (key x = key y)) l1)) as Hin
            by (rewrite Hc; left; done).
          apply filter_In in Hin as [Hin _].
          rewrite Forall_forall in Hx. by apply Hx, list_elem_of_In.
        - pose proof (Hcls (key x)) as Hc. simpl in Hc.
          rewrite (bool_decide_eq_true_2 (key x = key x)) in Hc by done.
          rewrite (bool_decide_eq_false_2 (key y = key x)) in Hc by done.
          assert (In x (List.filter
                          (fun x0 => bool_decide (key x0 = key x)) l2)) as Hin
            by (rewrite <- Hc; left; done).
          apply filter_In in Hin as [Hin _].
          rewrite Forall_forall in Hy. by apply Hy, list_elem_of_In. }
      pose proof (Hcls (key x)) as Hc. simpl in Hc.
      rewrite (bool_decide_eq_true_2 (key x = key x)) in Hc by done.
      rewrite (bool_decide_eq_true_2 (key y = key x)) in Hc by done.
      injection Hc as -> Hc. f_equal. apply IH; [done|].
      intros k. specialize (Hcls k). simpl in Hcls.
      destruct (bool_decide (key y = k)); [by injection Hcls | done].
Qed.

(** *** Slices *)

Lemma slice_to_nonneg {A} (n : Z) (l : list A) :
  0 <= n -> slice_to n l = take (Z.to_nat n) l.
Proof. intros Hn. unfold slice_to. by rewrite (proj2 (Z.leb_le 0 n)). Qed.

Lemma slice_to_neg {A} (n : Z) (l : list A) :
  n < 0 -> slice_to n l = take (length l - Z.to_nat (- n)) l.
Proof.
  intros Hn. unfold slice_to. rewrite (proj2 (Z.leb_gt 0 n)) by done.
  f_equal. lia.
Qed.

Lemma slice_to_length {A} (n : Z) (l : list A) :
  Z.of_nat (length (slice_to n l))
  = if 0 <=? n then Z.min n (Z.of_nat (length l))
    else Z.max 0 (Z.of_nat (length l) + n).
Proof.
  unfold slice_to. destruct (0 <=? n) eqn:Hn; rewrite length_take.
  - apply Z.leb_le in Hn. lia.
  - apply Z.leb_gt in Hn. lia.
Qed.

Lemma slice_to_all {A} (n : Z) (l : list A) :
  Z.of_nat (length l) <= n -> slice_to n l = l.
Proof.
  intros Hn. rewrite slice_to_nonneg by lia. apply take_ge. lia.
Qed.

Lemma slice_to_map {A B} (f : A -> B) (n : Z) (l : list A) :
  map f (slice_to n l) = slice_to n (map f l).
Proof.
  unfold slice_to. rewrite length_map.
  destruct (0 <=? n); apply (fmap_take f).
Qed.

End PyListFacts.

(** ** The ranker *)

Section Ranker.
Import PyStr PyList PyListFacts ODict ODictFacts.

Lemma tuple_le_spec (a b : Z * Z) :
  tuple_le a b = true <-> a.1 < b.1 \/ (a.1 = b.1 /\ a.2 <= b.2).
Proof.
  unfold tuple_le.
  rewrite orb_true_iff, andb_true_iff, Z.ltb_lt, Z.eqb_eq, Z.leb_le. done.
Qed.

Lemma rank_le_spec (q : string) (p1 p2 : paper) :
  rank_le q p1 p2 = true <-> ranks_before q p1 p2.
Proof.
  unfold rank_le, ranks_before. rewrite tuple_le_spec. simpl. lia.
Qed.

Lemma rank_le_total (q : string) (p1 p2 : paper) :
  rank_le q p1 p2 = true \/ rank_le q p2 p1 = true.
Proof. rewrite !rank_le_spec. unfold ranks_before. lia. Qed.

Lemma rank_le_trans (q : string) (p1 p2 p3 : paper) :
  rank_le q p1 p2 = true -> rank_le q p2 p3 = true ->
  rank_le q p1 p3 = true.
Proof. rewrite !rank_le_spec. unfold ranks_before. lia. Qed.

(** The ranking is the stable sort of the stored records, cut. *)
Lemma rank_as_sort (merged : ODict.t paper) (q : string) (top_n : Z) :
  rank merged q top_n
  = slice_to top_n (sort (rank_le q) (values merged)).
Proof.
  unfold rank, scored_list. rewrite slice_to_map. f_equal.
  rewrite <- (sort_map (rank_le q)) by done.
  rewrite map_map. apply map_id.
Qed.

Lemma rank_full (merged : ODict.t paper) (q : string) :
  rank merged q (Z.of_nat (length merged))
  = sort (rank_le q) (values merged).
Proof.
  rewrite rank_as_sort. apply slice_to_all.
  unfold values. rewrite sort_length, length_map. lia.
Qed.

Lemma merge_and_score_rank (a b : list paper) (q : string) (top_n : Z) :
  merge_and_score a b q top_n = rank (merge a b) q top_n.
Proof.
  unfold merge_and_score, merge. destruct (a ++ b) eqn:Hab; [|done].
  rewrite rank_as_sort. unfold slice_to. simpl.
  destruct (0 <=? top_n); by rewrite take_nil.
Qed.

(** Whatever stable sort [list.sort] runs, it returns this ranking: a list
    in ranking order that keeps every class of equal keys as the mapping
    has it is the full ranking. *)
Lemma rank_is_the_stable_sort (merged : ODict.t paper) (q : string)
    (l : list paper) :
  StronglySorted (ranks_before q) l ->
  (forall k, List.filter (same_key q k) l
             = List.filter (same_key q k) (values merged)) ->
  l = rank merged q (Z.of_nat (length merged)).
Proof.
  intros Hsorted Hcls. rewrite rank_full.
  apply (stable_sorted_unique (key_of q)
           (fun a b => a.1 > b.1 \/ (a.1 = b.1 /\ a.2 >= b.2))).
  - intros [a1 a2] [b1 b2]; simpl. intros ? ?. f_equal; lia.
  - exact Hsorted.
  - eapply StronglySorted_weaken; [|apply sort_sorted].
    + intros x y. apply rank_le_spec.
    + apply rank_le_total.
    + apply rank_le_trans.
  - intros k. etrans; [apply (Hcls k)|].
    symmetry. apply (sort_stable _ (same_key q k)).
    intros x y Hx Hy. apply bool_decide_eq_true_1 in Hx, Hy.
    apply rank_le_spec. unfold ranks_before. rewrite Hx, Hy. lia.
Qed.

Example slice_to_samples :
  slice_to 2 [1; 2; 3] = [1; 2] /\ slice_to 7 [1; 2; 3] = [1; 2; 3]
  /\ slice_to (-1) [1; 2; 3] = [1; 2] /\ slice_to (-5) [1; 2; 3] = [].
Proof. done. Qed.

Lemma safe_year_unparsed (y : string) :
  py_int y = None -> safe_year_to_int y = 0.
Proof. unfold safe_year_to_int. by intros ->. Qed.

(** C3. The ranking orders the stored records by score, highest first,
    then by year, newest first; a year that [int] does not parse, as the
    sentinel "(n.d.)", counts as 0 in the sort key, while the records and
    so their [year] strings are those of the mapping. Records of equal
    score and year key keep their insertion order. With [top_n = 2] and
    three candidates of scores 5, 5, 3 and years 2020, 2019, 2023, in any
    insertion order, the result is the 2020 record, then the 2019 record. *)
Theorem rank_by_score_then_year :
  (forall (merged : ODict.t paper) (q : string),
      let full := rank merged q (Z.of_nat (length merged)) in
      StronglySorted (ranks_before q) full
      /\ full ≡ₚ values merged
      /\ (forall k, List.filter (same_key q k) full
                    = List.filter (same_key q k) (values merged))
      /\ (forall top_n, rank merged q top_n = slice_to top_n full))
  /\ (forall y, py_int y = None -> safe_year_to_int y = 0)
  /\ safe_year_to_int "(n.d.)" = 0
  /\ (forall (merged : ODict.t paper) (q : string) (p1 p2 p3 : paper)
             (k1 k2 k3 : string),
        merged ≡ₚ [(k1, p1); (k2, p2); (k3, p3)] ->
        score_title (Some (title p1)) q = 5 -> year p1 = "2020" ->
        score_title (Some (title p2)) q = 5 -> year p2 = "2019" ->
        score_title (Some (title p3)) q = 3 -> year p3 = "2023" ->
        rank merged q 2 = [p1; p2]).
Proof.
  split_and!.
  - intros merged q full. subst full. rewrite rank_full. split_and!.
    + eapply StronglySorted_weaken; [|apply sort_sorted].
      * intros x y. apply rank_le_spec.
      * apply rank_le_total.
      * apply rank_le_trans.
    + apply sort_perm.
    + intros k. apply sort_stable. intros x y Hx Hy.
      apply bool_decide_eq_true_1 in Hx, Hy.
      apply rank_le_spec. unfold ranks_before. rewrite Hx, Hy. lia.
    + intros top_n. apply rank_as_sort.
  - apply safe_year_unparsed.
  - done.
  - intros merged q p1 p2 p3 k1 k2 k3 Hperm Hs1 Hy1 Hs2 Hy2 Hs3 Hy3.
    assert (key_of q p1 = (5, 2020)) as K1
      by (unfold key_of; by rewrite Hs1, Hy1).
    assert (key_of q p2 = (5, 2019)) as K2
      by (unfold key_of; by rewrite Hs2, Hy2).
    assert (key_of q p3 = (3, 2023)) as K3
      by (unfold key_of; by rewrite Hs3, Hy3).
    assert (forall a b, rank_le q a b
              = tuple_le (- (key_of q a).1, - (key_of q a).2)
                         (- (key_of q b).1, - (key_of q b).2)) as Hrl by done.
    symmetry in Hperm. apply permutations_Permutation in Hperm.
    rewrite rank_as_sort.
    cbn in Hperm.
    repeat (apply elem_of_cons in Hperm as [-> | Hperm]);
      [..|by apply elem_of_nil in Hperm];
      cbn [values map snd sort foldr insert];
      repeat first
        [ rewrite Hrl, ?K1, ?K2, ?K3
        | progress cbn [insert fst snd]
        | match goal with
          | |- context [tuple_le ?a ?b] =>
              let v := eval vm_compute in (tuple_le a b) in
              change (tuple_le a b) with v
          end ];
      done.
Qed.

Lemma rank_by_score_then_year_witness :
  rank [("10.1/c", Sample.cand_2023); ("10.1/a", Sample.cand_2020);
        ("10.1/b", Sample.cand_2019)] Sample.the_query 2
  = [Sample.cand_2020; Sample.cand_2019].
Proof.
  apply (proj2 (proj2 (proj2 rank_by_score_then_year))
           _ Sample.the_query _ _ Sample.cand_2023
           "10.1/a" "10.1/b" "10.1/c");
    [apply (Permutation_cons_append [_; _]) | reflexivity..].
Defined.

(** C4, as the code has it. For [top_n >= 0] the ranking has
    [min top_n n] records, [n] being the number of stored records: never
    more than [top_n], and all of them when there are no more than
    [top_n]. It is empty for [top_n = 0]. A negative [top_n] cuts the last
    [-top_n] records off the sorted list, as Python slices do, which leaves
    [max 0 (n + top_n)] records. *)
Theorem rank_length_by_top_n (merged : ODict.t paper) (q : string)
    (top_n : Z) :
  let n := Z.of_nat (length merged) in
  (0 <= top_n ->
   Z.of_nat (length (rank merged q top_n)) = Z.min top_n n)
  /\ (n <= top_n -> rank merged q top_n ≡ₚ values merged)
  /\ (top_n = 0 -> rank merged q top_n = [])
  /\ (top_n < 0 ->
      Z.of_nat (length (rank merged q top_n)) = Z.max 0 (n + top_n)
      /\ rank merged q top_n
         = take (length merged - Z.to_nat (- top_n)) (rank merged q n))
  /\ (forall a b, merge_and_score a b q top_n = rank (merge a b) q top_n).
Proof.
  intros n.
  assert (length (sort (rank_le q) (values merged)) = length merged) as Hlen.
  { unfold values. by rewrite sort_length, length_map. }
  split_and!.
  - intros Hn. rewrite rank_as_sort, slice_to_length, Hlen.
    by rewrite (proj2 (Z.leb_le 0 top_n)).
  - intros Hn. rewrite rank_as_sort, slice_to_all by lia. apply sort_perm.
  - intros ->. by rewrite rank_as_sort.
  - intros Hn. split.
    + rewrite rank_as_sort, slice_to_length, Hlen.
      by rewrite (proj2 (Z.leb_gt 0 top_n)).
    + subst n. by rewrite rank_full, rank_as_sort, slice_to_neg, Hlen.
  - intros a b. apply merge_and_score_rank.
Qed.

Lemma rank_length_by_top_n_witness :
  Z.of_nat (length (rank (merge [Sample.cand_2020; Sample.cand_2019]
                                [Sample.cand_2023])
                         Sample.the_query (-1))) = 2.
Proof.
  apply (proj1 (proj1 (proj2 (proj2 (proj2
           (rank_length_by_top_n
              (merge [Sample.cand_2020; Sample.cand_2019] [Sample.cand_2023])
              Sample.the_query (-1))))) ltac:(lia))).
Defined.

(** A negative [top_n] does not give the empty sequence. *)
Lemma rank_negative_top_n_not_empty :
  ~ (forall (merged : ODict.t paper) (q : string) (top_n : Z),
        top_n <= 0 -> rank merged q top_n = []).
Proof.
  intros Hclaim.
  specialize (Hclaim (merge [Sample.cand_2020; Sample.cand_2019]
                            [Sample.cand_2023])
                     Sample.the_query (-1) ltac:(lia)).
  vm_compute in Hclaim. discriminate.
Qed.

End Ranker.

(** ** Enrichment *)

Section Enrichment.
Import PyStr PyStrFacts PyList PyListFacts ODict ODictFacts.

Lemma requested_pmids_elem (papers : list paper) (id : string) :
  id ∈ requested_pmids papers
  <-> exists p, p ∈ papers /\ pmid p = Some id /\ nonempty id = true
                /\ str_in "PubMed" (source p) = true.
Proof.
  unfold requested_pmids. rewrite sort_perm.
  rewrite unique_in_order_first_seen. unfold first_seen.
  rewrite first_seen_from_elem, list_elem_of_omap. split.
  - intros [(p & Hp & Hsel) _]. exists p. split; [done|].
    destruct (pmid p) as [id'|] eqn:Hid; simpl in Hsel; [|done].
    destruct (nonempty id') eqn:Hne; simpl in Hsel; [|done].
    destruct (str_in "PubMed" (source p)) eqn:Hsrc; [|done].
    by injection Hsel as ->.
  - intros (p & Hp & Hid & Hne & Hsrc). split; [|apply not_elem_of_nil].
    exists p. split; [done|]. rewrite Hid. simpl. by rewrite Hne, Hsrc.
Qed.

Lemma requested_pmids_nil (papers : list paper) :
  (forall p, p ∈ papers ->
     ~ (truthy (pmid p) = true /\ str_in "PubMed" (source p) = true)) ->
  requested_pmids papers = [].
Proof.
  intros Hnone. destruct (requested_pmids papers) as [|id l] eqn:Hreq; [done|].
  assert (id ∈ requested_pmids papers) as Hin by (rewrite Hreq; left).
  apply requested_pmids_elem in Hin as (p & Hp & Hid & Hne & Hsrc).
  destruct (Hnone p Hp). by rewrite Hid.
Qed.

(** A record whose id has no entry is handed on as it is. *)
Lemma enrich_paper_no_entry (info_map : gmap string pubmed_info) (p : paper) :
  (forall id, pmid p = Some id -> nonempty id = true ->
              info_map !! id = None) ->
  enrich_paper info_map p = p.
Proof.
  intros Hno. unfold enrich_paper.
  destruct (pmid p) as [id|]; [|done].
  destruct (nonempty id) eqn:Hne; [|done].
  by rewrite Hno.
Qed.

Lemma map_enrich_no_entry (info_map : gmap string pubmed_info)
    (papers : list paper) :
  (forall p id, p ∈ papers -> pmid p = Some id -> nonempty id = true ->
                info_map !! id = None) ->
  map (enrich_paper info_map) papers = papers.
Proof.
  intros Hno. induction papers as [|p papers IH]; simpl; [done|].
  rewrite enrich_paper_no_entry.
  - f_equal. apply IH. intros p' id Hp'. apply Hno. by right.
  - intros id. apply Hno. left.
Qed.

Lemma pmid_merge_existing (e p : paper) :
  pmid (merge_existing e p)
  = if negb (truthy (pmid e)) && truthy (pmid p) then pmid p else pmid e.
Proof. by merge_existing_cases e p. Qed.

(** The merger keeps the provenance of provider ids. *)
Lemma merge_existing_pmid_from_pubmed (e p : paper) :
  pmid_from_pubmed e -> from_crossref p \/ from_pubmed p ->
  pmid_from_pubmed (merge_existing e p).
Proof.
  unfold pmid_from_pubmed. intros He Hp.
  rewrite pmid_merge_existing, merge_existing_source.
  destruct (truthy (pmid e)) eqn:Hpe; simpl.
  - intros _. specialize (He eq_refl).
    destruct (str_in (source p) (source e)); [done|].
    by apply str_in_app_l.
  - destruct (truthy (pmid p)) eqn:Hpp; [|by rewrite Hpe].
    intros _. destruct Hp as [[_ Hnone] | Hpub].
    + by rewrite Hnone in Hpp.
    + unfold from_pubmed in Hpub.
      destruct (str_in (source p) (source e)) eqn:Hin.
      * by rewrite Hpub in Hin.
      * rewrite Hpub. rewrite <- append_assoc. apply str_in_app_r.
Qed.

(** Every ranked record of the pipeline that carries a PubMed id names
    PubMed among its sources. *)
Lemma merge_and_score_pmid_from_pubmed (a b : list paper) (q : string)
    (top_n : Z) :
  Forall from_crossref a -> Forall from_pubmed b ->
  Forall pmid_from_pubmed (merge_and_score a b q top_n).
Proof.
  intros Ha Hb. rewrite merge_and_score_rank, rank_as_sort.
  apply Forall_forall. intros p Hp.
  assert (p ∈ values (merge a b)) as Hin.
  { rewrite <- (sort_perm (rank_le q)).
    unfold slice_to in Hp.
    destruct (0 <=? top_n); by apply subseteq_take in Hp. }
  apply values_elem in Hin as [k Hin].
  apply (dedup_loop_Forall merge_existing pmid_from_pubmed
           (fun p => from_crossref p \/ from_pubmed p) (a ++ b)) with k;
    [| | |done].
  - apply Forall_app. split; (eapply Forall_impl; [eassumption|]); auto.
  - intros r [[_ Hnone] | Hpub]; unfold pmid_from_pubmed.
    + by rewrite Hnone.
    + intros _. by rewrite Hpub.
  - apply merge_existing_pmid_from_pubmed.
Qed.

Variable efetch : list string -> efetch_response.

Lemma add_abstracts_no_entry (papers : list paper) :
  (forall p id, p ∈ papers -> pmid p = Some id -> nonempty id = true ->
     fetch_pubmed_abstracts efetch (requested_pmids papers) !! id = None) ->
  (add_abstracts_to_papers efetch papers).1 = papers.
Proof.
  intros Hno. unfold add_abstracts_to_papers.
  destruct (requested_pmids papers) as [|id l] eqn:Hreq; [done|].
  simpl. by apply map_enrich_no_entry.
Qed.

(** C6. When no ranked record carries a PubMed id with PubMed among its
    sources, the enrichment returns its input and makes no fetch call.
    When the fetch fails, or its answer has no entry for any requested id,
    the output equals the input, record for record: for every sequence of
    records whose PubMed ids come from PubMed, which the ranked sequences
    of the pipeline all are. *)
Theorem enrich_is_best_effort (papers : list paper) :
  ((forall p, p ∈ papers ->
      ~ (truthy (pmid p) = true /\ str_in "PubMed" (source p) = true)) ->
   add_abstracts_to_papers efetch papers = (papers, []))
  /\ ((efetch (requested_pmids papers) = RequestFailed
       \/ efetch (requested_pmids papers) = XmlParseError) ->
      (add_abstracts_to_papers efetch papers).1 = papers)
  /\ (Forall pmid_from_pubmed papers ->
      (forall id, id ∈ requested_pmids papers ->
         fetch_pubmed_abstracts efetch (requested_pmids papers) !! id
         = None) ->
      (add_abstracts_to_papers efetch papers).1 = papers)
  /\ (forall a b q top_n,
        Forall from_crossref a -> Forall from_pubmed b ->
        papers = merge_and_score a b q top_n ->
        (forall id, id ∈ requested_pmids papers ->
           fetch_pubmed_abstracts efetch (requested_pmids papers) !! id
           = None) ->
        (add_abstracts_to_papers efetch papers).1 = papers).
Proof.
  assert (Forall pmid_from_pubmed papers ->
          (forall id, id ∈ requested_pmids papers ->
             fetch_pubmed_abstracts efetch (requested_pmids papers) !! id
             = None) ->
          (add_abstracts_to_papers efetch papers).1 = papers) as Hprov.
  { intros Hall Hno. apply add_abstracts_no_entry.
    intros p id Hp Hid Hne. apply Hno. apply requested_pmids_elem.
    exists p. split_and!; [done..|].
    rewrite Forall_forall in Hall. apply Hall; [done|]. by rewrite Hid. }
  split_and!.
  - intros Hnone. unfold add_abstracts_to_papers.
    by rewrite requested_pmids_nil.
  - intros Hfail. apply add_abstracts_no_entry. intros p id _ _ _.
    unfold fetch_pubmed_abstracts.
    destruct (requested_pmids papers); [done|].
    by destruct Hfail as [-> | ->].
  - done.
  - intros a b q top_n Ha Hb -> Hno. apply Hprov; [|done].
    by apply merge_and_score_pmid_from_pubmed.
Qed.

End Enrichment.

Section EnrichmentSamples.

Lemma enrich_is_best_effort_witness :
  (add_abstracts_to_papers (fun _ => RequestFailed) Sample.ranked).1
  = Sample.ranked.
Proof.
  apply (proj1 (proj2 (enrich_is_best_effort (fun _ => RequestFailed)
                         Sample.ranked))).
  left. reflexivity.
Defined.

(** Why the provenance matters: the loop looks up every id a record
    carries, also one that was not requested because the record does not
    name PubMed. An answer with an entry for such an id changes the
    record. *)
Remark enrich_looks_up_unrequested_ids :
  let stray := set_pmid (Some "7") Sample.other in
  let papers := [stray; Sample.from_b] in
  let efetch := fun _ : list string =>
    Articles [PubmedArticle (Some "7") ["Text"] []] in
  requested_pmids papers = ["31000001"]
  /\ fetch_pubmed_abstracts efetch (requested_pmids papers) !! "31000001"
     = None
  /\ (add_abstracts_to_papers efetch papers).1 <> papers.
Proof. split_and!; [reflexivity | reflexivity | by vm_compute]. Qed.

End EnrichmentSamples.

(** ** The classifier *)

Section Classifier.
Import PyStr PyStrFacts.

Lemma existsb_map {A B} (f : B -> bool) (g : A -> B) (l : list A) :
  existsb f (map g l) = existsb (fun x => f (g x)) l.
Proof. induction l as [|x l IH]; simpl; [done | by rewrite IH]. Qed.

(** The test for "case reports" adds nothing to the one for
    "case report". *)
Lemma any_case_reports (l : list string) :
  existsb (str_in "case reports") l || existsb (str_in "case report") l
  = existsb (str_in "case report") l.
Proof.
  destruct (existsb (str_in "case reports") l) eqn:Hs; [|done].
  simpl. symmetry. apply existsb_exists in Hs as (x & Hx & Hin).
  apply existsb_exists. exists x. split; [done|].
  by apply (str_in_trans _ "case reports").
Qed.

Lemma guess_article_type_by_rules (p : paper) :
  guess_article_type p = classify_by_rules (or_list (pub_types p)).
Proof.
  unfold guess_article_type, classify_by_rules. cbv zeta.
  rewrite any_case_reports.
  generalize (or_list (pub_types p)) as tags. intros tags.
  unfold type_rules, rule_matches. cbn [List.find fst snd].
  rewrite !existsb_map.
  repeat (match goal with
          | |- context [existsb ?f tags] => destruct (existsb f tags)
          end; [done|]).
  done.
Qed.

(** [find] takes the first item that passes. *)
Lemma find_first {A} (f : A -> bool) (l : list A) (i : nat) (x : A) :
  l !! i = Some x -> f x = true ->
  (forall j y, (j < i)%nat -> l !! j = Some y -> f y = false) ->
  List.find f l = Some x.
Proof.
  revert i. induction l as [|y l IH]; intros i Hi Hx Hbefore; [done|].
  destruct i as [|i]; simpl in *.
  - injection Hi as ->. by rewrite Hx.
  - rewrite (Hbefore 0%nat y) by (done || lia).
    apply (IH i); [done..|]. intros j z Hj Hz.
    apply (Hbefore (S j) z); [lia | done].
Qed.

Lemma find_none {A} (f : A -> bool) (l : list A) :
  (forall x, x ∈ l -> f x = false) -> List.find f l = None.
Proof.
  induction l as [|y l IH]; intros Hf; simpl; [done|].
  rewrite (Hf y) by left. apply IH. intros x Hx. apply Hf. by right.
Qed.

(** C7. The article type depends on the tag list of the record only. The
    rules are tried in the order meta-analysis, systematic review, review,
    randomized controlled trial, clinical trial, case report, editorial,
    letter, comment; a rule matches when its pattern occurs in some tag,
    letter case aside, and the first rule that matches gives the label.
    With tags but no match the first tag is returned as it is; without
    tags, "(unknown)". The tags ["Systematic Review"] give
    "Systematic review". *)
Theorem guess_article_type_priority :
  (forall p, guess_article_type p = classify_by_rules (or_list (pub_types p)))
  /\ (forall p p', pub_types p = pub_types p' ->
                   guess_article_type p = guess_article_type p')
  /\ map fst type_rules
     = ["meta-analysis"; "systematic review"; "review";
        "randomized controlled trial"; "clinical trial"; "case report";
        "editorial"; "letter"; "comment"]
  /\ (forall p (i : nat) rule,
        type_rules !! i = Some rule ->
        rule_matches (or_list (pub_types p)) rule = true ->
        (forall j earlier, (j < i)%nat -> type_rules !! j = Some earlier ->
           rule_matches (or_list (pub_types p)) earlier = false) ->
        guess_article_type p = rule.2)
  /\ (forall p first rest,
        or_list (pub_types p) = first :: rest ->
        (forall rule, rule ∈ type_rules ->
           rule_matches (first :: rest) rule = false) ->
        guess_article_type p = first)
  /\ (forall p, or_list (pub_types p) = [] ->
                guess_article_type p = "(unknown)")
  /\ (forall p, pub_types p = Some ["Systematic Review"] ->
                guess_article_type p = "Systematic review").
Proof.
  split_and!.
  - apply guess_article_type_by_rules.
  - intros p p' Heq. by rewrite !guess_article_type_by_rules, Heq.
  - done.
  - intros p i rule Hi Hrule Hbefore.
    rewrite guess_article_type_by_rules. unfold classify_by_rules.
    by rewrite (find_first _ _ i rule).
  - intros p first rest Htags Hnone.
    rewrite guess_article_type_by_rules, Htags. unfold classify_by_rules.
    by rewrite find_none.
  - intros p Htags. rewrite guess_article_type_by_rules, Htags. done.
  - intros p Htags. rewrite guess_article_type_by_rules, Htags. done.
Qed.

Lemma guess_article_type_priority_witness :
  guess_article_type
    (set_pub_types (Some ["Systematic Review"]) Sample.from_b)
  = "Systematic review".
Proof.
  apply (proj2 (proj2 (proj2 (proj2 (proj2 (proj2
           guess_article_type_priority)))))).
  reflexivity.
Defined.

End Classifier.

Section TagUnionSamples.

Lemma pub_types_union_first_seen_witness :
  is_tag_union ["journal-article"] ["Review"; "journal-article"; "Review"]
    (pub_types
       (enrich_paper
          {["31000001" := PubmedInfo (Some "Text")
                            (Some ["Review"; "journal-article"; "Review"])]}
          (set_pmid (Some "31000001") Sample.from_a))).
Proof.
  apply (proj1 (proj2 pub_types_union_first_seen)
           _ (set_pmid (Some "31000001") Sample.from_a) "31000001"
           (PubmedInfo (Some "Text")
                       (Some ["Review"; "journal-article"; "Review"])));
    [reflexivity | reflexivity | apply lookup_singleton_eq].
Defined.

End TagUnionSamples.


(** * Further properties of the scripts *)

(** ** The scorer, continued *)

Section ScorerMore.
Import PyStr PyStrFacts.

Lemma lower_char_idem (c : ascii) : lower_char (lower_char c) = lower_char c.
Proof. destruct c as [[] [] [] [] [] [] [] []]; reflexivity. Qed.

Lemma lower_idem (s : string) : lower (lower s) = lower s.
Proof.
  induction s as [|c s IH]; simpl; [done|]. by rewrite lower_char_idem, IH.
Qed.

Lemma nonempty_lower (s : string) : nonempty (lower s) = nonempty s.
Proof. by destruct s. Qed.

Lemma or_str_lower (title : option string) :
  or_str (lower <$> title) EmptyString = lower (or_str title EmptyString).
Proof. destruct title as [[|c s]|]; done. Qed.

(** Letter case plays no part in the score: it is that of the case-folded
    title and query, and two titles and two queries that differ in letter
    case only score the same. *)
Theorem score_title_ignores_case :
  (forall (title : option string) (q : string),
      score_title title q = score_title (lower <$> title) (lower q))
  /\ (forall t1 t2 q1 q2 : string,
        lower t1 = lower t2 -> lower q1 = lower q2 ->
        score_title (Some t1) q1 = score_title (Some t2) q2).
Proof.
  split.
  - intros title q. rewrite !score_title_closed.
    by rewrite or_str_lower, !lower_idem.
  - intros t1 t2 q1 q2 Ht Hq. rewrite !score_title_closed, !or_str_some.
    by rewrite Ht, Hq.
Qed.

Lemma score_title_ignores_case_witness :
  score_title (Some "Organic Transistors") "TRANSISTORS"
  = score_title (Some "organic transistors") "transistors".
Proof.
  apply (proj2 score_title_ignores_case); reflexivity.
Defined.

Lemma filter_length_le {A} (f : A -> bool) (l : list A) :
  (length (List.filter f l) <= length l)%nat.
Proof.
  induction l as [|x l IH]; simpl; [done|]. destruct (f x); simpl; lia.
Qed.

(** A phrase hit takes every token with it: when the case-folded query
    occurs in the case-folded title, the score is 2 plus the number of
    tokens of the query. Without a phrase hit the score is at most the
    number of tokens. *)
Theorem score_title_phrase_takes_all_tokens (title q : string) :
  let tokens := Z.of_nat (length (split (lower q))) in
  (str_in (lower q) (lower title) = true ->
   score_title (Some title) q = 2 + tokens)
  /\ (str_in (lower q) (lower title) = false ->
      0 <= score_title (Some title) q <= tokens).
Proof.
  intros tokens. subst tokens.
  rewrite score_title_closed, or_str_some. split; intros Hin; rewrite Hin.
  - rewrite filter_all; [done|]. intros w Hw.
    apply split_token in Hw as (-> & _ & Hw). simpl.
    by apply (str_in_trans _ (lower q)).
  - pose proof (filter_length_le
                  (fun w => nonempty w && str_in w (lower title))
                  (split (lower q))). lia.
Qed.

Lemma score_title_phrase_takes_all_tokens_witness :
  score_title (Some "Fast organic mixed conductors, reviewed")
              "Organic mixed conductors" = 2 + 3.
Proof.
  apply (proj1 (score_title_phrase_takes_all_tokens
                  "Fast organic mixed conductors, reviewed"
                  "Organic mixed conductors")).
  reflexivity.
Defined.

End ScorerMore.

(** ** Years: [extract_year_from_pubdate], [str] and [int] *)

Section Years.
Import PyStr PyStrFacts PyRe.

Local Arguments String.append !_ _ / : simpl nomatch.

(** What is used of a decimal digit. *)
Lemma digit_facts (c : ascii) :
  is_digit c = true ->
  (exists v, digit_val c = Some v /\ 0 <= v <= 9)
  /\ is_c_space c = false /\ is_word c = true
  /\ c <> "+"%char /\ c <> "-"%char.
Proof.
  destruct c as [[] [] [] [] [] [] [] []]; intros Hd;
    try (vm_compute in Hd; discriminate Hd);
    (split; [eexists; split; [vm_compute; reflexivity | lia]
            | by vm_compute]).
Qed.

Lemma lstrip_by_id (sp : ascii -> bool) (s : string) :
  all_chars (fun c => negb (sp c)) s = true -> lstrip_by sp s = s.
Proof. destruct s as [|c s]; simpl; [done|]. by destruct (sp c). Qed.

Lemma rstrip_by_id (sp : ascii -> bool) (s : string) :
  all_chars (fun c => negb (sp c)) s = true -> rstrip_by sp s = s.
Proof.
  induction s as [|c s IH]; simpl; [done|].
  destruct (sp c); simpl; [done|]. intros Hs. by rewrite IH.
Qed.

(** [int] of a text that starts with a digit and holds no whitespace reads
    its digits. *)
Lemma py_int_digits (c : ascii) (s : string) :
  is_digit c = true ->
  all_chars (fun c => negb (is_c_space c)) s = true ->
  py_int (String c s) = parse_digits 0 false (String c s).
Proof.
  intros Hc Hs. destruct (digit_facts c Hc) as (_ & Hsp & _ & Hplus & Hminus).
  unfold py_int. rewrite lstrip_by_id, rstrip_by_id; simpl; rewrite ?Hsp; try done.
  destruct c as [[] [] [] [] [] [] [] []]; try done.
Qed.

Lemma four_digits_parse (y : string) :
  four_digits y = true ->
  exists n, py_int y = Some n /\ 0 <= n <= 9999.
Proof.
  destruct y as [|a [|b [|c [|d [|e y]]]]]; try done.
  unfold four_digits.
  intros [[[Ha Hb]%andb_true_iff Hc]%andb_true_iff Hd]%andb_true_iff.
  destruct (digit_facts a Ha) as ((va & Hva & ?) & _).
  destruct (digit_facts b Hb) as ((vb & Hvb & ?) & Hsb & _).
  destruct (digit_facts c Hc) as ((vc & Hvc & ?) & Hsc & _).
  destruct (digit_facts d Hd) as ((vd & Hvd & ?) & Hsd & _).
  rewrite py_int_digits; [|done|simpl; by rewrite Hsb, Hsc, Hsd].
  simpl. rewrite Hva, Hvb, Hvc, Hvd. eexists. split; [done | lia].
Qed.

Lemma year_at_spec (s y : string) :
  year_at s = Some y ->
  four_digits y = true
  /\ exists post, s = y +:+ post /\ starts_nonword post = true.
Proof.
  destruct s as [|a [|b [|c [|d rest]]]]; try done. unfold year_at.
  destruct (is_digit a && is_digit b && is_digit c && is_digit d) eqn:Hd;
    simpl; [|done].
  destruct rest as [|e rest]; simpl.
  - intros [= <-]. split; [done|]. by exists EmptyString.
  - destruct (is_word e) eqn:He; simpl; [done|]. intros [= <-].
    split; [done|]. exists (String e rest). simpl. by rewrite He.
Qed.

(** A match is four digits of the text, with no word character right
    before or right after them. *)
Lemma search_year_spec (prev_word : bool) (s y : string) :
  search_year prev_word s = Some y ->
  four_digits y = true
  /\ exists pre post,
       s = pre +:+ y +:+ post
       /\ starts_nonword post = true
       /\ (if nonempty pre then ends_nonword pre = true
           else prev_word = false).
Proof.
  revert prev_word. induction s as [|c s IH]; intros prev_word; [done|].
  cbn [search_year].
  destruct (if prev_word then None else year_at (String c s)) as [y'|] eqn:Hat.
  - intros [= ->]. destruct prev_word; [done|].
    apply year_at_spec in Hat as (Hy & post & -> & Hpost).
    split; [done|]. by exists EmptyString, post.
  - intros Hrec. apply IH in Hrec as (Hy & pre & post & -> & Hpost & Hpre).
    split; [done|]. exists (String c pre), post. split_and!; [done..|].
    simpl. destruct pre as [|c' pre]; simpl in *; [by rewrite Hpre | done].
Qed.

Lemma search_year_head (s y : string) :
  year_at s = Some y -> search_year false s = Some y.
Proof. destruct s as [|c s]; [done|]. cbn [search_year]. by intros ->. Qed.

Lemma year_at_complete (y post : string) :
  four_digits y = true -> starts_nonword post = true ->
  year_at (y +:+ post) = Some y.
Proof.
  destruct y as [|a [|b [|c [|d [|e y]]]]]; try done.
  unfold four_digits. intros Hd Hpost. simpl. rewrite Hd.
  destruct post; simpl in *; [done | by rewrite Hpost].
Qed.

Lemma extract_year_cases (pubdate : string) :
  let y := extract_year_from_pubdate pubdate in
  y = "(n.d.)"
  \/ (four_digits y = true
      /\ exists pre post,
           pubdate = pre +:+ y +:+ post
           /\ ends_nonword pre = true /\ starts_nonword post = true).
Proof.
  intros y. subst y. unfold extract_year_from_pubdate.
  destruct (nonempty pubdate); simpl; [|by left].
  destruct (search_year false pubdate) as [y|] eqn:Hsearch; [|by left].
  apply search_year_spec in Hsearch as (Hy & pre & post & Heq & Hpost & Hpre).
  right. split; [done|]. exists pre, post. split_and!; [done| |done].
  by destruct pre.
Qed.

Lemma extract_year_nonempty (pubdate : string) :
  nonempty (extract_year_from_pubdate pubdate) = true.
Proof.
  destruct (extract_year_cases pubdate) as [-> | [Hy _]]; [done|].
  by destruct (extract_year_from_pubdate pubdate).
Qed.

(** The year of a publication date is the sentinel "(n.d.)" or four digits
    of the date that stand alone: no word character is right before or
    right after them, so a year is never cut out of a longer number. A
    date that starts with such a year yields it. The result is never
    empty. *)
Theorem extract_year_stands_alone (pubdate : string) :
  let y := extract_year_from_pubdate pubdate in
  (y = "(n.d.)"
   \/ (four_digits y = true
       /\ exists pre post,
            pubdate = pre +:+ y +:+ post
            /\ ends_nonword pre = true /\ starts_nonword post = true))
  /\ nonempty y = true
  /\ (forall y0 post,
        pubdate = y0 +:+ post -> four_digits y0 = true ->
        starts_nonword post = true -> y = y0).
Proof.
  intros y. subst y.
  split_and!; [apply extract_year_cases | apply extract_year_nonempty |].
  intros y0 post -> Hy0 Hpost. unfold extract_year_from_pubdate.
  assert (nonempty (y0 +:+ post) = true) as -> by (by destruct y0).
  simpl. rewrite (search_year_head _ y0); [done|].
  by apply year_at_complete.
Qed.

Lemma extract_year_stands_alone_witness :
  extract_year_from_pubdate "2024 Jan 15" = "2024".
Proof.
  apply (proj2 (proj2 (extract_year_stands_alone "2024 Jan 15"))
           "2024" " Jan 15"); reflexivity.
Defined.

(** The sort key of a PubMed record: the year taken from a publication
    date always parses, to a number from 0 to 9999, and only the sentinel
    fails to parse. *)
Theorem extracted_year_parses (pubdate : string) :
  let y := extract_year_from_pubdate pubdate in
  0 <= safe_year_to_int y <= 9999
  /\ (y <> "(n.d.)" -> py_int y = Some (safe_year_to_int y)).
Proof.
  intros y.
  destruct (extract_year_cases pubdate) as [Hs | [Hy _]];
    fold y in Hs || fold y in Hy.
  - rewrite Hs. split; [by vm_compute | done].
  - apply four_digits_parse in Hy as (n & Hn & ?).
    unfold safe_year_to_int. rewrite Hn. done.
Qed.

Lemma extracted_year_parses_witness :
  py_int (extract_year_from_pubdate "2019 Dec")
  = Some (safe_year_to_int (extract_year_from_pubdate "2019 Dec")).
Proof.
  apply (proj2 (extracted_year_parses "2019 Dec")). discriminate.
Defined.

Lemma all_chars_impl (f g : ascii -> bool) (s : string) :
  (forall c, f c = true -> g c = true) ->
  all_chars f s = true -> all_chars g s = true.
Proof.
  intros Hfg. induction s as [|c s IH]; simpl; [done|].
  intros [Hc Hs]%andb_true_iff. by rewrite (Hfg c Hc), IH.
Qed.

Lemma string_of_uint_digits (d : Decimal.uint) :
  all_chars is_digit (NilEmpty.string_of_uint d) = true.
Proof. induction d; simpl; done. Qed.

Lemma string_of_uint_no_space (d : Decimal.uint) :
  all_chars (fun c => negb (is_c_space c)) (NilEmpty.string_of_uint d) = true.
Proof.
  eapply all_chars_impl; [|apply string_of_uint_digits].
  intros c Hc. by destruct (digit_facts c Hc) as (_ & -> & _).
Qed.

(** Reading the digits that write [d] gives the number of [d]. *)
Lemma parse_digits_uint (d : Decimal.uint) (acc : Z) (b : bool) :
  parse_digits acc b (NilEmpty.string_of_uint d)
  = match d with
    | Decimal.Nil => if b then Some acc else None
    | _ => Some (uint_value acc d)
    end.
Proof.
  revert acc b.
  induction d as [|d IH|d IH|d IH|d IH|d IH|d IH|d IH|d IH|d IH|d IH];
    intros acc b; [done|..];
    cbn [NilEmpty.string_of_uint parse_digits];
    (change (digit_val _) with (Some 0) || change (digit_val _) with (Some 1)
     || change (digit_val _) with (Some 2) || change (digit_val _) with (Some 3)
     || change (digit_val _) with (Some 4) || change (digit_val _) with (Some 5)
     || change (digit_val _) with (Some 6) || change (digit_val _) with (Some 7)
     || change (digit_val _) with (Some 8)
     || change (digit_val _) with (Some 9));
    cbv iota beta; rewrite IH; by destruct d.
Qed.

Lemma uint_value_pos (d : Decimal.uint) (acc : positive) :
  uint_value (Z.pos acc) d = Z.pos (Pos.of_uint_acc d acc).
Proof.
  revert acc. induction d; intros acc; simpl; [done|..];
    rewrite <- IHd; f_equal; lia.
Qed.

Lemma uint_value_0 (d : Decimal.uint) :
  uint_value 0 d = Z.of_N (Pos.of_uint d).
Proof.
  induction d; simpl; [done | done |..];
    by rewrite <- uint_value_pos.
Qed.

(** [int(str(n)) == n] *)
Lemma py_int_str_of_int (n : Z) : py_int (str_of_int n) = Some n.
Proof.
  assert (forall p, parse_digits 0 false
                      (NilEmpty.string_of_uint (Pos.to_uint p))
                    = Some (Z.pos p)) as Hdigits.
  { intros p. rewrite parse_digits_uint, uint_value_0, Unsigned.of_to.
    pose proof (Unsigned.to_uint_nonnil p). by destruct (Pos.to_uint p). }
  destruct n as [|p|p]; [done|..]; unfold str_of_int; simpl;
    pose proof (Unsigned.to_uint_nonnil p) as Hnil;
    pose proof (string_of_uint_no_space (Pos.to_uint p)) as Hsp;
    pose proof (string_of_uint_digits (Pos.to_uint p)) as Hdg;
    specialize (Hdigits p);
    assert (NilZero.string_of_uint (Pos.to_uint p)
            = NilEmpty.string_of_uint (Pos.to_uint p)) as ->
      by (by destruct (Pos.to_uint p)).
  - destruct (NilEmpty.string_of_uint (Pos.to_uint p)) as [|c s] eqn:Hs.
    { by destruct (Pos.to_uint p). }
    simpl in Hdg, Hsp.
    apply andb_true_iff in Hdg as [Hc _]. apply andb_true_iff in Hsp as [_ Hsp].
    by rewrite py_int_digits.
  - unfold py_int. rewrite lstrip_by_id, rstrip_by_id; simpl; rewrite ?Hsp;
      try done.
    by rewrite Hdigits.
Qed.

End Years.

(** ** The empty query *)

Section EmptyQuery.
Import PyStr PyStrFacts PyRe PyList PyListFacts ODict ODictFacts.

Lemma decimal_digit_val (c : ascii) :
  is_digit c = true -> digit_val c = decimal_digit c.
Proof.
  destruct c as [[] [] [] [] [] [] [] []]; intros Hd;
    try (vm_compute in Hd; discriminate Hd); reflexivity.
Qed.

(** On the years of the specification, the integer [safe_year_to_int]
    returns is the specification's. *)
Lemma safe_year_spec_year (y : string) :
  spec_year y -> safe_year_to_int y = year_as_integer y.
Proof.
  intros [Hy | ->]; [|done].
  destruct y as [|a [|b [|c [|d [|e y]]]]]; try done.
  unfold four_digits in Hy.
  apply andb_true_iff in Hy as [[[Ha Hb]%andb_true_iff Hc]%andb_true_iff Hd].
  destruct (digit_facts a Ha) as ((va & Hva & _) & _).
  destruct (digit_facts b Hb) as ((vb & Hvb & _) & Hsb & _).
  destruct (digit_facts c Hc) as ((vc & Hvc & _) & Hsc & _).
  destruct (digit_facts d Hd) as ((vd & Hvd & _) & Hsd & _).
  unfold safe_year_to_int, year_as_integer.
  rewrite py_int_digits; [|done|simpl; by rewrite Hsb, Hsc, Hsd].
  rewrite <- !decimal_digit_val by done.
  simpl. rewrite Hva, Hvb, Hvc, Hvd. lia.
Qed.

Lemma insert_ext_in {A} (le1 le2 : A -> A -> bool) (x : A) (l : list A) :
  (forall y, y ∈ l -> le1 x y = le2 x y) ->
  insert le1 x l = insert le2 x l.
Proof.
  induction l as [|y l IH]; intros Hle; simpl; [done|].
  rewrite <- (Hle y) by left.
  destruct (le1 x y); [done|].
  f_equal. apply IH. intros z Hz. apply Hle. by right.
Qed.

Lemma sort_ext_in {A} (le1 le2 : A -> A -> bool) (l : list A) :
  (forall a b, a ∈ l -> b ∈ l -> le1 a b = le2 a b) ->
  sort le1 l = sort le2 l.
Proof.
  induction l as [|x l IH]; intros Hle; simpl; [done|].
  rewrite <- IH by (intros a b Ha Hb; apply Hle; by right).
  apply insert_ext_in. intros y Hy.
  rewrite (sort_perm le1 l) in Hy.
  apply Hle; [left | by right].
Qed.

(** Under the empty query the ranking compares years only. *)
Lemma rank_empty_query (merged : ODict.t paper) (top_n : Z) :
  rank merged EmptyString top_n
  = slice_to top_n (sort year_desc (values merged)).
Proof.
  rewrite rank_as_sort. f_equal. apply sort_ext. intros p1 p2.
  unfold rank_le, key_of, year_desc, tuple_le. simpl.
  rewrite !score_title_empty_query. simpl.
  apply eq_true_iff_eq. rewrite !Z.leb_le. lia.
Qed.

(** On records with years of the specification, it compares them as the
    specification does. *)
Lemma sort_year_desc_newer_first (l : list paper) :
  Forall (fun p => spec_year (year p)) l ->
  sort year_desc l = sort newer_first l.
Proof.
  intros Hall. apply sort_ext_in. intros p1 p2 H1 H2.
  rewrite Forall_forall in Hall.
  unfold year_desc, newer_first.
  by rewrite !safe_year_spec_year by by apply Hall.
Qed.

Lemma newer_first_total (p1 p2 : paper) :
  newer_first p1 p2 = true \/ newer_first p2 p1 = true.
Proof. unfold newer_first. lia. Qed.

Lemma newer_first_trans (p1 p2 p3 : paper) :
  newer_first p1 p2 = true -> newer_first p2 p3 = true ->
  newer_first p1 p3 = true.
Proof. unfold newer_first. lia. Qed.

(** C10. The empty query scores 2 against every title, a missing one
    too: it occurs in every string and has no tokens. With it, all stored
    records have the same score, and the ranking is the records by year,
    newest first, ties in insertion order. The year is the integer of the
    sort key, which on the years of the specification, four digits or the
    sentinel "(n.d.)", is the number the digits write and 0 for the
    sentinel; so of two records with such years the newer one stands first
    in whichever order they were stored. *)
Theorem empty_query_ranks_by_year :
  (forall title : option string, score_title title EmptyString = 2)
  /\ (forall (merged : ODict.t paper) (top_n : Z),
        (forall p, p ∈ values merged -> (key_of EmptyString p).1 = 2)
        /\ rank merged EmptyString top_n
           = slice_to top_n (sort year_desc (values merged))
        /\ StronglySorted
             (fun p1 p2 => safe_year_to_int (year p1)
                           >= safe_year_to_int (year p2))
             (sort year_desc (values merged))
        /\ (forall y,
              List.filter
                (fun p => bool_decide (safe_year_to_int (year p) = y))
                (sort year_desc (values merged))
              = List.filter
                  (fun p => bool_decide (safe_year_to_int (year p) = y))
                  (values merged)))
  /\ (forall y, spec_year y -> safe_year_to_int y = year_as_integer y)
  /\ (forall (merged : ODict.t paper) (top_n : Z),
        Forall (fun p => spec_year (year p)) (values merged) ->
        let full := sort newer_first (values merged) in
        rank merged EmptyString top_n = slice_to top_n full
        /\ StronglySorted
             (fun p1 p2 => year_as_integer (year p1)
                           >= year_as_integer (year p2)) full
        /\ full ≡ₚ values merged
        /\ (forall y,
              List.filter
                (fun p => bool_decide (year_as_integer (year p) = y)) full
              = List.filter
                  (fun p => bool_decide (year_as_integer (year p) = y))
                  (values merged)))
  /\ (forall (merged : ODict.t paper) (k1 k2 : string) (p1 p2 : paper),
        spec_year (year p1) -> spec_year (year p2) ->
        year_as_integer (year p2) < year_as_integer (year p1) ->
        merged ≡ₚ [(k1, p1); (k2, p2)] ->
        rank merged EmptyString 2 = [p1; p2]
        /\ rank merged EmptyString 1 = [p1]).
Proof.
  split_and!.
  - apply score_title_empty_query.
  - intros merged top_n. split_and!.
    + intros p _. apply score_title_empty_query.
    + apply rank_empty_query.
    + eapply StronglySorted_weaken; [|apply sort_sorted].
      * intros p1 p2 Hle. apply Z.leb_le in Hle. lia.
      * intros p1 p2. unfold year_desc. rewrite !Z.leb_le. lia.
      * intros p1 p2 p3. unfold year_desc. rewrite !Z.leb_le. lia.
    + intros y. apply sort_stable. intros p1 p2 H1 H2.
      apply bool_decide_eq_true_1 in H1, H2.
      unfold year_desc. apply Z.leb_le. lia.
  - apply safe_year_spec_year.
  - intros merged top_n Hall full. split_and!.
    + rewrite rank_empty_query. unfold full.
      by rewrite sort_year_desc_newer_first.
    + eapply StronglySorted_weaken;
        [|apply sort_sorted; [apply newer_first_total
                             | apply newer_first_trans]].
      intros p1 p2. unfold newer_first. lia.
    + apply sort_perm.
    + intros y. apply sort_stable. intros p1 p2 H1 H2.
      apply bool_decide_eq_true_1 in H1, H2.
      unfold newer_first. lia.
  - intros merged k1 k2 p1 p2 Hy1 Hy2 Hlt Hperm.
    assert (forall n, rank merged EmptyString n = slice_to n [p1; p2])
      as Hrank.
    { intros n. rewrite rank_empty_query. f_equal.
      assert (year_desc p1 p2 = true /\ year_desc p2 p1 = false)
        as [H12 H21].
      { unfold year_desc. rewrite !safe_year_spec_year by done. lia. }
      symmetry in Hperm.
      apply Permutation_length_2_inv in Hperm as [-> | ->]; simpl.
      - by rewrite H12.
      - by rewrite H21. }
    by rewrite !Hrank.
Qed.

Lemma empty_query_ranks_by_year_witness :
  rank [("10.1/b", Sample.cand_2019); ("10.1/c", Sample.cand_2023)]
       EmptyString 2
  = [Sample.cand_2023; Sample.cand_2019]
  /\ rank [("10.1/b", Sample.cand_2019); ("10.1/c", Sample.cand_2023)]
          EmptyString 1
     = [Sample.cand_2023].
Proof.
  apply (proj2 (proj2 (proj2 (proj2 empty_query_ranks_by_year)))
           [("10.1/b", Sample.cand_2019); ("10.1/c", Sample.cand_2023)]
           "10.1/c" "10.1/b" Sample.cand_2023 Sample.cand_2019).
  - by left.
  - by left.
  - vm_compute. reflexivity.
  - apply perm_swap.
Defined.

End EmptyQuery.

(** ** The normalizers *)

Section Normalizers.
Import PyStr PyStrFacts PyRe ODict ODictFacts.

Local Arguments String.append !_ _ / : simpl nomatch.

Lemma nonempty_app_l (a b : string) :
  nonempty a = true -> nonempty (a +:+ b) = true.
Proof. by destruct a. Qed.

Lemma join_nonempty (sep : string) (l : list string) :
  list_truthy l = true -> Forall (fun x => nonempty x = true) l ->
  nonempty (join sep l) = true.
Proof.
  destruct l as [|x [|y l]]; [done|..]; intros _ Hl;
    apply Forall_cons in Hl as [Hx _]; [done|].
  by apply nonempty_app_l.
Qed.

Lemma or_str_nonempty (x : option string) (d : string) :
  nonempty d = true -> nonempty (or_str x d) = true.
Proof.
  intros Hd. destruct x as [s|]; simpl; [|done].
  by destruct (nonempty s) eqn:Hs.
Qed.

Lemma crossref_author_name_nonempty (a : crossref_author) :
  nonempty (crossref_author_name a) = true.
Proof.
  unfold crossref_author_name. cbv zeta.
  by destruct (nonempty (strip _)) eqn:Hn.
Qed.

Lemma str_of_int_nonempty (n : Z) : nonempty (str_of_int n) = true.
Proof.
  pose proof (py_int_str_of_int n) as Hn.
  by destruct (str_of_int n).
Qed.

Lemma crossref_year_first_part dates :
  crossref_year dates
  = match first_date_part dates with
    | Some x => str_of_part x
    | None => "(n.d.)"
    end.
Proof.
  induction dates as [|[[|[|x part] parts]|] dates IH]; simpl; done.
Qed.

Lemma crossref_year_nonempty dates : nonempty (crossref_year dates) = true.
Proof.
  rewrite crossref_year_first_part.
  destruct (first_date_part dates) as [[n|]|]; [|done..].
  apply str_of_int_nonempty.
Qed.

(** Crossref: an error message comes with no records and the other way
    round; a good answer gives one record per work, in the order of the
    answer. *)
Theorem fetch_papers_crossref_outcome
    (resp : http_result (list crossref_item)) (q : string) :
  let out := fetch_papers_crossref resp q in
  (out.2 = None <-> out.1 <> [])
  /\ (forall items, resp = Json items -> items <> [] ->
        out = (map (crossref_paper q) items, None))
  /\ (forall items, resp = Json items ->
        length out.1 = length items).
Proof.
  destruct resp as [e|e|items]; simpl; [split_and!; try done; naive_solver..|].
  destruct items as [|it items]; simpl.
  - split_and!; try done; naive_solver.
  - split_and!; [naive_solver| |].
    + by intros ? [= <-] _.
    + intros ? [= <-]. simpl. by rewrite length_map.
Qed.

Lemma fetch_papers_crossref_outcome_witness :
  length (fetch_papers_crossref
            (Json [CrossrefItem [] None None [] None None None [] None None])
            "q").1 = 1%nat.
Proof.
  apply (proj2 (proj2 (fetch_papers_crossref_outcome
                         (Json [CrossrefItem [] None None [] None None None []
                                             None None]) "q"))
           _ eq_refl).
Defined.

(** Crossref: every record is labelled "Crossref", carries no PubMed id and
    no translation, has the query it came from, a DOI field, one tag that
    is not empty, and authors and a year that are not empty. *)
Theorem crossref_paper_shape (resp : http_result (list crossref_item))
    (q : string) :
  Forall (fun p =>
            from_crossref p /\ query p = q /\ abstract_ja p = None
            /\ is_Some (doi p)
            /\ (exists t, pub_types p = Some [t] /\ nonempty t = true)
            /\ nonempty (authors p) = true /\ nonempty (year p) = true)
         (fetch_papers_crossref resp q).1.
Proof.
  destruct resp as [e|e|items]; simpl; [done..|].
  destruct items as [|it0 items0]; [done|].
  cbn [negb list_truthy fst]. apply Forall_forall.
  intros p (it & -> & _)%list_elem_of_fmap.
  split_and!; try done.
  - unfold crossref_paper. simpl. eexists. split; [done|].
    by destruct (it_type it) as [[|c t]|].
  - unfold crossref_paper. simpl.
    destruct (map crossref_author_name (it_author it)) as [|n l] eqn:Hl;
      [done|].
    apply join_nonempty; [done|]. rewrite <- Hl.
    apply Forall_forall. intros x (a & -> & _)%list_elem_of_fmap.
    apply crossref_author_name_nonempty.
  - apply crossref_year_nonempty.
Qed.

(** Crossref: the year a record is sorted by is the integer of the first
    date part of the first date key that has one, read back from its
    decimal text; it is 0 when that part is [null] and when no date key has
    a date. *)
Theorem crossref_year_round_trip (q : string) (it : crossref_item) :
  safe_year_to_int (year (crossref_paper q it))
  = match first_date_part [it_published_print it; it_published_online it;
                           it_issued it] with
    | Some (Some n) => n
    | _ => 0
    end.
Proof.
  unfold crossref_paper. cbn [year]. rewrite crossref_year_first_part.
  destruct (first_date_part _) as [[n|]|]; [|done..].
  unfold safe_year_to_int, str_of_part. by rewrite py_int_str_of_int.
Qed.

Lemma pubmed_doi_nonempty ids : nonempty (pubmed_doi ids) = true.
Proof.
  induction ids as [|[t v] ids IH]; simpl; [done|].
  destruct (bool_decide (t = Some "doi") && truthy v) eqn:Hd; [|done].
  apply andb_true_iff in Hd as [_ Hv]. by destruct v.
Qed.

(** PubMed: the DOI of a record is the first value of type "doi" that is
    not empty; ids of other types and empty values are passed over, and
    without such a value the DOI is the sentinel. *)
Theorem pubmed_doi_first_nonempty
    (ids : list (option string * option string)) :
  (pubmed_doi ids = "(no DOI)"
   /\ Forall (fun tv => ~ (tv.1 = Some "doi" /\ truthy tv.2 = true)) ids)
  \/ (exists pre v post,
        ids = pre ++ (Some "doi", Some v) :: post
        /\ nonempty v = true
        /\ Forall (fun tv => ~ (tv.1 = Some "doi" /\ truthy tv.2 = true)) pre
        /\ pubmed_doi ids = v).
Proof.
  induction ids as [|[t v] ids IH]; simpl; [by left|].
  destruct (bool_decide (t = Some "doi") && truthy v) eqn:Hd.
  - apply andb_true_iff in Hd as [->%bool_decide_eq_true_1 Hv].
    destruct v as [v|]; [|done]. right. by exists [], v, ids.
  - assert (~ (t = Some "doi" /\ truthy v = true)) as Hnot.
    { intros [-> Hv]. by rewrite Hv in Hd. }
    destruct IH as [[Hs Hall] | (pre & v' & post & -> & Hv & Hpre & Hres)].
    + left. split; [done|]. by constructor.
    + right. exists ((t, v) :: pre), v', post. split_and!; [done..| |done].
      by constructor.
Qed.

Lemma pubmed_paper_shape (q pmid0 : string) (doc : pubmed_doc) :
  let p := pubmed_paper q pmid0 doc in
  from_pubmed p /\ pmid p = Some pmid0 /\ query p = q
  /\ abstract p = None /\ abstract_ja p = None /\ pub_types p = None
  /\ nonempty (title p) = true /\ truthy (doi p) = true
  /\ nonempty (url p) = true /\ nonempty (authors p) = true
  /\ nonempty (year p) = true /\ nonempty (journal p) = true
  /\ nonempty (source p) = true.
Proof.
  unfold pubmed_paper. cbv zeta. simpl. split_and!; try done.
  - by apply or_str_nonempty.
  - apply pubmed_doi_nonempty.
  - by destruct (negb _).
  - destruct (omap _ (doc_authors doc)) as [|n l] eqn:Hl; [done|].
    apply join_nonempty; [done|]. rewrite <- Hl.
    apply Forall_forall. intros x (name & _ & Hx)%list_elem_of_omap.
    destruct (truthy name) eqn:Hn; [|done]. by subst name.
  - apply extract_year_nonempty.
  - apply or_str_nonempty. by apply or_str_nonempty.
Qed.

Lemma crossref_papers_from_crossref
    (resp : http_result (list crossref_item)) (q : string) :
  Forall from_crossref (fetch_papers_crossref resp q).1.
Proof.
  destruct resp as [e|e|[|it items]]; simpl; [done..|].
  constructor; [done|]. apply Forall_forall.
  by intros p (it' & -> & _)%list_elem_of_fmap.
Qed.

(** Where a PubMed record comes from. *)
Lemma pubmed_papers_elem (esearch : http_result (list string))
    (esummary : list string -> http_result esummary_result) (q : string)
    (p : paper) :
  p ∈ (fetch_papers_pubmed esearch esummary q).1 ->
  exists idlist result id doc,
    esearch = Json idlist /\ esummary idlist = Json result
    /\ id ∈ uids result /\ docs result !! id = Some doc
    /\ p = pubmed_paper q id doc.
Proof.
  unfold fetch_papers_pubmed.
  destruct esearch as [e|e|idlist]; simpl; [by intros ?%elem_of_nil..|].
  destruct (list_truthy idlist); simpl; [|by intros ?%elem_of_nil].
  destruct (esummary idlist) as [e|e|result] eqn:Hsum; simpl;
    [by intros ?%elem_of_nil..|].
  destruct (list_truthy (uids result)); simpl; [|by intros ?%elem_of_nil].
  intros (id & Hid & Hp)%list_elem_of_omap.
  destruct (docs result !! id) as [doc|] eqn:Hdoc; [|done].
  injection Hp as <-. by exists idlist, result, id, doc.
Qed.

Lemma pubmed_papers_from_pubmed (esearch : http_result (list string))
    (esummary : list string -> http_result esummary_result) (q : string) :
  Forall from_pubmed (fetch_papers_pubmed esearch esummary q).1.
Proof.
  apply Forall_forall. intros p Hp.
  by apply pubmed_papers_elem in Hp as (? & ? & ? & ? & _ & _ & _ & _ & ->).
Qed.

Lemma pubmed_papers_doi_truthy (esearch : http_result (list string))
    (esummary : list string -> http_result esummary_result) (q : string)
    (p : paper) :
  p ∈ (fetch_papers_pubmed esearch esummary q).1 -> truthy (doi p) = true.
Proof.
  intros Hp.
  apply pubmed_papers_elem in Hp as (_ & _ & id & doc & _ & _ & _ & _ & ->).
  apply pubmed_doi_nonempty.
Qed.

Lemma omap_length_le {A B} (f : A -> option B) (l : list A) :
  (length (omap f l) <= length l)%nat.
Proof.
  induction l as [|x l IH]; csimpl; [done|]. destruct (f x); csimpl; lia.
Qed.

(** PubMed: an error message comes with no records. A good answer gives at
    most one record per uid, each for a uid that has a summary, with that
    uid as its PubMed id; uids without a summary are passed over, so the
    result can be empty without an error. *)
Theorem fetch_papers_pubmed_outcome (esearch : http_result (list string))
    (esummary : list string -> http_result esummary_result) (q : string) :
  let out := fetch_papers_pubmed esearch esummary q in
  (out.2 <> None -> out.1 = [])
  /\ (forall idlist result,
        esearch = Json idlist -> esummary idlist = Json result ->
        (length out.1 <= length (uids result))%nat
        /\ (idlist <> [] -> uids result <> [] -> out.2 = None)
        /\ (forall p, p ∈ out.1 ->
              exists id, id ∈ uids result /\ is_Some (docs result !! id)
                         /\ pmid p = Some id))
  /\ (forall idlist id,
        esearch = Json idlist -> idlist <> [] ->
        esummary idlist = Json (EsummaryResult [id] ∅) ->
        out = ([], None)).
Proof.
  intros out. subst out. split_and!.
  - unfold fetch_papers_pubmed.
    destruct esearch as [e|e|idlist]; simpl; [done..|].
    destruct (list_truthy idlist); simpl; [|done].
    destruct (esummary idlist) as [e|e|result]; simpl; [done..|].
    by destruct (list_truthy (uids result)).
  - intros idlist result Hs Hsum. split_and!.
    + unfold fetch_papers_pubmed. rewrite Hs.
      destruct (list_truthy idlist); simpl; [|lia]. rewrite Hsum.
      destruct (list_truthy (uids result)); simpl; [|lia].
      apply omap_length_le.
    + intros Hid Hu. unfold fetch_papers_pubmed. rewrite Hs.
      destruct idlist; [done|]. simpl. rewrite Hsum.
      by destruct (uids result).
    + intros p Hp.
      apply pubmed_papers_elem
        in Hp as (idlist' & result' & id & doc & Hs' & Hsum' & ? & Hdoc & ->).
      rewrite Hs in Hs'. injection Hs' as <-.
      rewrite Hsum in Hsum'. injection Hsum' as <-.
      exists id. by rewrite Hdoc.
  - intros idlist id -> Hne Hsum. unfold fetch_papers_pubmed.
    destruct idlist; [done|]. simpl. by rewrite Hsum.
Qed.

Lemma fetch_papers_pubmed_outcome_witness :
  fetch_papers_pubmed (Json ["31000001"])
    (fun _ => Json (EsummaryResult ["31000001"] ∅)) "q" = ([], None).
Proof.
  apply (proj2 (proj2 (fetch_papers_pubmed_outcome (Json ["31000001"])
                         (fun _ => Json (EsummaryResult ["31000001"] ∅)) "q"))
           ["31000001"] "31000001"); done.
Defined.

(** PubMed: every record is labelled "PubMed", has no abstract and no tags
    yet, and none of its title, DOI, URL, authors, year, journal and source
    is empty. The URL is the doi.org link of the DOI, or the PubMed page of
    the record when the DOI is the sentinel. *)
Theorem pubmed_paper_fields_filled (esearch : http_result (list string))
    (esummary : list string -> http_result esummary_result) (q : string) :
  Forall (fun p =>
            from_pubmed p /\ query p = q
            /\ abstract p = None /\ abstract_ja p = None /\ pub_types p = None
            /\ nonempty (title p) = true /\ truthy (doi p) = true
            /\ nonempty (url p) = true /\ nonempty (authors p) = true
            /\ nonempty (year p) = true /\ nonempty (journal p) = true
            /\ nonempty (source p) = true
            /\ (exists d id, doi p = Some d /\ pmid p = Some id
                  /\ url p = if String.eqb d "(no DOI)"
                             then "https://pubmed.ncbi.nlm.nih.gov/" +:+ id
                                  +:+ "/"
                             else "https://doi.org/" +:+ d))
         (fetch_papers_pubmed esearch esummary q).1.
Proof.
  apply Forall_forall. intros p Hp.
  apply pubmed_papers_elem in Hp as (_ & _ & id & doc & _ & _ & _ & _ & ->).
  pose proof (pubmed_paper_shape q id doc) as Hshape. cbv zeta in Hshape.
  destruct Hshape as (?&?&?&?&?&?&?&?&?&?&?&?&?).
  split_and!; try done.
  exists (pubmed_doi (doc_articleids doc)), id. split_and!; [done..|].
  unfold pubmed_paper. simpl. by destruct (String.eqb _ _).
Qed.

(** A work that both providers report with the same DOI, letter case
    aside, is merged into one entry, filed under the case-folded DOI and
    labelled "Crossref+PubMed". *)
Theorem same_doi_from_both_providers
    (items : list crossref_item) (esearch : http_result (list string))
    (esummary : list string -> http_result esummary_result) (q : string)
    (it : crossref_item) (p : paper) (d d' : string) :
  it ∈ items -> it_DOI it = Some d ->
  d <> EmptyString -> d <> "(no DOI)" ->
  p ∈ (fetch_papers_pubmed esearch esummary q).1 ->
  doi p = Some d' -> d' <> "(no DOI)" -> lower d' = lower d ->
  exists e,
    entries_for (lower d)
      (merge (fetch_papers_crossref (Json items) q).1
             (fetch_papers_pubmed esearch esummary q).1)
    = [(lower d, e)]
    /\ source e = "Crossref+PubMed".
Proof.
  intros Hit Hd Hne Hsent Hp Hd' Hsent' Hlow.
  apply (dedup_loop_both_sources merge_existing merge_existing_source
           "Crossref" "PubMed"); [done| | | |].
  - eapply Forall_impl; [apply crossref_papers_from_crossref|]. by intros ? [? _].
  - apply pubmed_papers_from_pubmed.
  - exists (crossref_paper q it). split.
    + destruct items as [|it0 items0]; [by apply elem_of_nil in Hit|].
      cbn [fetch_papers_crossref negb list_truthy fst].
      by apply list_elem_of_fmap_2.
    + apply dedup_key_doi; [|done..]. unfold crossref_paper. simpl.
      by rewrite Hd.
  - exists p. split; [done|]. rewrite <- Hlow. apply dedup_key_doi; [done| |done].
    pose proof (pubmed_papers_doi_truthy esearch esummary q p Hp) as Ht.
    rewrite Hd' in Ht. by destruct d'.
Qed.

End Normalizers.

(** ** The merger, continued *)

Section MergerMore.
Import PyStr PyStrFacts PyList PyListFacts ODict ODictFacts.

Lemma elem_get {V} (k : string) (v : V) (d : ODict.t V) :
  NoDup (keys d) -> (k, v) ∈ d -> get k d = Some v.
Proof.
  induction d as [|[k' v'] d IH]; simpl; [by intros _ ?%elem_of_nil|].
  intros [Hk' Hnd]%NoDup_cons [[= -> ->]|Hin]%elem_of_cons.
  - by rewrite String.eqb_refl.
  - destruct (String.eqb_spec k' k) as [->|Hne]; [|by apply IH].
    destruct Hk'. apply (list_elem_of_fmap_2 fst) in Hin. done.
Qed.

Lemma same_identity_refl (p : paper) : same_identity p p.
Proof. by repeat split. Qed.

Lemma same_identity_trans (p1 p2 p3 : paper) :
  same_identity p1 p2 -> same_identity p2 p3 -> same_identity p1 p3.
Proof. unfold same_identity. naive_solver congruence. Qed.

Lemma merge_existing_identity (e p : paper) :
  same_identity (merge_existing e p) e.
Proof. by merge_existing_cases e p. Qed.

Lemma merge_existing_v1_identity (e p : paper) :
  same_identity (merge_existing_v1 e p) e.
Proof.
  unfold merge_existing_v1. by destruct (negb (str_in _ _)).
Qed.

(** An entry starts as the first record of its key and is then changed by
    collisions only. *)
Lemma dedup_loop_entry (f : paper -> paper -> paper) (l : list paper)
    (k : string) (e : paper) :
  (k, e) ∈ dedup_loop f l ->
  exists first rest,
    List.filter (has_key k) l = first :: rest
    /\ fold_left (collide f) rest (Some first) = Some e.
Proof.
  intros Hin. apply elem_get in Hin; [|apply keys_dedup_loop_NoDup].
  unfold dedup_loop in Hin. rewrite get_dedup_fold in Hin. simpl in Hin.
  destruct (List.filter (has_key k) l) as [|first rest]; [done|].
  by exists first, rest.
Qed.

Lemma collide_fold_some (f : paper -> paper -> paper) (l : list paper)
    (e0 : paper) :
  exists e, fold_left (collide f) l (Some e0) = Some e.
Proof.
  revert e0. induction l as [|p l IH]; intros e0; simpl; [by exists e0|].
  apply IH.
Qed.

Lemma collide_fold_invariant (f : paper -> paper -> paper)
    (R : paper -> Prop) (l : list paper) (e0 e : paper) :
  (forall e p, R e -> R (f e p)) ->
  R e0 -> fold_left (collide f) l (Some e0) = Some e -> R e.
Proof.
  intros Hf. revert e0. induction l as [|p l IH]; intros e0 H0; simpl.
  - by intros [= <-].
  - apply IH. by apply Hf.
Qed.

(** First writer wins: the title, DOI, URL, authors, year, journal and
    query of an entry are those of the first record of the input that has
    its key. *)
Theorem merge_first_writer_wins :
  forall merge_fn, merge_fn = merge \/ merge_fn = merge_v1 ->
  forall (a b : list paper) (k : string) (e : paper),
    (k, e) ∈ merge_fn a b ->
    exists first rest,
      List.filter (has_key k) (a ++ b) = first :: rest
      /\ dedup_key first = k
      /\ same_identity e first.
Proof.
  assert (forall f, (forall e p, same_identity (f e p) e) ->
          forall l k e, (k, e) ∈ dedup_loop f l ->
          exists first rest,
            List.filter (has_key k) l = first :: rest
            /\ dedup_key first = k /\ same_identity e first) as Hgen.
  { intros f Hf l k e Hin.
    apply dedup_loop_entry in Hin as (first & rest & Hfilter & Hfold).
    exists first, rest. split_and!; [done| |].
    - assert (In first (List.filter (has_key k) l)) as Hfirst
        by (rewrite Hfilter; by left).
      apply filter_In in Hfirst as [_ Hk]. by apply bool_decide_eq_true_1 in Hk.
    - apply (collide_fold_invariant f (fun e => same_identity e first)
               rest first e); [|apply same_identity_refl|done].
      intros e' p He'. by eapply same_identity_trans. }
  intros merge_fn [-> | ->] a b k e.
  - apply Hgen, merge_existing_identity.
  - apply Hgen, merge_existing_v1_identity.
Qed.

Lemma merge_first_writer_wins_witness :
  exists first rest,
    List.filter (has_key "10.1/x") ([Sample.from_a] ++ [Sample.from_b])
    = first :: rest
    /\ dedup_key first = "10.1/x"
    /\ same_identity
         (set_pmid (Some "31000001")
            (set_source "Crossref+PubMed" Sample.from_a)) first.
Proof.
  apply (merge_first_writer_wins merge (or_introl eq_refl)
           [Sample.from_a] [Sample.from_b]).
  vm_compute. left.
Defined.

Lemma abstract_merge_existing (e p : paper) :
  abstract (merge_existing e p)
  = if negb (truthy (abstract e)) && truthy (abstract p) then abstract p
    else abstract e.
Proof. by merge_existing_cases e p. Qed.

(** A field that a collision fills only while it is empty ends as its first
    truthy value. *)
Lemma collide_fold_first_truthy (f : paper -> option string)
    (l : list paper) (e0 e : paper) :
  (forall e p, f (merge_existing e p)
               = if negb (truthy (f e)) && truthy (f p) then f p else f e) ->
  fold_left (collide merge_existing) l (Some e0) = Some e ->
  f e = match first_truthy f (e0 :: l) with
        | Some p => f p
        | None => f e0
        end.
Proof.
  intros Hf. unfold first_truthy. revert e0.
  induction l as [|p l IH]; intros e0; simpl.
  - intros [= <-]. by destruct (truthy (f e0)).
  - intros Hfold. apply IH in Hfold. rewrite Hfold. clear Hfold IH.
    cbn [List.find]. pose proof (Hf e0 p) as Hm.
    destruct (truthy (f e0)) eqn:H0; simpl in Hm.
    + rewrite Hm, H0. simpl. by rewrite Hm.
    + destruct (truthy (f p)) eqn:Hp; rewrite Hm.
      * rewrite Hp. simpl. by rewrite Hm.
      * rewrite H0. by destruct (List.find _ l).
Qed.

(** The PubMed id and the abstract of an entry are the first truthy ones
    among the records of its key, in input order; when none of them has
    one, they are those of the first record. *)
Theorem merge_keeps_first_value (a b : list paper) (k : string) (e : paper) :
  (k, e) ∈ merge a b ->
  let same := List.filter (has_key k) (a ++ b) in
  pmid e = match first_truthy pmid same with
           | Some p => pmid p
           | None => mbind pmid (head same)
           end
  /\ abstract e = match first_truthy abstract same with
                  | Some p => abstract p
                  | None => mbind abstract (head same)
                  end.
Proof.
  intros Hin same. subst same.
  apply dedup_loop_entry in Hin as (first & rest & -> & Hfold). split.
  - rewrite (collide_fold_first_truthy pmid rest first e
               pmid_merge_existing Hfold).
    by destruct (first_truthy pmid (first :: rest)).
  - rewrite (collide_fold_first_truthy abstract rest first e
               abstract_merge_existing Hfold).
    by destruct (first_truthy abstract (first :: rest)).
Qed.

Lemma merge_keeps_first_value_witness :
  let e := set_pmid (Some "31000001")
             (set_source "Crossref+PubMed" Sample.from_a) in
  let same := List.filter (has_key "10.1/x")
                          ([Sample.from_a] ++ [Sample.from_b]) in
  pmid e = match first_truthy pmid same with
           | Some p => pmid p
           | None => mbind pmid (head same)
           end
  /\ abstract e = match first_truthy abstract same with
                  | Some p => abstract p
                  | None => mbind abstract (head same)
                  end.
Proof.
  apply (merge_keeps_first_value [Sample.from_a] [Sample.from_b] "10.1/x").
  vm_compute. left.
Defined.

(** The mapping has exactly the keys of the records: every record finds an
    entry under its key, every key belongs to some record, no key occurs
    twice, and there are no more entries than records. It is empty only
    for no records. *)
Theorem merge_keys_are_the_record_keys :
  forall merge_fn, merge_fn = merge \/ merge_fn = merge_v1 ->
  forall a b : list paper,
    (forall p, p ∈ a ++ b -> is_Some (get (dedup_key p) (merge_fn a b)))
    /\ (forall k, k ∈ keys (merge_fn a b) ->
                  exists p, p ∈ a ++ b /\ dedup_key p = k)
    /\ NoDup (keys (merge_fn a b))
    /\ (length (merge_fn a b) <= length a + length b)%nat
    /\ (merge_fn a b = [] <-> a ++ b = []).
Proof.
  assert (forall f l,
    (forall p, p ∈ l -> is_Some (get (dedup_key p) (dedup_loop f l)))
    /\ (forall k, k ∈ keys (dedup_loop f l) ->
                  exists p, p ∈ l /\ dedup_key p = k)
    /\ NoDup (keys (dedup_loop f l))
    /\ (length (dedup_loop f l) <= length l)%nat
    /\ (dedup_loop f l = [] <-> l = [])) as Hgen.
  { intros f l.
    assert (forall k, k ∈ keys (dedup_loop f l)
                      <-> exists p, p ∈ l /\ dedup_key p = k) as Hkeys.
    { intros k. rewrite keys_dedup_loop. unfold first_seen.
      rewrite first_seen_from_elem, list_elem_of_fmap.
      pose proof (not_elem_of_nil k). naive_solver. }
    split_and!.
    - intros p Hp. apply not_eq_None_Some. rewrite get_None.
      intros Hnot. apply Hnot, Hkeys. by exists p.
    - intros k. apply Hkeys.
    - apply keys_dedup_loop_NoDup.
    - rewrite <- (length_map fst (dedup_loop f l)).
      change (map fst (dedup_loop f l)) with (keys (dedup_loop f l)).
      rewrite keys_dedup_loop, <- (length_map dedup_key l).
      apply sublist_length, first_seen_from_sublist.
    - split; [|by intros ->].
      intros Hnil. destruct l as [|p l]; [done|].
      assert (dedup_key p ∈ keys (dedup_loop f (p :: l))) as Hk
        by (apply Hkeys; exists p; split; [left | done]).
      rewrite Hnil in Hk. by apply elem_of_nil in Hk. }
  intros merge_fn [-> | ->] a b;
    destruct (Hgen merge_existing (a ++ b)) as (?&?&?&Hlen&?);
    destruct (Hgen merge_existing_v1 (a ++ b)) as (?&?&?&Hlen1&?);
    rewrite length_app in Hlen, Hlen1; done.
Qed.

Lemma merge_keys_are_the_record_keys_witness :
  is_Some (get (dedup_key Sample.from_b)
               (merge [Sample.from_a] [Sample.from_b])).
Proof.
  apply (proj1 (merge_keys_are_the_record_keys merge (or_introl eq_refl)
                  [Sample.from_a] [Sample.from_b])).
  right. left.
Defined.

Lemma values_dedup_keys (f : paper -> paper -> paper) (l : list paper) :
  (forall e p, dedup_key (f e p) = dedup_key e) ->
  map dedup_key (values (dedup_loop f l)) = keys (dedup_loop f l).
Proof.
  intros Hf. unfold values, keys. rewrite map_map.
  apply map_ext_in. intros [k e] Hin. simpl.
  apply (dedup_loop_key f Hf l). by apply list_elem_of_In.
Qed.

Lemma rank_sublist_perm (merged : ODict.t paper) (q : string) (top_n : Z) :
  exists full, full ≡ₚ values merged /\ sublist (rank merged q top_n) full.
Proof.
  exists (sort (rank_le q) (values merged)). split; [apply sort_perm|].
  rewrite rank_as_sort. unfold slice_to.
  destruct (0 <=? top_n); apply sublist_take.
Qed.

Lemma rank_dedup_keys_NoDup (f : paper -> paper -> paper) :
  (forall e p, dedup_key (f e p) = dedup_key e) ->
  forall l q top_n, NoDup (map dedup_key (rank (dedup_loop f l) q top_n)).
Proof.
  intros Hf l q top_n.
    destruct (rank_sublist_perm (dedup_loop f l) q top_n)
      as (full & Hperm & Hsub).
    assert (sublist (dedup_key <$> rank (dedup_loop f l) q top_n)
                    (dedup_key <$> full)) as Hs
      by (by apply (fmap_sublist dedup_key)).
    assert (NoDup (dedup_key <$> full)) as Hn.
    { rewrite Hperm.
      change (NoDup (map dedup_key (values (dedup_loop f l)))).
      rewrite values_dedup_keys by done. apply keys_dedup_loop_NoDup. }
    eapply sublist_NoDup; eassumption.
Qed.

Lemma merge_and_score_keys_NoDup (a b : list paper) (q : string) (top_n : Z) :
  NoDup (map dedup_key (merge_and_score a b q top_n)).
Proof.
  rewrite merge_and_score_rank. apply rank_dedup_keys_NoDup, merge_existing_key.
Qed.

(** The ranking lists no work twice: the records it returns are entries of
    the merged mapping, with pairwise different dedup keys. *)
Theorem merge_and_score_lists_no_work_twice :
  forall (a b : list paper) (q : string) (top_n : Z),
    NoDup (map dedup_key (merge_and_score a b q top_n))
    /\ NoDup (map dedup_key (merge_and_score_v1 a b q top_n))
    /\ (forall p, p ∈ merge_and_score a b q top_n -> p ∈ values (merge a b)).
Proof.
  intros a b q top_n. split_and!.
  - apply merge_and_score_keys_NoDup.
  - unfold merge_and_score_v1, merge_v1.
    destruct (a ++ b) eqn:Hab; [apply NoDup_nil_2|]. rewrite <- Hab.
    apply rank_dedup_keys_NoDup, merge_existing_v1_key.
  - intros p. rewrite merge_and_score_rank.
    destruct (rank_sublist_perm (merge a b) q top_n) as (full & Hperm & Hsub).
    intros Hp. rewrite <- Hperm. by eapply elem_of_sublist.
Qed.

End MergerMore.

(** ** Enrichment, continued *)

Section EnrichmentMore.
Import PyStr PyStrFacts PyList PyListFacts ODict ODictFacts.

(** Where an entry of [info_map] comes from. *)
Lemma fetch_pubmed_abstracts_entry (efetch : list string -> efetch_response)
    (pmids : list string) (id : string) (info : pubmed_info) :
  fetch_pubmed_abstracts efetch pmids !! id = Some info ->
  exists arts a,
    efetch pmids = Articles arts /\ a ∈ arts
    /\ truthy (art_pmid a) = true
    /\ strip (default EmptyString (art_pmid a)) = id
    /\ info = info_of_article a.
Proof.
  unfold fetch_pubmed_abstracts. destruct pmids as [|pm pmids']; [done|].
  destruct (efetch (pm :: pmids')) as [| |arts]; [done..|].
  intros Hlook. exists arts.
  assert (forall (m : gmap string pubmed_info),
    fold_left
      (fun info_map a =>
         if truthy (art_pmid a)
         then <[strip (default EmptyString (art_pmid a))
                := info_of_article a]> info_map
         else info_map) arts m !! id = Some info ->
    m !! id = Some info
    \/ exists a, a ∈ arts /\ truthy (art_pmid a) = true
                 /\ strip (default EmptyString (art_pmid a)) = id
                 /\ info = info_of_article a) as Hfold.
  { clear Hlook. induction arts as [|a arts IH]; intros m; simpl; [by left|].
    intros Hm. apply IH in Hm as [Hm | (a' & Ha' & ?)].
    - destruct (truthy (art_pmid a)) eqn:Ht; [|by left].
      apply lookup_insert_Some in Hm as [[<- <-] | [_ Hm]]; [|by left].
      right. exists a. split_and!; [left|done..].
    - right. exists a'. split; [by right | done]. }
  apply Hfold in Hlook as [Hempty | (a & ? & ? & ? & ?)]; [done|].
  by exists a.
Qed.

Lemma info_of_article_abstract_truthy (a : pubmed_article) :
  truthy (info_abstract (info_of_article a)) = true.
Proof.
  unfold info_of_article. cbv zeta. cbn [info_abstract truthy].
  match goal with
  | |- context [if nonempty ?x then _ else _] =>
      destruct (nonempty x) eqn:Hn
  end; done.
Qed.

(** Every fetched entry has an abstract that is not empty, the placeholder
    "(no abstract)" when the article has none. So whenever a record finds
    its id in the fetched map, its abstract is replaced by the fetched one,
    also an abstract that the merge took from Crossref, and also by the
    placeholder. *)
Theorem enrichment_always_replaces_abstract
    (efetch : list string -> efetch_response) (pmids : list string) :
  (forall id info,
      fetch_pubmed_abstracts efetch pmids !! id = Some info ->
      truthy (info_abstract info) = true
      /\ forall p, pmid p = Some id -> nonempty id = true ->
           abstract (enrich_paper (fetch_pubmed_abstracts efetch pmids) p)
           = info_abstract info)
  /\ (forall a, art_abstract_texts a = [] ->
        info_abstract (info_of_article a) = Some "(no abstract)").
Proof.
  split.
  - intros id info Hinfo.
    pose proof (fetch_pubmed_abstracts_entry _ _ _ _ Hinfo)
      as (arts & a & _ & _ & _ & _ & ->).
    pose proof (info_of_article_abstract_truthy a) as Ht.
    split; [done|]. intros p Hid Hne. unfold enrich_paper.
    by rewrite Hid, Hne, Hinfo, Ht.
  - intros a Hnil. unfold info_of_article. by rewrite Hnil.
Qed.

Lemma enrichment_always_replaces_abstract_witness :
  let efetch := fun _ : list string =>
    Articles [PubmedArticle (Some "31000001") [] [Some "Review"]] in
  abstract (enrich_paper (fetch_pubmed_abstracts efetch ["31000001"])
              (set_abstract (Some "From Crossref") Sample.from_b))
  = Some "(no abstract)".
Proof.
  intros efetch.
  apply (proj2 (proj1 (enrichment_always_replaces_abstract efetch
                         ["31000001"])
                  "31000001"
                  (PubmedInfo (Some "(no abstract)") (Some ["Review"]))
                  eq_refl));
    reflexivity.
Defined.

Lemma enrich_paper_enriched_from (info_map : gmap string pubmed_info)
    (p : paper) :
  enriched_from p (enrich_paper info_map p).
Proof.
  assert (enriched_from p p) as Hrefl by (by repeat split).
  unfold enrich_paper.
  destruct (pmid p) as [id|] eqn:Hid; [|done].
  destruct (nonempty id); [|done].
  destruct (info_map !! id) as [info|]; [|done].
  by destruct (truthy (info_abstract info)).
Qed.

Lemma add_abstracts_enriched_from
    (efetch : list string -> efetch_response) (papers : list paper) :
  Forall2 enriched_from papers (add_abstracts_to_papers efetch papers).1.
Proof.
  unfold add_abstracts_to_papers.
  destruct (requested_pmids papers) as [|id ids]; simpl.
  - induction papers; constructor; [by repeat split | done].
  - induction papers as [|p l IH]; simpl; constructor; [|done].
    apply enrich_paper_enriched_from.
Qed.

Lemma enriched_from_dedup_key (p1 p2 : paper) :
  enriched_from p1 p2 -> dedup_key p2 = dedup_key p1.
Proof.
  intros [[(Ht & Hd & _ & _ & Hy & _) _] _].
  unfold dedup_key. by rewrite Ht, Hd, Hy.
Qed.

(** Enrichment changes abstracts and tags only: it returns as many records,
    in the same order, each with the identity fields, source, PubMed id and
    translation of its input, hence with its dedup key; and it calls the
    fetch at most once. *)
Theorem enrichment_keeps_the_listing
    (efetch : list string -> efetch_response) (papers : list paper) :
  let out := add_abstracts_to_papers efetch papers in
  Forall2 enriched_from papers out.1
  /\ length out.1 = length papers
  /\ map dedup_key out.1 = map dedup_key papers
  /\ (length out.2 <= 1)%nat
  /\ (forall ids, ids ∈ out.2 -> ids = requested_pmids papers /\ ids <> []).
Proof.
  intros out. subst out. unfold add_abstracts_to_papers.
  assert (forall m, Forall2 enriched_from papers (map (enrich_paper m) papers))
    as Hall.
  { intros m. induction papers as [|p l IH]; simpl; constructor; [|done].
    apply enrich_paper_enriched_from. }
  assert (forall l1 l2, Forall2 enriched_from l1 l2 ->
            map dedup_key l2 = map dedup_key l1) as Hkeys.
  { induction 1 as [|p1 p2 l1 l2 Hp _ IH]; simpl; [done|]. f_equal; [|done].
    destruct Hp as [[(Ht & Hd & _ & _ & Hy & _) _] _].
    unfold dedup_key. by rewrite Ht, Hd, Hy. }
  destruct (requested_pmids papers) as [|id ids] eqn:Hreq; simpl.
  - split_and!; [|done| |lia|by intros ? ?%elem_of_nil].
    + clear. induction papers; constructor; [|done].
      by repeat split.
    + done.
  - split_and!; [apply Hall | by rewrite length_map | apply Hkeys, Hall
                 | done |].
    by intros ? ->%list_elem_of_singleton.
Qed.

Lemma string_leb_trans (a b c : string) :
  String.leb a b = true -> String.leb b c = true -> String.leb a c = true.
Proof.
  intros Hab Hbc. apply Is_true_true.
  apply Is_true_true in Hab, Hbc.
  by apply (PreOrder_Transitive (R:=String.le) a b c).
Qed.

(** The ids the enrichment asks for are the truthy PubMed ids of the
    records that name PubMed in their source, each once, in ascending
    order. *)
Theorem requested_pmids_sorted_set (papers : list paper) :
  NoDup (requested_pmids papers)
  /\ StronglySorted (fun a b => String.leb a b = true) (requested_pmids papers)
  /\ (forall id, id ∈ requested_pmids papers
        <-> exists p, p ∈ papers /\ pmid p = Some id /\ nonempty id = true
                      /\ str_in "PubMed" (source p) = true).
Proof.
  split_and!.
  - unfold requested_pmids. rewrite sort_perm, unique_in_order_first_seen.
    apply first_seen_from_NoDup.
  - apply sort_sorted; [apply String.leb_total | apply string_leb_trans].
  - apply requested_pmids_elem.
Qed.

(** Every ranking that the two normalizers feed is made of records whose
    PubMed id, when they have one, comes with PubMed in their source; so
    the enrichment asks for every truthy PubMed id the ranking carries. *)
Theorem ranked_ids_are_requested
    (resp : http_result (list crossref_item))
    (esearch : http_result (list string))
    (esummary : list string -> http_result esummary_result)
    (q : string) (top_n : Z) :
  let ranked := merge_and_score (fetch_papers_crossref resp q).1
                  (fetch_papers_pubmed esearch esummary q).1 q top_n in
  Forall pmid_from_pubmed ranked
  /\ (forall p id, p ∈ ranked -> pmid p = Some id -> nonempty id = true ->
        id ∈ requested_pmids ranked).
Proof.
  intros ranked.
  assert (Forall pmid_from_pubmed ranked) as Hprov.
  { apply merge_and_score_pmid_from_pubmed;
      [apply crossref_papers_from_crossref | apply pubmed_papers_from_pubmed]. }
  split; [done|]. intros p id Hp Hid Hne.
  apply requested_pmids_elem. exists p. split_and!; [done..|].
  rewrite Forall_forall in Hprov. apply Hprov; [done|]. by rewrite Hid.
Qed.

End EnrichmentMore.

(** ** Translation *)

Section Translation.
Import PyStr PyStrFacts.

Lemma translated_from_refl (p : paper) : translated_from p p.
Proof. by destruct p. Qed.

Lemma translated_from_trans (p1 p2 p3 : paper) :
  translated_from p1 p2 -> translated_from p2 p3 -> translated_from p1 p3.
Proof. unfold translated_from. intros -> ->. done. Qed.

Lemma translated_from_set (v : option string) (p : paper) :
  translated_from p (set_abstract_ja v p).
Proof. done. Qed.

Lemma Forall2_translated_refl (l : list paper) : Forall2 translated_from l l.
Proof. induction l; constructor; [apply translated_from_refl | done]. Qed.

Lemma Forall2_translated_trans (l1 l2 l3 : list paper) :
  Forall2 translated_from l1 l2 -> Forall2 translated_from l2 l3 ->
  Forall2 translated_from l1 l3.
Proof.
  intros H12. revert l3. induction H12 as [|p1 p2 l1 l2 Hp _ IH]; intros l3 H23.
  - by apply Forall2_nil_inv_l in H23 as ->.
  - apply Forall2_cons_inv_l in H23 as (p3 & l3' & Hp' & H23 & ->).
    constructor; [by eapply translated_from_trans | by apply IH].
Qed.

(** What is collected: ascending positions of the list, each of a record
    with a truthy abstract, with that abstract. *)
Lemma abstracts_from_elem (i : nat) (papers : list paper) (k idx : nat)
    (text : string) :
  abstracts_from i papers !! k = Some (idx, text) ->
  (i <= idx)%nat
  /\ exists p, papers !! (idx - i)%nat = Some p
               /\ truthy (abstract p) = true /\ abstract p = Some text.
Proof.
  revert i k. induction papers as [|p papers IH]; intros i k; simpl; [done|].
  assert (forall k', abstracts_from (S i) papers !! k' = Some (idx, text) ->
            (i <= idx)%nat
            /\ exists p0, (p :: papers) !! (idx - i)%nat = Some p0
                          /\ truthy (abstract p0) = true
                          /\ abstract p0 = Some text) as Hrest.
  { intros k' Hk'. apply IH in Hk' as (Hle & p0 & Hp0 & ?).
    split; [lia|]. exists p0. split; [|done].
    replace (idx - i)%nat with (S (idx - S i)) by lia. done. }
  destruct (truthy (abstract p)) eqn:Hp; [|apply Hrest].
  destruct k as [|k]; simpl; [|apply Hrest].
  intros [= <- <-]. split; [done|]. exists p. rewrite Nat.sub_diag.
  split_and!; [done..|]. by destruct (abstract p).
Qed.

Lemma abstracts_from_lt (i : nat) (papers : list paper) (k1 k2 idx1 idx2 : nat)
    (t1 t2 : string) :
  (k1 < k2)%nat ->
  abstracts_from i papers !! k1 = Some (idx1, t1) ->
  abstracts_from i papers !! k2 = Some (idx2, t2) ->
  (idx1 < idx2)%nat.
Proof.
  revert i k1 k2. induction papers as [|p papers IH]; intros i k1 k2 Hk;
    simpl; [done|].
  destruct (truthy (abstract p)); [|by apply IH].
  destruct k1 as [|k1], k2 as [|k2]; simpl; try lia.
  - intros [= <- _] H2. apply abstracts_from_elem in H2 as [? _]. lia.
  - apply IH. lia.
Qed.

(** Outside the positions it is given, the last loop changes nothing. *)
Lemma apply_translations_other (i : nat) (idxs : list nat)
    (translations : list deepl_translation) (updated out : list paper)
    (j : nat) :
  apply_translations i idxs translations updated = Some out ->
  j ∉ idxs -> out !! j = updated !! j.
Proof.
  revert i updated. induction idxs as [|idx idxs IH]; intros i updated; simpl.
  - by intros [= <-].
  - intros Happ [Hne Hj]%not_elem_of_cons.
    destruct (translations !! i) as [[|ja]|];
      [done | | by injection Happ as <-].
    destruct (truthy ja).
    + destruct (updated !! idx) as [p|]; [|done].
      rewrite (IH _ _ Happ Hj). by apply list_lookup_insert_ne.
    + by apply (IH _ _ Happ).
Qed.

(** What the last loop returns differs from its input in translations
    only. *)
Lemma apply_translations_returns (i : nat) (idxs : list nat)
    (translations : list deepl_translation) (updated out : list paper) :
  apply_translations i idxs translations updated = Some out ->
  Forall2 translated_from updated out.
Proof.
  revert i updated.
  induction idxs as [|idx idxs IH]; intros i updated; simpl.
  - intros [= <-]. apply Forall2_translated_refl.
  - destruct (translations !! i) as [[|ja]|];
      [done | | intros [= <-]; apply Forall2_translated_refl].
    destruct (truthy ja); [|by apply IH].
    destruct (updated !! idx) as [p|] eqn:Hp; [|done].
    intros Happ. apply IH in Happ.
    eapply Forall2_translated_trans; [|exact Happ].
    rewrite <- (list_insert_id updated idx p Hp) at 1.
    apply Forall2_insert; [apply Forall2_translated_refl|].
    apply translated_from_set.
Qed.

(** With positions inside the list, the last loop raises exactly when it
    comes to an entry that is no object: the index is always in range. *)
Lemma apply_translations_raises (i : nat) (idxs : list nat)
    (translations : list deepl_translation) (updated : list paper) :
  Forall (fun idx => (idx < length updated)%nat) idxs ->
  apply_translations i idxs translations updated = None
  <-> exists k, (k < length idxs)%nat
                /\ translations !! (i + k)%nat = Some NotAnObject.
Proof.
  revert i updated.
  induction idxs as [|idx idxs IH]; intros i updated Hin; simpl.
  - split; [done|]. intros (k & Hk & _). lia.
  - apply Forall_cons in Hin as [Hidx Hin].
    destruct (translations !! i) as [[|ja]|] eqn:Hi.
    + split; [|done]. intros _. exists 0%nat.
      rewrite Nat.add_0_r. split; [lia | done].
    + assert ((exists k, (k < S (length idxs))%nat
                         /\ translations !! (i + k)%nat = Some NotAnObject)
              <-> (exists k, (k < length idxs)%nat
                             /\ translations !! (S i + k)%nat
                                = Some NotAnObject)) as Hshift.
      { split.
        - intros ([|k] & Hk & Hbad).
          + rewrite Nat.add_0_r in Hbad. congruence.
          + exists k. split; [lia|].
            by replace (S i + k)%nat with (i + S k)%nat by lia.
        - intros (k & Hk & Hbad). exists (S k). split; [lia|].
          by replace (i + S k)%nat with (S i + k)%nat by lia. }
      rewrite Hshift.
      destruct (truthy ja); [|by apply IH].
      destruct (lookup_lt_is_Some_2 updated idx Hidx) as [p Hp]. rewrite Hp.
      apply IH. by rewrite length_insert.
    + split; [done|]. intros (k & _ & Hbad).
      apply lookup_ge_None in Hi.
      rewrite (proj2 (lookup_ge_None translations (i + k))) in Hbad by lia.
      done.
Qed.

Lemma abstracts_from_idxs_in_range (papers : list paper) :
  Forall (fun idx => (idx < length papers)%nat)
         (map fst (abstracts_from 0 papers)).
Proof.
  apply Forall_forall. intros idx Hidx.
  apply list_elem_of_fmap in Hidx as ([idx' text] & -> & Hin).
  apply list_elem_of_lookup in Hin as [k Hk].
  apply abstracts_from_elem in Hk as (_ & p & Hp & _).
  rewrite Nat.sub_0_r in Hp. by apply lookup_lt_Some in Hp.
Qed.

(** What the stage returns differs from its input in translations only,
    and only at the positions of records with an abstract. *)
Lemma translate_abstracts_ja_returns (enabled : bool)
    (deepl : list string -> deepl_response) (papers out : list paper) :
  translate_abstracts_ja enabled deepl papers = Some out ->
  Forall2 translated_from papers out
  /\ (forall j, j ∉ map fst (abstracts_from 0 papers) ->
        out !! j = papers !! j).
Proof.
  unfold translate_abstracts_ja.
  assert (Some papers = Some out ->
          Forall2 translated_from papers out
          /\ (forall j, j ∉ map fst (abstracts_from 0 papers) ->
                out !! j = papers !! j)) as Hsame.
  { intros [= <-]. split; [apply Forall2_translated_refl | done]. }
  destruct enabled; simpl; [|exact Hsame].
  destruct (list_truthy (map snd (abstracts_from 0 papers))); simpl;
    [|exact Hsame].
  destruct (deepl _) as [| | | |translations]; try exact Hsame; [done|].
  intros Hout. split.
  - by eapply apply_translations_returns.
  - intros j Hj. by apply (apply_translations_other _ _ _ _ _ _ Hout).
Qed.

(** The stage raises exactly on an answer of an unexpected shape. *)
Lemma translate_abstracts_ja_raises (enabled : bool)
    (deepl : list string -> deepl_response) (papers : list paper) :
  let texts := map snd (abstracts_from 0 papers) in
  translate_abstracts_ja enabled deepl papers = None
  <-> enabled = true /\ texts <> []
      /\ bad_shape (length texts) (deepl texts).
Proof.
  cbv zeta. unfold translate_abstracts_ja, bad_shape.
  set (texts := map snd (abstracts_from 0 papers)).
  assert (length texts = length (map fst (abstracts_from 0 papers))) as Hlen.
  { unfold texts. by rewrite !length_map. }
  clearbody texts.
  destruct enabled; simpl; [|split; [done | by intros (? & _)]].
  destruct (list_truthy texts) eqn:Hne; simpl;
    [|split; [done | intros (_ & ? & _); by destruct texts]].
  assert (texts <> []) as Hnil by (by destruct texts).
  destruct (deepl texts) as [| | | |translations] eqn:Hd.
  - split; [done|]. intros (_ & _ & [?|(? & ? & ? & _)]); done.
  - split; [done|]. intros (_ & _ & [?|(? & ? & ? & _)]); done.
  - split; [|done]. intros _. split_and!; [done..|by left].
  - split; [done|]. intros (_ & _ & [?|(? & ? & ? & _)]); done.
  - rewrite (apply_translations_raises 0 _ translations papers
               (abstracts_from_idxs_in_range papers)).
    rewrite <- Hlen. split.
    + intros (k & Hk & Hbad). split_and!; [done..|].
      right. by exists translations, k.
    + intros (_ & _ & [?|(tr & k & [= <-] & Hk & Hbad)]); [done|].
      by exists k.
Qed.

(** Translation is best effort towards the service, not towards the
    shape of its answer. It raises exactly when it is switched on, some
    record has an abstract, and the decoded document is not an object or
    one of the entries that are read is not an object; the index into the
    copy is always in range. When it returns, it returns as many records,
    each equal to its input but for the translated abstract, and a record
    without an abstract as it is. The input comes back unchanged when
    translation is switched off, when no record has an abstract, when the
    request or its decoding fails, and when the translations are not a
    list. *)
Theorem translation_fails_on_shape_only (enabled : bool)
    (deepl : list string -> deepl_response) (papers : list paper) :
  let texts := map snd (abstracts_from 0 papers) in
  (translate_abstracts_ja enabled deepl papers = None
   <-> enabled = true /\ texts <> []
       /\ bad_shape (length texts) (deepl texts))
  /\ (forall out,
        translate_abstracts_ja enabled deepl papers = Some out ->
        Forall2 translated_from papers out
        /\ length out = length papers
        /\ (forall i p, papers !! i = Some p ->
              truthy (abstract p) = false -> out !! i = Some p))
  /\ (enabled = false
      \/ Forall (fun p => truthy (abstract p) = false) papers
      \/ deepl texts = DeeplRequestFailed
      \/ deepl texts = DeeplJsonError
      \/ deepl texts = DeeplNotAList ->
      translate_abstracts_ja enabled deepl papers = Some papers).
Proof.
  intros texts. split_and!.
  - apply translate_abstracts_ja_raises.
  - intros out Hout.
    apply translate_abstracts_ja_returns in Hout as (Hall & Hother).
    split_and!; [done| |].
    + symmetry. by eapply Forall2_length.
    + intros i p Hp Hno. rewrite Hother; [done|].
      intros ([idx text] & -> & Hin)%list_elem_of_fmap.
      apply list_elem_of_lookup in Hin as [k Hk].
      apply abstracts_from_elem in Hk as (_ & p' & Hp' & Ht & _).
      rewrite Nat.sub_0_r in Hp'. simpl in Hp. congruence.
  - unfold translate_abstracts_ja. fold texts.
    intros [-> | [Hnone | Hfail]]; [done| |].
    + assert (abstracts_from 0 papers = []) as Hnil.
      { clear -Hnone. generalize 0%nat as i.
        induction Hnone as [|p l Hp _ IH]; intros i; simpl; [done|].
        by rewrite Hp. }
      unfold texts. rewrite Hnil. by destruct enabled.
    + destruct enabled; simpl; [|done].
      destruct (list_truthy texts); simpl; [|done].
      by destruct Hfail as [-> | [-> | ->]].
Qed.

Lemma translation_fails_on_shape_only_witness :
  translate_abstracts_ja true (fun _ => DeeplTranslations [NotAnObject])
    [set_abstract (Some "Text") Sample.from_a] = None
  /\ translate_abstracts_ja true (fun _ => DeeplRequestFailed)
       [set_abstract (Some "Text") Sample.from_a]
     = Some [set_abstract (Some "Text") Sample.from_a].
Proof.
  split.
  - apply (proj1 (translation_fails_on_shape_only true
                    (fun _ => DeeplTranslations [NotAnObject])
                    [set_abstract (Some "Text") Sample.from_a])).
    split_and!; [done..|]. right. exists [NotAnObject], 0%nat.
    split_and!; [reflexivity | vm_compute; lia | reflexivity].
  - apply (proj2 (proj2 (translation_fails_on_shape_only true
                           (fun _ => DeeplRequestFailed)
                           [set_abstract (Some "Text") Sample.from_a]))).
    right. right. by left.
Defined.

(** Translations are paired with abstracts by position: the k-th
    record that has an abstract gets the k-th translation when that one is
    there and not empty, and is left as it is otherwise. So a short answer
    leaves the last abstracts untranslated, and surplus translations are
    dropped. *)
Theorem translation_pairs_by_position
    (deepl : list string -> deepl_response) (papers out : list paper)
    (translations : list deepl_translation) :
  deepl (map snd (abstracts_from 0 papers)) = DeeplTranslations translations ->
  translate_abstracts_ja true deepl papers = Some out ->
  forall k idx text,
    abstracts_from 0 papers !! k = Some (idx, text) ->
    exists p,
      papers !! idx = Some p /\ abstract p = Some text
      /\ out !! idx
         = Some (match translations !! k with
                 | Some (Translation ja) =>
                     if truthy ja then set_abstract_ja ja p else p
                 | _ => p
                 end).
Proof.
  intros Hd Hout k idx text Hk.
  pose proof (abstracts_from_elem _ _ _ _ _ Hk) as (_ & p & Hp & _ & Htext).
  rewrite Nat.sub_0_r in Hp. exists p. split_and!; [done..|].
  unfold translate_abstracts_ja in Hout. simpl in Hout.
  assert (list_truthy (map snd (abstracts_from 0 papers)) = true) as Hne
    by (by destruct (abstracts_from 0 papers)).
  rewrite Hne, Hd in Hout. simpl in Hout.
  assert (forall found i updated k,
    apply_translations i (map fst found) translations updated = Some out ->
    found !! k = Some (idx, text) ->
    (forall k1 k2 i1 i2 t1 t2, (k1 < k2)%nat ->
       found !! k1 = Some (i1, t1) -> found !! k2 = Some (i2, t2) ->
       (i1 < i2)%nat) ->
    updated !! idx = Some p ->
    out !! idx
    = Some (match translations !! (i + k)%nat with
            | Some (Translation ja) =>
                if truthy ja then set_abstract_ja ja p else p
            | _ => p
            end)) as Hgen.
  { clear. induction found as [|[idx0 t0] found IH];
      intros i updated k Happ Hk Hinc Hp; [done|].
    simpl in Happ.
    assert (forall k' t', found !! k' = Some (idx, t') -> (idx0 < idx)%nat)
      as Hlater.
    { intros k' t' Hk'. by apply (Hinc 0%nat (S k') idx0 idx t0 t'); [lia|..]. }
    assert (forall k1 k2 i1 i2 t1 t2, (k1 < k2)%nat ->
              found !! k1 = Some (i1, t1) -> found !! k2 = Some (i2, t2) ->
              (i1 < i2)%nat) as Hinc'.
    { intros k1 k2 i1 i2 t1 t2 Hlt H1 H2.
      by apply (Hinc (S k1) (S k2) i1 i2 t1 t2); [lia|..]. }
    destruct k as [|k]; simpl in Hk.
    - injection Hk as -> ->. rewrite Nat.add_0_r.
      assert (idx ∉ map fst found) as Hnotin.
      { intros ([i' t'] & Heq & Hin)%list_elem_of_fmap. simpl in Heq. subst i'.
        apply list_elem_of_lookup in Hin as [k' Hk'].
        apply Hlater in Hk'. lia. }
      destruct (translations !! i) as [[|ja]|];
        [done | | by injection Happ as <-].
      destruct (truthy ja).
      + rewrite Hp in Happ.
        rewrite (apply_translations_other _ _ _ _ _ _ Happ Hnotin).
        apply list_lookup_insert_eq. by apply lookup_lt_Some in Hp.
      + by rewrite (apply_translations_other _ _ _ _ _ _ Happ Hnotin).
    - specialize (Hlater k text Hk).
      replace (i + S k)%nat with (S i + k)%nat by lia.
      destruct (translations !! i) as [[|ja]|] eqn:Hi; [done| |].
      + destruct (truthy ja).
        * destruct (updated !! idx0) as [p0|] eqn:Hp0; [|done].
          apply (IH (S i) _ k Happ Hk Hinc').
          rewrite list_lookup_insert_ne by lia. done.
        * by apply (IH (S i) _ k Happ Hk Hinc').
      + injection Happ as <-. rewrite Hp.
        apply lookup_ge_None in Hi.
        by rewrite (proj2 (lookup_ge_None translations (S i + k)))
          by lia. }
  apply (Hgen (abstracts_from 0 papers) 0%nat papers k Hout Hk); [|done].
  intros k1 k2 i1 i2 t1 t2. apply abstracts_from_lt.
Qed.

Lemma translation_pairs_by_position_witness :
  let papers := [set_abstract (Some "One") Sample.from_a; Sample.other;
                 set_abstract (Some "Two") Sample.from_b] in
  let deepl :=
    fun _ : list string => DeeplTranslations [Translation (Some "Ichi")] in
  exists p,
    papers !! 2%nat = Some p /\ abstract p = Some "Two"
    /\ default [] (translate_abstracts_ja true deepl papers) !! 2%nat
       = Some p.
Proof.
  intros papers deepl.
  apply (translation_pairs_by_position deepl papers
           (default [] (translate_abstracts_ja true deepl papers))
           [Translation (Some "Ichi")] eq_refl eq_refl 1%nat 2%nat "Two"
           eq_refl).
Defined.

End Translation.

(** ** The two scripts side by side *)

Section Siblings.
Import PyStr PyStrFacts PyList PyListFacts ODict ODictFacts.

Lemma same_listing_refl (p : paper) : same_listing p p.
Proof. by repeat split. Qed.

Lemma merge_existing_alike (e e' p : paper) :
  same_listing e e' ->
  same_listing (merge_existing e p) (merge_existing_v1 e' p).
Proof.
  intros [Hid Hsrc]. split.
  - eapply same_identity_trans; [apply merge_existing_identity|].
    destruct (merge_existing_v1_identity e' p) as (?&?&?&?&?&?&?).
    destruct Hid as (?&?&?&?&?&?&?). repeat split; congruence.
  - by rewrite merge_existing_source, merge_existing_v1_source, Hsrc.
Qed.

Lemma get_alike (k : string) (m1 m2 : ODict.t paper) :
  Forall2 alike m1 m2 ->
  option_Forall2 same_listing (get k m1) (get k m2).
Proof.
  induction 1 as [|[k1 v1] [k2 v2] m1 m2 [Hk Hv] _ IH]; simpl; [constructor|].
  simpl in Hk. subst k2. destruct (String.eqb k1 k); [by constructor | done].
Qed.

Lemma set_alike (k : string) (v1 v2 : paper) (m1 m2 : ODict.t paper) :
  Forall2 alike m1 m2 -> same_listing v1 v2 ->
  Forall2 alike (set k v1 m1) (set k v2 m2).
Proof.
  intros Hm Hv.
  induction Hm as [|[k1 e1] [k2 e2] m1 m2 [Hk He] Hm IH]; simpl.
  - constructor; [by split | constructor].
  - simpl in Hk. subst k2.
    destruct (String.eqb k1 k); constructor; done.
Qed.

(** The dedup loops of the two scripts run in step. *)
Lemma dedup_loops_alike (l : list paper) :
  Forall2 alike (dedup_loop merge_existing l) (dedup_loop merge_existing_v1 l).
Proof.
  unfold dedup_loop.
  assert (forall m1 m2 : ODict.t paper,
            Forall2 alike m1 m2 ->
            Forall2 alike (fold_left (dedup_step merge_existing) l m1)
                          (fold_left (dedup_step merge_existing_v1) l m2))
    as Hgen; [|apply Hgen; constructor].
  induction l as [|p l IH]; intros m1 m2 Hm; simpl; [done|].
  apply IH. unfold dedup_step.
  destruct (get_alike (dedup_key p) m1 m2 Hm) as [e e' He|].
  - apply set_alike; [done|]. by apply merge_existing_alike.
  - apply set_alike; [done|]. apply same_listing_refl.
Qed.

Lemma rank_le_alike (q : string) (x x' y y' : paper) :
  same_listing x x' -> same_listing y y' ->
  rank_le q x y = rank_le q x' y'.
Proof.
  intros [(Htx & _ & _ & _ & Hyx & _) _] [(Hty & _ & _ & _ & Hyy & _) _].
  unfold rank_le, key_of. by rewrite Htx, Hyx, Hty, Hyy.
Qed.

Lemma sort_alike (q : string) (l1 l2 : list paper) :
  Forall2 same_listing l1 l2 ->
  Forall2 same_listing (sort (rank_le q) l1) (sort (rank_le q) l2).
Proof.
  induction 1 as [|x x' l1 l2 Hx _ IH]; simpl; [constructor|].
  revert IH. generalize (sort (rank_le q) l1) (sort (rank_le q) l2).
  intros s1 s2 Hs. induction Hs as [|y y' s1 s2 Hy Hs IHs]; simpl.
  - constructor; [done | constructor].
  - rewrite (rank_le_alike q x x' y y' Hx Hy).
    destruct (rank_le q x' y').
    + constructor; [done|]. by constructor.
    + by constructor.
Qed.

(** The two scripts rank alike: on the same provider lists they return the
    same works in the same order, with the same title, DOI, URL, authors,
    year, journal, query and source label. (The later script adds the
    PubMed id, the abstract and the tags.) *)
Theorem scripts_rank_alike (a b : list paper) (q : string) (top_n : Z) :
  Forall2 same_listing (merge_and_score a b q top_n)
          (merge_and_score_v1 a b q top_n).
Proof.
  unfold merge_and_score, merge_and_score_v1, merge, merge_v1.
  destruct (a ++ b) as [|p l] eqn:Hab; [constructor|]. rewrite <- Hab.
  rewrite !rank_as_sort.
  assert (Forall2 same_listing
            (values (dedup_loop merge_existing (a ++ b)))
            (values (dedup_loop merge_existing_v1 (a ++ b)))) as Hvals.
  { unfold values. apply Forall2_fmap_2.
    eapply Forall2_impl; [apply dedup_loops_alike|]. by intros ? ? [_ ?]. }
  apply (sort_alike q) in Hvals.
  unfold slice_to. rewrite (Forall2_length _ _ _ Hvals).
  destruct (0 <=? top_n); by apply Forall2_take.
Qed.

End Siblings.

(** ** One query, end to end *)

Section RunQuery.
Import PyStr PyStrFacts PyList PyListFacts ODict ODictFacts.

Lemma Forall2_compose {A B C} (P : A -> B -> Prop) (Q : B -> C -> Prop)
    (R : A -> C -> Prop) (l1 : list A) (l2 : list B) (l3 : list C) :
  (forall x y z, P x y -> Q y z -> R x z) ->
  Forall2 P l1 l2 -> Forall2 Q l2 l3 -> Forall2 R l1 l3.
Proof.
  intros HPQ H12. revert l3.
  induction H12 as [|x y l1 l2 Hxy _ IH]; intros l3 H23.
  - apply Forall2_nil_inv_l in H23 as ->. constructor.
  - apply Forall2_cons_inv_l in H23 as (z & l3' & Hyz & H23 & ->).
    constructor; [by eapply HPQ | by apply IH].
Qed.

Lemma crossref_error_no_papers (resp : http_result (list crossref_item))
    (q : string) :
  (fetch_papers_crossref resp q).2 <> None ->
  (fetch_papers_crossref resp q).1 = [].
Proof. by destruct resp as [e|e|[|it items]]. Qed.

Lemma pubmed_error_no_papers (esearch : http_result (list string))
    (esummary : list string -> http_result esummary_result) (q : string) :
  (fetch_papers_pubmed esearch esummary q).2 <> None ->
  (fetch_papers_pubmed esearch esummary q).1 = [].
Proof.
  unfold fetch_papers_pubmed.
  destruct esearch as [e|e|idlist]; simpl; [done..|].
  destruct (list_truthy idlist); simpl; [|done].
  destruct (esummary idlist) as [e|e|result]; simpl; [done..|].
  by destruct (list_truthy (uids result)).
Qed.

(** One pass of the query loop, on answers of the shapes the types of the
    services describe. The pass raises exactly where the translation stage
    raises: translation switched on, an abstract in the enriched ranking,
    and an answer that is not an object or has an entry that is not one.
    When the pass returns, its result is the ranking of [merge_and_score],
    record for record and in its order, with identity, source and PubMed id
    unchanged by the later stages and each record typed by its own tags; so
    it lists no work twice and, for a [top_n] that is not negative, at most
    [top_n] works; and it comes with the error of either provider. When
    both providers fail the pass returns the empty ranking. *)
Theorem run_query_outcome (w : services) (top_n : Z) (q : string) :
  let cr := fetch_papers_crossref (crossref_works w q) q in
  let pm := fetch_papers_pubmed (pubmed_esearch w q) (pubmed_esummary w) q in
  let ranked0 := merge_and_score cr.1 pm.1 q top_n in
  let enriched := (add_abstracts_to_papers (pubmed_efetch w) ranked0).1 in
  let texts := map snd (abstracts_from 0 enriched) in
  (run_query w top_n q = None
   <-> translation_enabled w = true /\ texts <> []
       /\ bad_shape (length texts) (deepl_translate w texts))
  /\ (forall ranked cerr perr,
        run_query w top_n q = Some (ranked, cerr, perr) ->
        cerr = cr.2 /\ perr = pm.2
        /\ Forall2 ranked_as ranked0 ranked
        /\ NoDup (map (fun r => dedup_key (base r)) ranked)
        /\ (0 <= top_n -> Z.of_nat (length ranked) <= top_n))
  /\ (cr.2 <> None -> pm.2 <> None ->
      run_query w top_n q = Some ([], cr.2, pm.2)).
Proof.
  intros cr pm ranked0 enriched texts.
  assert (run_query w top_n q
          = ranked ← translate_abstracts_ja (translation_enabled w)
                       (deepl_translate w) enriched;
            Some (annotate_article_types ranked, cr.2, pm.2)) as Hrun.
  { unfold run_query, enriched, ranked0. fold cr pm.
    by destruct cr, pm. }
  split_and!.
  - rewrite Hrun.
    pose proof (translate_abstracts_ja_raises (translation_enabled w)
                  (deepl_translate w) enriched) as Hraises.
    cbv zeta in Hraises. fold texts in Hraises. rewrite <- Hraises.
    by destruct (translate_abstracts_ja _ _ enriched).
  - intros ranked cerr perr. rewrite Hrun.
    destruct (translate_abstracts_ja _ _ enriched) as [ranked2|] eqn:Htr;
      [|done].
    simpl. intros [= <- <- <-].
    apply translate_abstracts_ja_returns in Htr as (H12 & _).
    pose proof (add_abstracts_enriched_from (pubmed_efetch w) ranked0) as H01.
    fold enriched in H01.
    assert (Forall2 ranked_as ranked0 (annotate_article_types ranked2))
      as Hall.
    { unfold annotate_article_types. apply Forall2_fmap_r.
      eapply (Forall2_compose _ _ _ _ _ _ _ H01 H12). Unshelve.
      intros p0 p1 p2 Hen Htl. unfold ranked_as. simpl.
      pose proof (enriched_from_dedup_key _ _ Hen) as Hkey.
      destruct Hen as [[Hid Hsrc] [Hpmid _]]. rewrite Htl. simpl.
      split_and!; done. }
    assert (map (fun r => dedup_key (base r)) (annotate_article_types ranked2)
            = map dedup_key ranked0) as Hkeys.
    { clear -Hall.
      induction Hall as [|p r l1 l2 (_ & _ & Hk & _) _ IH]; simpl; [done|].
      by rewrite Hk, IH. }
    split_and!; [done..| |].
    + rewrite Hkeys. apply merge_and_score_keys_NoDup.
    + intros Hn. rewrite <- (Forall2_length _ _ _ Hall). unfold ranked0.
      rewrite merge_and_score_rank, rank_as_sort.
      rewrite slice_to_length, (proj2 (Z.leb_le 0 top_n)) by done. lia.
  - intros Hc Hp. rewrite Hrun.
    assert (enriched = []) as ->; [|by destruct (translation_enabled w)].
    unfold enriched, ranked0, cr, pm.
    rewrite (crossref_error_no_papers (crossref_works w q) q Hc).
    by rewrite (pubmed_error_no_papers (pubmed_esearch w q)
                  (pubmed_esummary w) q Hp).
Qed.

End RunQuery.

(** ** Markup in Crossref abstracts *)

Section Markup.
Import PyStr PyStrFacts PyRe.

Local Arguments String.append !_ _ / : simpl nomatch.

Lemma length_append (a b : string) :
  String.length (a +:+ b) = (String.length a + String.length b)%nat.
Proof. induction a as [|c a IH]; simpl; [done | by rewrite IH]. Qed.

Lemma sub_tags_length (tag : option string) (s : string) :
  (String.length (sub_tags tag s)
   <= String.length (default EmptyString tag) + String.length s)%nat.
Proof.
  revert tag. induction s as [|c s IH]; intros tag; simpl.
  - lia.
  - destruct tag as [seen|]; simpl.
    + destruct (Ascii.eqb c ">").
      * destruct seen as [|c1 [|c2 seen]]; simpl;
          try (rewrite ?length_append; simpl;
               pose proof (IH None) as H0; simpl in H0; lia).
      * pose proof (IH (Some (seen +:+ String c EmptyString))) as H1.
        simpl in H1. rewrite length_append in H1. simpl in H1. lia.
    + destruct (Ascii.eqb c "<").
      * pose proof (IH (Some (String c EmptyString))) as H1. simpl in H1. lia.
      * simpl. pose proof (IH None) as H0. simpl in H0. lia.
Qed.

(** Inside a tag: up to the closing bracket everything is dropped. *)
Lemma sub_tags_close (seen t rest : string) :
  all_chars (fun c => negb (Ascii.eqb c ">")) t = true ->
  (2 <= String.length (seen +:+ t))%nat ->
  sub_tags (Some seen) (t +:+ String ">" rest) = sub_tags None rest.
Proof.
  revert seen. induction t as [|c t IH]; intros seen Ht Hlen; simpl.
  - rewrite append_nil_r in Hlen.
    destruct seen as [|c1 [|c2 seen]]; simpl in Hlen; [lia | lia | done].
  - simpl in Ht. apply andb_true_iff in Ht as [Hc Ht].
    destruct (Ascii.eqb c ">"); [done|]. apply IH; [done|].
    by rewrite append_assoc.
Qed.

(** Cleaning an abstract of its markup: text without "<" is kept as it is;
    a tag, which is "<", then at least one character other than ">", then
    ">", is dropped and the text before it kept; and the result is never
    longer than the text. *)
Theorem sub_tags_drops_tags :
  (forall s, all_chars (fun c => negb (Ascii.eqb c "<")) s = true ->
             sub_tags None s = s)
  /\ (forall a t b,
        all_chars (fun c => negb (Ascii.eqb c "<")) a = true ->
        t <> EmptyString ->
        all_chars (fun c => negb (Ascii.eqb c ">")) t = true ->
        sub_tags None (a +:+ String "<" (t +:+ String ">" b))
        = a +:+ sub_tags None b)
  /\ (forall s, (String.length (sub_tags None s) <= String.length s)%nat).
Proof.
  split_and!.
  - induction s as [|c s IH]; simpl; [done|].
    intros [Hc Hs]%andb_true_iff. destruct (Ascii.eqb c "<"); [done|].
    by rewrite IH.
  - intros a t b Ha Ht Hclose. induction a as [|c a IH]; simpl.
    + apply sub_tags_close; [done|]. destruct t; [done | simpl; lia].
    + simpl in Ha. apply andb_true_iff in Ha as [Hc Ha].
      destruct (Ascii.eqb c "<"); [done|]. by rewrite IH.
  - intros s. apply (sub_tags_length None s).
Qed.

Lemma sub_tags_drops_tags_witness :
  sub_tags None ("Sensing " +:+ String "<" ("b" +:+ String ">" "now"))
  = "Sensing " +:+ sub_tags None "now".
Proof.
  apply (proj1 (proj2 sub_tags_drops_tags) "Sensing " "b" "now"); done.
Defined.

End Markup.

(** ** The classifier, continued *)

Section ClassifierMore.
Import PyStr PyStrFacts.

Lemma rule_matches_lower (tags : list string) (rule : string * string) :
  rule_matches tags rule = existsb (str_in rule.1) (map lower tags).
Proof. unfold rule_matches. by rewrite existsb_map. Qed.

Lemma find_ext_eq {A} (f g : A -> bool) (l : list A) :
  (forall x, f x = g x) -> List.find f l = List.find g l.
Proof.
  intros Hfg. induction l as [|x l IH]; simpl; [done|]. by rewrite Hfg, IH.
Qed.

(** The article type is one of the nine labels, or the first tag, or
    "(unknown)"; and when some rule matches, it depends on the tags up to
    letter case only. *)
Theorem guess_article_type_range :
  (forall p,
      guess_article_type p ∈ map snd type_rules
      \/ head (or_list (pub_types p)) = Some (guess_article_type p)
      \/ (or_list (pub_types p) = [] /\ guess_article_type p = "(unknown)"))
  /\ (forall p p' rule,
        map lower (or_list (pub_types p)) = map lower (or_list (pub_types p'))
        -> rule ∈ type_rules ->
        rule_matches (or_list (pub_types p)) rule = true ->
        guess_article_type p = guess_article_type p').
Proof.
  split.
  - intros p. rewrite guess_article_type_by_rules. unfold classify_by_rules.
    destruct (List.find _ type_rules) as [rule|] eqn:Hfind.
    + left. apply find_some in Hfind as [Hin _].
      apply list_elem_of_In in Hin. by apply list_elem_of_fmap_2.
    + destruct (or_list (pub_types p)); [by right; right | by right; left].
  - intros p p' rule Hlow Hin Hrule.
    rewrite !guess_article_type_by_rules. unfold classify_by_rules.
    assert (forall r, rule_matches (or_list (pub_types p)) r
                      = rule_matches (or_list (pub_types p')) r) as Hsame
      by (intros r; by rewrite !rule_matches_lower, Hlow).
    rewrite (find_ext_eq _ _ type_rules Hsame).
    destruct (List.find _ type_rules) as [r|] eqn:Hfind; [done|].
    apply list_elem_of_In in Hin.
    pose proof (List.find_none _ _ Hfind rule Hin) as Hno.
    rewrite <- Hsame in Hno. congruence.
Qed.

Lemma guess_article_type_range_witness :
  guess_article_type (set_pub_types (Some ["Case Reports"]) Sample.from_b)
  = guess_article_type (set_pub_types (Some ["CASE REPORTS"]) Sample.from_b).
Proof.
  apply (proj2 guess_article_type_range _ _ ("case report", "Case report"));
    [reflexivity | | reflexivity].
  do 5 right. left.
Defined.

End ClassifierMore.

(** ** Sample runs *)

Section SampleRuns.
Import ODict.

Lemma same_doi_from_both_providers_witness :
  exists e,
    entries_for "10.1/x"
      (merge (fetch_papers_crossref (Json [SampleRun.item]) "q").1
             (fetch_papers_pubmed (Json ["31000001"])
                (fun _ => Json SampleRun.summaries) "q").1)
    = [("10.1/x", e)]
    /\ source e = "Crossref+PubMed".
Proof.
  apply (same_doi_from_both_providers [SampleRun.item] (Json ["31000001"])
           (fun _ => Json SampleRun.summaries) "q" SampleRun.item
           (pubmed_paper "q" "31000001" SampleRun.doc) "10.1/X" "10.1/x");
    try done.
  - left.
  - vm_compute. left.
Defined.

Lemma enrichment_keeps_the_listing_witness :
  requested_pmids Sample.ranked <> [].
Proof.
  apply (proj2 (proj2 (proj2 (proj2
           (enrichment_keeps_the_listing (fun _ => RequestFailed)
              Sample.ranked)))) (requested_pmids Sample.ranked)).
  vm_compute. left.
Defined.

Lemma requested_pmids_sorted_set_witness :
  "31000001" ∈ requested_pmids Sample.ranked.
Proof.
  apply (proj2 (proj2 (proj2 (requested_pmids_sorted_set Sample.ranked))
                  "31000001")).
  exists (set_pmid (Some "31000001")
            (set_source "Crossref+PubMed" Sample.from_a)).
  split_and!; [vm_compute; left | reflexivity..].
Defined.

Lemma ranked_ids_are_requested_witness :
  let ranked := merge_and_score
                  (fetch_papers_crossref (Json [SampleRun.item]) "q").1
                  (fetch_papers_pubmed (Json ["31000001"])
                     (fun _ => Json SampleRun.summaries) "q").1 "q" 3 in
  "31000001" ∈ requested_pmids ranked.
Proof.
  intros ranked.
  assert (exists p, ranked = [p] /\ pmid p = Some "31000001") as (p & Hp & Hid)
    by (eexists; split; reflexivity).
  apply (proj2 (ranked_ids_are_requested (Json [SampleRun.item])
                  (Json ["31000001"]) (fun _ => Json SampleRun.summaries)
                  "q" 3) p "31000001");
    [fold ranked; rewrite Hp; left | exact Hid | reflexivity].
Defined.

Lemma merge_and_score_lists_no_work_twice_witness :
  set_pmid (Some "31000001") (set_source "Crossref+PubMed" Sample.from_a)
  ∈ values (merge [Sample.from_a] [Sample.from_b]).
Proof.
  apply (proj2 (proj2 (merge_and_score_lists_no_work_twice
                         [Sample.from_a] [Sample.from_b] Sample.the_query 3))).
  vm_compute. left.
Defined.

Lemma run_query_outcome_witness :
  exists r,
    run_query SampleRun.world 3 "q" = Some ([r], None, None)
    /\ article_type r = "Review"
    /\ abstract_ja (base r) = Some "Kanchi, tanteki ni."
    /\ NoDup (map (fun r => dedup_key (base r)) [r]).
Proof.
  eexists. split; [vm_compute; reflexivity|].
  split; [reflexivity|]. split; [reflexivity|].
  apply (proj1 (proj2 (run_query_outcome SampleRun.world 3 "q")) _ None None).
  vm_compute. reflexivity.
Defined.

End SampleRuns.

(** ** The Crossref-only script *)

Section SingleProvider.
Import PyStr PyList PyListFacts.


Lemma insert_map_on {A B} (leA : A -> A -> bool) (leB : B -> B -> bool)
    (f : A -> B) (x : A) (l : list A) :
  (forall y, y ∈ l -> leA x y = leB (f x) (f y)) ->
  map f (insert leA x l) = insert leB (f x) (map f l).
Proof.
  induction l as [|y l IH]; intros Hle; simpl; [done|].
  rewrite <- (Hle y) by left.
  destruct (leA x y); simpl; [done|].
  f_equal. apply IH. intros z Hz. apply Hle. by right.
Qed.

Lemma omap_map_Some {A B} (f : A -> option B) (l : list A) (l' : list B) :
  map f l = map Some l' -> omap f l = l'.
Proof.
  revert l'. induction l as [|x l IH]; intros [|y l'] Heq; simplify_eq/=;
    [done|].
  csimpl. rewrite H. simpl. f_equal. by apply IH.
Qed.


(** The index in the sort key changes nothing: the sort is stable
    already. *)
Lemma score_items_sorted (its : list crossref_item) (q : string) :
  forall idx, exists scored,
    score_items idx (map Some its) q = Some scored
    /\ Forall (fun t => idx <= t.1.2
                        /\ exists it, t.2 = Some it
                                      /\ t.1.1 = score_item it q) scored
    /\ map (fun t => t.2)
           (sort (fun x y => tuple_le (item_key x) (item_key y)) scored)
       = map Some (sort (score_desc q) its).
Proof.
  induction its as [|it its IH]; intros idx; simpl.
  - exists []. by repeat split.
  - destruct (IH (idx + 1)) as (scored & -> & Hall & Hsort). simpl.
    eexists. split; [reflexivity|]. split.
    + constructor.
      * simpl. split; [lia|]. by exists it.
      * eapply Forall_impl; [exact Hall|].
        intros t (Hidx & Hit). split; [lia | exact Hit].
    + simpl.
      rewrite (insert_map_on
                 (fun x y : scored_item => tuple_le (item_key x) (item_key y))
                 (opt_score_desc q)
                 (fun t : Z * Z * option crossref_item => t.2)).
      * unfold scored_item in *. rewrite Hsort. simpl. symmetry.
        by apply (insert_map_on (score_desc q) (opt_score_desc q) Some).
      * intros y Hy.
        rewrite (sort_perm _ scored) in Hy.
        rewrite Forall_forall in Hall.
        destruct (Hall y Hy) as (Hidx & it' & Hit' & Hs).
        simpl. rewrite Hit'. unfold item_key, tuple_le, score_desc. simpl.
        rewrite Hs.
        destruct (Z.ltb_spec (- score_item it q) (- score_item it' q));
          destruct (Z.eqb_spec (- score_item it q) (- score_item it' q));
          destruct (Z.leb_spec idx y.1.2);
          destruct (Z.leb_spec (score_item it' q) (score_item it q));
          simpl; try done; lia.
Qed.

Lemma choose_top_items_sorted (its : list crossref_item) (q : string)
    (n : Z) :
  choose_top_items (map Some its) q n
  = Some (slice_to n (sort (score_desc q) its)).
Proof.
  unfold choose_top_items.
  destruct (score_items_sorted its q 0) as (scored & -> & _ & Hsort). simpl.
  f_equal. apply omap_map_Some.
  by rewrite slice_to_map, Hsort, <- slice_to_map.
Qed.





Lemma paper_info_same_fields (q : string) (it : crossref_item) :
  same_fields (paper_info_of q it) (crossref_paper q it).
Proof. by repeat split. Qed.

(** X27. [search_top_papers] returns records or an error message, never
    both and never neither, and never an empty list of records. On an
    answer with works and for [top_n] of 1 or more it returns the records
    of the first [top_n] works, best first; for [top_n] 0 it reports that
    nothing was selected. Its records list a work as those of
    [fetch_papers_crossref] do. *)
Theorem search_top_papers_outcome
    (resp : http_result (list (option crossref_item))) (q : string)
    (top_n : Z) :
  (forall out, search_top_papers resp q top_n = Some out ->
     (out.1 = None <-> out.2 <> None) /\ out.1 <> Some [])
  /\ (forall its, resp = Json (map Some its) -> its <> [] -> 1 <= top_n ->
        search_top_papers resp q top_n
        = Some (Some (map (paper_info_of q)
                          (slice_to top_n (sort (score_desc q) its))),
                None)
        /\ Z.of_nat (length (slice_to top_n (sort (score_desc q) its)))
           = Z.min top_n (Z.of_nat (length its)))
  /\ (forall its, resp = Json (map Some its) -> its <> [] -> top_n = 0 ->
        search_top_papers resp q top_n
        = Some (None, Some "No suitable items selected."))
  /\ (forall it, same_fields (paper_info_of q it) (crossref_paper q it)).
Proof.
  split_and!.
  - intros out. unfold search_top_papers.
    destruct resp as [e|e|items]; [by intros [= <-]..|].
    destruct (list_truthy items); simpl; [|by intros [= <-]].
    destruct (choose_top_items items q top_n) as [[|it sel]|]; simpl;
      [by intros [= <-] | by intros [= <-] | done].
  - intros its -> Hne Hn.
    assert (Z.of_nat (length (slice_to top_n (sort (score_desc q) its)))
            = Z.min top_n (Z.of_nat (length its))) as Hlen.
    { rewrite slice_to_length. destruct (Z.leb_spec 0 top_n); [|lia].
      by rewrite sort_length. }
    split; [|exact Hlen].
    unfold search_top_papers.
    assert (list_truthy (map Some its) = true) as -> by (by destruct its).
    rewrite choose_top_items_sorted.
    destruct (slice_to top_n (sort (score_desc q) its)) as [|s sel];
      [destruct its; [done|]; simpl in Hlen; lia | done].
  - intros its -> Hne ->.
    unfold search_top_papers.
    assert (list_truthy (map Some its) = true) as -> by (by destruct its).
    by rewrite choose_top_items_sorted.
  - intros it. apply paper_info_same_fields.
Qed.

Lemma search_top_papers_outcome_witness :
  search_top_papers
    (Json [Some SampleRun.item_other; Some SampleRun.item])
    Sample.the_query 1
  = Some (Some [paper_info_of Sample.the_query SampleRun.item], None).
Proof.
  destruct (proj1 (proj2 (search_top_papers_outcome
                            (Json [Some SampleRun.item_other;
                                   Some SampleRun.item])
                            Sample.the_query 1))
              [SampleRun.item_other; SampleRun.item] eq_refl)
    as (Hout & _); [done | lia |].
  exact Hout.
Defined.

End SingleProvider.
